(** * bd-news-rss: the aggregation pipeline of the three data endpoints

    A shallow embedding of the route handlers

      - the RSS route               (news:    [fetchOGImageFromPage],
                                     [fetchRSSFeed], [enrichItemsWithImages], [GET])
      - [app/api/product/route.ts]  (product: [fetchSitemapFast],
                                     [scrapeProductDataFast], [GET])
      - [app/api/videos/route.ts]   (video:   [GET])

    The handlers are functions of the outside world: the network, the XML
    parser, the HTML query engine, the date parser.  Those are gathered in
    a record [World] and passed explicitly; every line of the handlers
    themselves (field extraction, filters, comparators, the slice, the
    enrichment pass and its pattern, the price selector chain and its
    pattern) is a definition below. *)

From Stdlib Require Import Ascii String.
From Stdlib Require Import List ZArith NArith QArith Bool Lia.
From Stdlib Require Import Permutation Sorted.
Import ListNotations.

Set Implicit Arguments.
Set Warnings "-register-all".

Local Open Scope Z_scope.

(* ================================================================== *)
(** * The language level: strings, values, exceptions, numbers         *)
(* ================================================================== *)

Module Js.

(** ** Strings

    A JavaScript string is a sequence of 16-bit code units.  [trim], [\s]
    and [substring] are defined on code units, so that is what the model
    keeps. *)

Definition jstring := list N.

Fixpoint str_eqb (s t : jstring) : bool :=
  match s, t with
  | [], [] => true
  | c :: s', d :: t' => (c =? d)%N && str_eqb s' t'
  | _, _ => false
  end.

(** Source literals are written as they stand in the source and decoded
    from UTF-8 to code units. *)
Fixpoint utf16 (bs : list N) : jstring :=
  (match bs with
   | [] => []
   | b0 :: t0 =>
     if b0 <? 128 then b0 :: utf16 t0
     else match t0 with
       | [] => [65533]
       | b1 :: t1 =>
         if b0 <? 224 then ((b0 - 192) * 64 + (b1 - 128)) :: utf16 t1
         else match t1 with
           | [] => [65533]
           | b2 :: t2 =>
             if b0 <? 240
             then ((b0 - 224) * 4096 + (b1 - 128) * 64 + (b2 - 128)) :: utf16 t2
             else match t2 with
               | [] => [65533]
               | b3 :: t3 =>
                 let cp := (b0 - 240) * 262144 + (b1 - 128) * 4096
                           + (b2 - 128) * 64 + (b3 - 128) in
                 (55296 + (cp - 65536) / 1024)
                   :: (56320 + (cp - 65536) mod 1024) :: utf16 t3
               end
           end
       end
   end)%N.

Definition lit (s : string) : jstring :=
  utf16 (map N_of_ascii (list_ascii_of_string s)).

(** The double quote, for the selectors that contain one. *)
Definition dq : jstring := [34%N].

(** WhiteSpace and LineTerminator code units: what [trim] strips and what
    [\s] matches. *)
Definition isWhiteSpace (c : N) : bool :=
  ((9 <=? c) && (c <=? 13) || (c =? 32) || (c =? 160) || (c =? 5760)
   || (8192 <=? c) && (c <=? 8202) || (c =? 8232) || (c =? 8233)
   || (c =? 8239) || (c =? 8287) || (c =? 12288) || (c =? 65279))%N.

Definition isDigit (c : N) : bool := ((48 <=? c) && (c <=? 57))%N.

Fixpoint dropWhile {A} (p : A -> bool) (l : list A) : list A :=
  match l with
  | [] => []
  | x :: l' => if p x then dropWhile p l' else l
  end.

Fixpoint takeWhile {A} (p : A -> bool) (l : list A) : list A :=
  match l with
  | [] => []
  | x :: l' => if p x then x :: takeWhile p l' else []
  end.

Definition trimStart (s : jstring) : jstring := dropWhile isWhiteSpace s.

(** [s.trim()] *)
Definition trim (s : jstring) : jstring :=
  rev (trimStart (rev (trimStart s))).

(** [s.startsWith(p)] *)
Fixpoint startsWith (p s : jstring) : bool :=
  match p, s with
  | [], _ => true
  | c :: p', d :: s' => (c =? d)%N && startsWith p' s'
  | _ :: _, [] => false
  end.

(** [s.includes(p)] *)
Fixpoint includes (p s : jstring) : bool :=
  startsWith p s ||
  match s with
  | [] => false
  | _ :: s' => includes p s'
  end.

(** [s.substring(0, n)] *)
Definition substring0 (n : nat) (s : jstring) : jstring := firstn n s.

(** ** Exceptions

    A computation either returns or throws; the handlers never look at
    what was thrown (it is logged), so the exception carries nothing. *)

Inductive result (A : Type) : Type :=
| Ok (a : A)
| Throw.
Arguments Throw {A}.

Definition rbind {A B} (m : result A) (f : A -> result B) : result B :=
  match m with
  | Ok a => f a
  | Throw => Throw
  end.

Fixpoint rmap {A B} (f : A -> result B) (l : list A) : result (list B) :=
  match l with
  | [] => Ok []
  | x :: l' =>
    rbind (f x) (fun y => rbind (rmap f l') (fun ys => Ok (y :: ys)))
  end.

Declare Scope result_scope.
Delimit Scope result_scope with result.
Notation "x <- m ;; k" := (rbind m (fun x => k))
  (at level 61, m at next level, right associativity) : result_scope.

(** [try { return m } catch { return d }] *)
Definition tryCatch {A} (m : result A) (d : A) : A :=
  match m with
  | Ok a => a
  | Throw => d
  end.

(** ** Values

    What the XML parser hands over is typed [any]: strings, arrays and
    objects, arbitrarily nested.  The handlers read it with [.k], [[0]],
    [?.] and [||], and copy what they find into the items without looking
    at its shape, so the items carry the same universe.  The parser makes
    its objects without a prototype: they have the members of the
    document and nothing else, in particular no [toString] and no
    [valueOf]. *)

Inductive value : Type :=
| VUndef
| VNull
| VBool (b : bool)
| VStr (s : jstring)
| VArr (l : list value)
| VObj (fields : list (jstring * value)).

(** ToBoolean *)
Definition truthy (v : value) : bool :=
  match v with
  | VUndef | VNull => false
  | VBool b => b
  | VStr s => match s with [] => false | _ => true end
  | VArr _ | VObj _ => true
  end.

(** [a || b] *)
Definition orElse (a b : value) : value := if truthy a then a else b.

Definition nullish (v : value) : bool :=
  match v with VUndef | VNull => true | _ => false end.

Fixpoint lookup (k : jstring) (fs : list (jstring * value)) : value :=
  match fs with
  | [] => VUndef
  | (k', v) :: fs' => if str_eqb k k' then v else lookup k fs'
  end.

(** ToString.  An array joins its elements with commas, an absent
    element giving the empty string.  An object of the parser has nothing
    to convert it with: the conversion is a TypeError, also when the
    object is met inside an array. *)
Fixpoint toStr (v : value) : result jstring :=
  match v with
  | VUndef => Ok (lit "undefined")
  | VNull => Ok (lit "null")
  | VBool true => Ok (lit "true")
  | VBool false => Ok (lit "false")
  | VStr s => Ok s
  | VArr l =>
    (fix join (l : list value) : result jstring :=
       match l with
       | [] => Ok []
       | x :: r =>
         match (if nullish x then Ok [] else toStr x) with
         | Throw => Throw
         | Ok s =>
           match r with
           | [] => Ok s
           | _ :: _ =>
             match join r with
             | Throw => Throw
             | Ok t => Ok (s ++ lit "," ++ t)
             end
           end
         end
       end) l
  | VObj _ => Throw
  end.

(** [v.k] and [v[k]]: reading a property of [undefined] or [null] is a
    TypeError.  None of the names the handlers read is a data member of a
    string, an array or a boolean ([link] on a string is a method, and the
    handlers only index it, which gives [undefined] again). *)
Definition getProp (k : jstring) (v : value) : result value :=
  match v with
  | VUndef | VNull => Throw
  | VObj fs => Ok (lookup k fs)
  | VBool _ | VStr _ | VArr _ => Ok VUndef
  end.

(** [v[0]] *)
Definition getFirst (v : value) : result value :=
  match v with
  | VUndef | VNull => Throw
  | VArr l => Ok (nth 0 l VUndef)
  | VStr s => Ok (match s with [] => VUndef | c :: _ => VStr [c] end)
  | VObj fs => Ok (lookup (lit "0") fs)
  | VBool _ => Ok VUndef
  end.

(** [v?.k] and [v?.[0]] *)
Definition optProp (k : jstring) (v : value) : value :=
  if nullish v then VUndef else tryCatch (getProp k v) VUndef.

Definition optFirst (v : value) : value :=
  if nullish v then VUndef else tryCatch (getFirst v) VUndef.

(** [v.map(f)] and [v.forEach(f)]: only an array has them. *)
Definition asArray (v : value) : result (list value) :=
  match v with
  | VArr l => Ok l
  | _ => Throw
  end.

(** ** Numbers

    A Number is NaN, an infinity or a finite value, kept as a rational.
    What the handlers do with their numbers is to add an offset and a
    limit, to compare the sum with an array length, and to truncate. *)

Inductive jsnum : Type :=
| NaN
| Inf (negative : bool)
| Fin (q : Q).

Definition ofZ (z : Z) : jsnum := Fin (inject_Z z).

(** The Number value for a mathematical integer: the nearest double, a
    tie going to the even significand, and an infinity from [2^1024] on.
    Below [2^53] in absolute value every integer is its own Number
    value. *)
Definition numberOf (z : Z) : jsnum :=
  let m := Z.abs z in
  if m <? 2 ^ 53 then ofZ z
  else
    let e := Z.log2 m - 52 in
    let q := m / 2 ^ e in
    let r := m mod 2 ^ e in
    let half := 2 ^ (e - 1) in
    let q' := if (half <? r) || ((r =? half) && Z.odd q) then q + 1 else q in
    if 2 ^ 1024 <=? q' * 2 ^ e then Inf (z <? 0)
    else ofZ (Z.sgn z * (q' * 2 ^ e)).

(** [a + b] *)
Definition add (a b : jsnum) : jsnum :=
  match a, b with
  | NaN, _ | _, NaN => NaN
  | Inf s, Inf t => if Bool.eqb s t then Inf s else NaN
  | Inf s, Fin _ | Fin _, Inf s => Inf s
  | Fin p, Fin q => Fin (p + q)
  end.

(** [a < b] *)
Definition ltb (a b : jsnum) : bool :=
  match a, b with
  | NaN, _ | _, NaN => false
  | Inf true, Inf true => false
  | Inf true, _ => true
  | Inf false, _ => false
  | Fin _, Inf negative => negb negative
  | Fin p, Fin q => negb (Qle_bool q p)
  end.

Inductive extint : Type :=
| NegInf
| Int (z : Z)
| PosInf.

Definition toIntegerOrInfinity (n : jsnum) : extint :=
  match n with
  | NaN => Int 0
  | Inf true => NegInf
  | Inf false => PosInf
  | Fin q => Int (Z.quot (Qnum q) (Z.pos (Qden q)))
  end.

(** ** [Array.prototype.slice(start, end)] *)

Definition relIndex (len : Z) (r : extint) : Z :=
  match r with
  | NegInf => 0
  | PosInf => len
  | Int z => if z <? 0 then Z.max (len + z) 0 else Z.min z len
  end.

Definition slice {A} (l : list A) (start final : jsnum) : list A :=
  let len := Z.of_nat (length l) in
  let k := relIndex len (toIntegerOrInfinity start) in
  let e := relIndex len (toIntegerOrInfinity final) in
  firstn (Z.to_nat (Z.max (e - k) 0)) (skipn (Z.to_nat k) l).

(** ** [Number.parseInt(s)], no radix given

    The digits are read as a mathematical integer, and the result is the
    Number value for it.  (Past the twentieth significant decimal digit
    an engine may read zeros instead; the result is then still the Number
    value for an integer.) *)

Definition digitValue (c : N) : option Z :=
  (if (48 <=? c) && (c <=? 57) then Some (Z.of_N (c - 48))
   else if (97 <=? c) && (c <=? 122) then Some (Z.of_N (c - 87))
   else if (65 <=? c) && (c <=? 90) then Some (Z.of_N (c - 55))
   else None)%N.

Definition isRadixDigit (radix : Z) (c : N) : bool :=
  match digitValue c with
  | Some d => d <? radix
  | None => false
  end.

Definition digitsValue (radix : Z) (ds : jstring) : Z :=
  fold_left
    (fun acc c => acc * radix + match digitValue c with Some d => d | None => 0 end)
    ds 0.

Definition stripSign (s : jstring) : bool * jstring :=
  match s with
  | c :: r =>
    if (c =? 45)%N then (true, r)
    else if (c =? 43)%N then (false, r)
    else (false, s)
  | [] => (false, [])
  end.

Definition stripHexPrefix (s : jstring) : Z * jstring :=
  match s with
  | c0 :: c1 :: r =>
    if ((c0 =? 48) && ((c1 =? 120) || (c1 =? 88)))%N then (16, r) else (10, s)
  | _ => (10, s)
  end.

Definition parseInt (s : jstring) : jsnum :=
  let (negative, s1) := stripSign (trimStart s) in
  let (radix, s2) := stripHexPrefix s1 in
  match takeWhile (isRadixDigit radix) s2 with
  | [] => NaN
  | ds => numberOf ((if negative then -1 else 1) * digitsValue radix ds)
  end.

(** ** [Array.prototype.sort(comparefn)]

    The sort calls [comparefn a b] and takes a result above zero to mean
    that [a] goes after [b]; a NaN result counts as zero.  The language
    fixes the outcome where the comparator is consistent on the elements
    of the array: the array comes back in the order of the comparator,
    elements that compare equal in the order they had.  Every engine then
    returns the same array, the one [stableSort] computes.  Where the
    comparator is not consistent, the order is left to the engine; and
    which pairs the engine compares is left to it throughout. *)

Section Sort.
Variable A : Type.

Section Values.
Variable comparefn : A -> A -> option Z.    (* [None]: NaN *)

Definition sortCompare (a b : A) : Z :=
  match comparefn a b with
  | Some v => v
  | None => 0
  end.

(** [a] may stand before [b]. *)
Definition notAfter (a b : A) : Prop := sortCompare a b <= 0.

(** [a] and [b] tie: neither has to stand after the other. *)
Definition tiedWith (a b : A) : bool :=
  (sortCompare a b <=? 0) && (sortCompare b a <=? 0).

Fixpoint insert (x : A) (l : list A) : list A :=
  match l with
  | [] => [x]
  | y :: l' => if 0 <? sortCompare x y then y :: insert x l' else x :: l
  end.

Fixpoint stableSort (l : list A) : list A :=
  match l with
  | [] => []
  | x :: l' => insert x (stableSort l')
  end.

(** A consistent comparator, clause by clause as the language defines
    it: every element equals itself, equality is symmetric and
    transitive, and so are before and after. *)
Definition consistentAt (a b c : A) : bool :=
  (sortCompare a a =? 0)
  && implb (sortCompare a b =? 0) (sortCompare b a =? 0)
  && implb ((sortCompare a b =? 0) && (sortCompare b c =? 0))
           (sortCompare a c =? 0)
  && implb ((sortCompare a b <? 0) && (sortCompare b c <? 0))
           (sortCompare a c <? 0)
  && implb ((0 <? sortCompare a b) && (0 <? sortCompare b c))
           (0 <? sortCompare a c).

Definition consistentOn (l : list A) : bool :=
  forallb (fun a => forallb (fun b => forallb (consistentAt a b) l) l) l.
End Values.

(** What is left to the engine is a function of what the calls of the
    comparator give, pair by pair: the order it leaves the array in, as
    the list of the old positions, or the exception of a call it made.
    The elements are the array's own, so an answer that is no
    rearrangement of the positions is not taken. *)
Variable engine : list (list (result Z)) -> result (list nat).

Definition pick (l : list A) (order : list nat) : list A :=
  flat_map (fun i => match nth_error l i with Some x => [x] | None => [] end)
           order.

Definition isPermutation (n : nat) (order : list nat) : bool :=
  (length order =? n)%nat
  && forallb (fun i => existsb (Nat.eqb i) order) (seq 0 n).

Definition arrange (l : list A) (order : result (list nat)) : list A :=
  match order with
  | Ok o => if isPermutation (length l) o then pick l o else l
  | Throw => l
  end.

(** The sort with a comparator that always returns. *)
Definition sortTotal (comparefn : A -> A -> option Z) (l : list A) : list A :=
  if consistentOn comparefn l then stableSort comparefn l
  else arrange l
         (engine (map (fun a => map (fun b => Ok (sortCompare comparefn a b)) l)
                      l)).

(** The sort with a comparator that may throw.  An array of less than
    two elements is returned without a call.  Otherwise every element is
    compared at least once, so an element that no call can take makes the
    sort throw; and the exception of a call is the exception of the
    sort. *)
Definition returns (comparefn : A -> A -> result (option Z)) (a b : A) : bool :=
  match comparefn a b with
  | Ok _ => true
  | Throw => false
  end.

Definition valuesOf (comparefn : A -> A -> result (option Z)) (a b : A)
  : option Z :=
  match comparefn a b with
  | Ok v => v
  | Throw => None
  end.

Definition stuck (comparefn : A -> A -> result (option Z)) (l : list A) (x : A)
  : bool :=
  forallb (fun y => negb (returns comparefn x y) && negb (returns comparefn y x))
          l.

Definition sort (comparefn : A -> A -> result (option Z)) (l : list A)
  : result (list A) :=
  match l with
  | [] | [_] => Ok l
  | _ :: _ :: _ =>
    if forallb (fun a => forallb (returns comparefn a) l) l
    then Ok (sortTotal (valuesOf comparefn) l)
    else if existsb (stuck comparefn l) l then Throw
    else
      match engine
              (map (fun a =>
                      map (fun b =>
                             (v <- comparefn a b ;;
                              Ok match v with Some z => z | None => 0 end)%result)
                          l)
                   l)
      with
      | Throw => Throw
      | Ok o => Ok (arrange l (Ok o))
      end
  end.
End Sort.

(** [new Date(v).getTime()], given the engine's parser for date strings:
    [undefined] is an invalid date, [null] and booleans are taken as a
    number of milliseconds, anything else is parsed as the string it
    converts to, and the conversion of an object throws. *)
Definition timeOf (parse : jstring -> option Z) (v : value)
  : result (option Z) :=
  match v with
  | VUndef => Ok None
  | VNull => Ok (Some 0)
  | VBool b => Ok (Some (if b then 1 else 0))
  | VStr s => Ok (parse s)
  | VArr _ | VObj _ => (s <- toStr v ;; Ok (parse s))%result
  end.

(** [params.get(name) || dflt]: the parameter as the query string has it,
    [None] when it is not there. *)
Definition paramOr (p : option jstring) (dflt : jstring) : jstring :=
  match p with
  | Some (c :: s) => c :: s
  | _ => dflt
  end.

End Js.

(* ================================================================== *)
(** * The outside world                                                *)
(* ================================================================== *)

Import Js.

(** [fetch(url)]: the promise is rejected, or there is a response with its
    [ok] flag and its text. *)
Inductive FetchOutcome : Type :=
| Rejected
| Response (ok : bool) (body : jstring).

(** A document loaded by the HTML query engine, as the product scraper
    reads it. *)
Record Doc : Type := {
  attrContent : jstring -> option jstring;  (* [$(sel).attr("content")] *)
  text : jstring -> jstring;                (* [$(sel).text()] *)
  firstText : jstring -> jstring            (* [$(sel).first().text()] *)
}.

Record World : Type := {
  (** the network, through [fetch] *)
  fetch : jstring -> FetchOutcome;
  (** the network, through the configured [axiosInstance.get]: the
      response data, or a rejection (no answer, timeout, status outside
      2xx) *)
  axiosGet : value -> option jstring;
  (** [parseXML] of xml2js *)
  parseXML : jstring -> result value;
  (** [cheerio.load] *)
  cheerioLoad : jstring -> Doc;
  (** [new URL(u).hostname] *)
  hostname : jstring -> result jstring;
  (** [new Date(s).getTime()] on a string, [None] for NaN *)
  getTime : jstring -> option Z;
  (** [a.localeCompare(b)] *)
  localeCompare : jstring -> jstring -> Z;
  (** [Buffer.from(u).toString("base64")] *)
  base64 : value -> result jstring;
  (** [Number(s)] on a non-empty string *)
  stringToNumber : jstring -> jsnum;
  (** what [Array.prototype.sort] leaves to the engine *)
  engineSort : list (list (result Z)) -> result (list nat)
}.

(** What a handler answers: the JSON body with status 200, or the error
    body with status 500 of its outermost [catch]. *)
Record Body (I : Type) : Type := {
  items : list I;
  hasMore : bool;
  total : nat
}.

Inductive HttpResponse (I : Type) : Type :=
| Json200 (body : Body I)
| Json500 (error : jstring).
Arguments Json500 {I}.

(** The query string, as [searchParams.get] reads it. *)
Record Request : Type := {
  offsetParam : option jstring;
  limitParam : option jstring
}.

(* ================================================================== *)
(** * News: the RSS route                                              *)
(* ================================================================== *)

Module News.

Record NewsItem : Type := {
  title : value;
  link : value;
  description : value;
  pubDate : value;
  guid : value;
  image : value;
  domain : jstring;
  needsImage : option bool     (* [needsImage?: boolean] *)
}.

(** The handler's requests matter to what is claimed about the enrichment
    pass, so a computation carries the URLs it asked for, in the order it
    asked. *)
Definition Traced (A : Type) : Type := (A * list jstring)%type.

Definition ret {A} (a : A) : Traced A := (a, []).

Definition bind {A B} (m : Traced A) (f : A -> Traced B) : Traced B :=
  let (a, t1) := m in
  let (b, t2) := f a in
  (b, t1 ++ t2).

(** [await Promise.all(l.map(f))] *)
Fixpoint mapT {A B} (f : A -> Traced B) (l : list A) : Traced (list B) :=
  match l with
  | [] => ret []
  | x :: l' => bind (f x) (fun y => bind (mapT f l') (fun ys => ret (y :: ys)))
  end.

Definition httpFetch (W : World) (u : jstring) : Traced FetchOutcome :=
  (fetch W u, [u]).

(** The pattern of [fetchOGImageFromPage],

      [<meta] [[^>]+] [property=] quote [og:image] quote [[^>]+]
      [content=] quote [([^quote]+)] quote,    flag [i],

    a quote being a double or a single one.  The engine backtracks: a
    greedy [+] first tries to take one more character and, when what
    follows then fails, goes on from where it is. *)

(** Canonicalize, for the flag [i]: the pattern's letters are ASCII, and
    only an ASCII letter folds to one. *)
Definition upper (c : N) : N :=
  if ((97 <=? c) && (c <=? 122))%N then (c - 32)%N else c.

(** A literal at the head of [s], case folded: what is left of [s]. *)
Fixpoint literal (p s : jstring) : option jstring :=
  match p, s with
  | [], _ => Some s
  | c :: p', d :: s' => if (upper c =? upper d)%N then literal p' s' else None
  | _ :: _, [] => None
  end.

Definition isQuote (c : N) : bool := ((c =? 34) || (c =? 39))%N.

Definition quote {R} (k : jstring -> option R) (s : jstring) : option R :=
  match s with
  | c :: s' => if isQuote c then k s' else None
  | [] => None
  end.

(** [[^>]+] followed by [k] *)
Fixpoint notGtPlus {R} (k : jstring -> option R) (s : jstring) : option R :=
  match s with
  | c :: s' =>
    if (c =? 62)%N then None
    else match notGtPlus k s' with
         | Some r => Some r
         | None => k s'
         end
  | [] => None
  end.

(** [([^quote]+)] quote: the two classes are disjoint, so the group is the
    whole run up to the next quote. *)
Definition group (s : jstring) : option jstring :=
  match takeWhile (fun c => negb (isQuote c)) s,
        dropWhile (fun c => negb (isQuote c)) s with
  | c :: g, _ :: _ => Some (c :: g)
  | _, _ => None
  end.

Definition andThen {R} (m : option jstring) (k : jstring -> option R) : option R :=
  match m with
  | Some s => k s
  | None => None
  end.

(** The pattern at the head of [s]: its group 1. *)
Definition matchOgImageAt (s : jstring) : option jstring :=
  andThen (literal (lit "<meta") s)
    (notGtPlus (fun s =>
       andThen (literal (lit "property=") s)
         (quote (fun s =>
            andThen (literal (lit "og:image") s)
              (quote (notGtPlus (fun s =>
                 andThen (literal (lit "content=") s) (quote group)))))))).

(** [html.match(re)?.[1]]: group 1 of the leftmost match, [None] when
    there is no match. *)
Fixpoint matchOgImage (html : jstring) : option jstring :=
  match matchOgImageAt html with
  | Some g => Some g
  | None =>
    match html with
    | [] => None
    | _ :: html' => matchOgImage html'
    end
  end.

(** [fetch(link)] takes the address as a string: a link that has no
    string form is a rejection before anything is asked. *)
Definition fetchOGImageFromPage (W : World) (link : value) : Traced value :=
  match toStr link with
  | Throw => ret VNull
  | Ok url =>
    bind (httpFetch W url) (fun response =>
    ret match response with
        | Rejected => VNull
        | Response false _ => VNull
        | Response true html =>
          match News.matchOgImage html with
          | Some g => orElse (VStr g) VNull
          | None => VNull
          end
        end)
  end.

(** [item.k?.[0]] *)
Definition field (k : string) (item : value) : result value :=
  (v <- getProp (lit k) item ;; Ok (optFirst v))%result.

(** [x?.trim()] *)
Definition callTrim (x : value) : result value :=
  match x with
  | VUndef | VNull => Ok VUndef
  | VStr s => Ok (VStr (trim s))
  | VBool _ | VArr _ | VObj _ => Throw
  end.

(** The callback of [items.map] in [fetchRSSFeed]. *)
Definition toNewsItem (domain : jstring) (item : value) : result NewsItem :=
  (title <- field "title" item ;;
   link <- field "link" item ;;
   pubDate <- field "pubDate" item ;;
   guid <- field "guid" item ;;
   encoded <- field "content:encoded" item ;;
   contentEncoded <- callTrim encoded ;;
   descr <- field "description" item ;;
   media <- field "media:content" item ;;
   let title := orElse title (VStr []) in
   let link := orElse link (VStr []) in
   let image := orElse (optProp (lit "url") (optProp (lit "$") media)) (VStr []) in
   Ok {| title := title;
         link := link;
         description := orElse contentEncoded (orElse descr (VStr []));
         pubDate := orElse pubDate (VStr []);
         guid := orElse (optProp (lit "_") guid) (orElse guid (VStr []));
         image := image;
         domain := domain;
         needsImage := Some (negb (truthy image) && truthy link) |})%result.

(** [newsItems.filter((item) => item.title && item.link)] *)
Definition hasTitleAndLink (item : NewsItem) : bool :=
  truthy (title item) && truthy (link item).

Definition fetchRSSFeed (W : World) (url : jstring) : Traced (list NewsItem) :=
  bind (httpFetch W url) (fun response =>
  ret match response with
      | Rejected => []
      | Response false _ => []
      | Response true xmlText =>
        tryCatch
          (result <- parseXML W xmlText ;;
           let items :=
             orElse (optProp (lit "item")
                       (optFirst (optProp (lit "channel")
                                    (optProp (lit "rss") result))))
                    (VArr []) in
           domain <- hostname W url ;;
           entries <- asArray items ;;
           newsItems <- rmap (toNewsItem domain) entries ;;
           Ok (filter hasTitleAndLink newsItems))%result
          []
      end).

(** [!item.needsImage || !item.link] *)
Definition skipsEnrichment (item : NewsItem) : bool :=
  negb (match needsImage item with Some b => b | None => false end)
  || negb (truthy (link item)).

Definition enrichItemsWithImages (W : World) (items : list NewsItem)
  : Traced (list NewsItem) :=
  mapT (fun item =>
          if skipsEnrichment item then ret item
          else
            bind (fetchOGImageFromPage W (link item)) (fun image =>
            ret {| title := title item;
                   link := link item;
                   description := description item;
                   pubDate := pubDate item;
                   guid := guid item;
                   image := orElse image (VStr []);
                   domain := domain item;
                   needsImage := Some false |}))
       items.

(** The comparator of the handler's [sort]. *)
Definition byDateDesc (W : World) (a b : NewsItem) : result (option Z) :=
  (dateA <- timeOf (getTime W) (pubDate a) ;;
   dateB <- timeOf (getTime W) (pubDate b) ;;
   Ok match dateA, dateB with
      | None, None => Some 0
      | None, Some _ => Some 1
      | Some _, None => Some (-1)
      | Some ta, Some tb => Some (tb - ta)
      end)%result.

(** [allItems]: every feed, flattened, the undated items dropped, sorted.
    The sort stands in the handler's outer [try] only. *)
Definition allItems (W : World) (allFeeds : list (list NewsItem))
  : result (list NewsItem) :=
  sort (engineSort W) (byDateDesc W)
       (filter (fun item => truthy (pubDate item)) (concat allFeeds)).

Definition offsetOf (request : Request) : jsnum :=
  parseInt (paramOr (offsetParam request) (lit "0")).

Definition limitOf (request : Request) : jsnum :=
  parseInt (paramOr (limitParam request) (lit "30")).

(** [urlsData] is the imported [@/data/url.json]; the import, or reading
    its [urls], can fail, which is what the outer [catch] answers. *)
Definition GET (W : World) (urlsData : result (list jstring)) (request : Request)
  : Traced (HttpResponse NewsItem) :=
  let offset := offsetOf request in
  let limit := limitOf request in
  match urlsData with
  | Throw => ret (Json500 (lit "Failed to fetch RSS feeds"))
  | Ok urls =>
    bind (mapT (fetchRSSFeed W) urls) (fun allFeeds =>
    match allItems W allFeeds with
    | Throw => ret (Json500 (lit "Failed to fetch RSS feeds"))
    | Ok allItems =>
      let paginatedItems := slice allItems offset (add offset limit) in
      bind (enrichItemsWithImages W paginatedItems) (fun enrichedItems =>
      ret (Json200 {| items := enrichedItems;
                      hasMore := ltb (add offset limit)
                                     (ofZ (Z.of_nat (length allItems)));
                      total := length allItems |}))
    end)
  end.

(** The members [JSON.stringify] writes for an item: those it has, a
    member holding [undefined] being left out. *)
Definition toJSON (item : NewsItem) : list (jstring * value) :=
  filter (fun kv => match snd kv with VUndef => false | _ => true end)
    [ (lit "title", title item);
      (lit "link", link item);
      (lit "description", description item);
      (lit "pubDate", pubDate item);
      (lit "guid", guid item);
      (lit "image", image item);
      (lit "domain", VStr (domain item));
      (lit "needsImage",
       match needsImage item with Some b => VBool b | None => VUndef end) ].

End News.

(* ================================================================== *)
(** * Product: [app/api/product/route.ts]                              *)
(* ================================================================== *)

Module Product.

Record Product : Type := {
  id : jstring;
  title : jstring;
  description : jstring;
  image : jstring;
  price : jstring;
  url : value;
  domain : jstring
}.

Record ProductSource : Type := {
  sitemap : jstring;
  xpath : jstring;
  sourceDomain : jstring       (* [domain] *)
}.

(** The callback of [result.urlset.url.forEach]: what it pushes. *)
Definition pushedLoc (urlEntry : value) : result (list value) :=
  (loc <- getProp (lit "loc") urlEntry ;;
   if truthy loc
   then (loc0 <- getFirst loc ;; Ok (if truthy loc0 then [loc0] else []))
   else Ok [])%result.

Definition fetchSitemapFast (W : World) (sitemapUrl : jstring) : list value :=
  match axiosGet W (VStr sitemapUrl) with
  | None => []
  | Some data =>
    tryCatch
      (result <- parseXML W data ;;
       let entries := optProp (lit "url") (optProp (lit "urlset") result) in
       urls <- (if truthy entries
                then (l <- asArray entries ;;
                      pushed <- rmap pushedLoc l ;;
                      Ok (concat pushed))
                else Ok []) ;;
       Ok (firstn 50 urls))%result
      []
  end.

(** [a || b] where [a] is a string or [undefined] and [b] a string *)
Definition orStr (a : option jstring) (b : jstring) : jstring :=
  match a with
  | Some (c :: s) => c :: s
  | _ => b
  end.

Definition priceNotAvailable : jstring := lit "Price not available".

Definition taka : jstring := lit "৳".
Definition Tk : jstring := lit "Tk".

Definition pickabooSelectors : list jstring :=
  [ lit ".price-current";
    lit ".product-price";
    lit "[class*=" ++ dq ++ lit "price" ++ dq ++ lit "]";
    lit "h2:contains(" ++ dq ++ taka ++ dq ++ lit ")";
    lit "span:contains(" ++ dq ++ taka ++ dq ++ lit ")" ].

Definition darazSelectors : list jstring :=
  [ lit "[data-testid=" ++ dq ++ lit "price-current" ++ dq ++ lit "]";
    lit ".pdp-price";
    lit "#module_product_price_1 span";
    lit "[class*=" ++ dq ++ lit "price" ++ dq ++ lit "]";
    lit "span:contains(" ++ dq ++ taka ++ dq ++ lit ")" ].

(** One alternative of the price pattern at the head of [s]: the marker,
    [\s*], [[\d,]+].  The two classes are disjoint and nothing follows, so
    the greedy reading is the only one. *)
Definition isPriceChar (c : N) : bool := isDigit c || (c =? 44)%N.

Definition matchAt (marker s : jstring) : option jstring :=
  if startsWith marker s then
    let r := skipn (length marker) s in
    match takeWhile isPriceChar (dropWhile isWhiteSpace r) with
    | [] => None
    | ds => Some (marker ++ takeWhile isWhiteSpace r ++ ds)
    end
  else None.

(** [priceText.match(re)?.[0]] for the price pattern [re]: the leftmost
    match, the taka alternative first. *)
Fixpoint matchPrice (s : jstring) : option jstring :=
  match matchAt taka s with
  | Some m => Some m
  | None =>
    match matchAt Tk s with
    | Some m => Some m
    | None =>
      match s with
      | [] => None
      | _ :: s' => matchPrice s'
      end
    end
  end.

(** The condition of the [if] in the selector loop. *)
Definition hasMarker (priceText : jstring) : bool :=
  match priceText with [] => false | _ => true end
  && (includes taka priceText || includes Tk priceText).

(** The [for (const selector of priceSelectors)] loop, [price] being the
    variable it assigns. *)
Fixpoint priceLoop (d : Doc) (priceSelectors : list jstring) (price : jstring)
  : jstring :=
  match priceSelectors with
  | [] => price
  | selector :: rest =>
    let priceText := trim (firstText d selector) in
    if hasMarker priceText
    then orStr (matchPrice priceText) priceText
    else priceLoop d rest price
  end.

Definition extractPrice (d : Doc) (domain : jstring) : jstring :=
  let price := priceNotAvailable in
  if includes (lit "pickaboo") domain then priceLoop d pickabooSelectors price
  else if includes (lit "daraz") domain then priceLoop d darazSelectors price
  else price.

Definition metaProperty (name : string) : jstring :=
  lit "meta[property=" ++ dq ++ lit name ++ dq ++ lit "]".

Definition metaName (name : string) : jstring :=
  lit "meta[name=" ++ dq ++ lit name ++ dq ++ lit "]".

(** [null] is [None].  The concurrency limiter only delays the call. *)
Definition scrapeProductDataFast (W : World) (url : value) (domain : jstring)
  : option Product :=
  match axiosGet W url with
  | None => None
  | Some data =>
    let d := cheerioLoad W data in
    let ogTitle :=
      orStr (attrContent d (metaProperty "og:title"))
        (orStr (attrContent d (metaName "og:title"))
           (orStr (Some (text d (lit "title"))) [])) in
    let ogDescription :=
      orStr (attrContent d (metaProperty "og:description"))
        (orStr (attrContent d (metaName "og:description"))
           (orStr (attrContent d (metaName "description")) [])) in
    let ogImage :=
      orStr (attrContent d (metaProperty "og:image"))
        (orStr (attrContent d (metaName "og:image")) []) in
    let price := extractPrice d domain in
    match trim ogTitle with
    | [] => None
    | _ :: _ =>
      match base64 W url with
      | Throw => None
      | Ok b64 =>
        Some {| id := firstn 16 b64;
                title := substring0 100 ogTitle;
                description := substring0 200 ogDescription;
                image := if startsWith (lit "http") ogImage then ogImage
                         else match ogImage with
                              | [] => []
                              | _ :: _ => lit "https://" ++ domain ++ ogImage
                              end;
                price := price;
                url := url;
                domain := domain |}
      end
    end
  end.

(** [products.filter((p) => p !== null)] *)
Fixpoint nonNull {A} (l : list (option A)) : list A :=
  match l with
  | [] => []
  | Some a :: l' => a :: nonNull l'
  | None :: l' => nonNull l'
  end.

(** The callback of [sources.map]: one sitemap and its first 15 pages. *)
Definition productsOf (W : World) (source : ProductSource) : list Product :=
  let urls := fetchSitemapFast W (sitemap source) in
  nonNull (map (fun url => scrapeProductDataFast W url (sourceDomain source))
               (firstn 15 urls)).

Definition byTitle (W : World) (a b : Product) : option Z :=
  Some (localeCompare W (title a) (title b)).

(** The titles are strings, so the comparator always returns. *)
Definition allProducts (W : World) (sources : list ProductSource) : list Product :=
  sortTotal (engineSort W) (byTitle W) (concat (map (productsOf W) sources)).

Definition offsetOf (request : Request) : jsnum :=
  parseInt (paramOr (offsetParam request) (lit "0")).

Definition limitOf (request : Request) : jsnum :=
  parseInt (paramOr (limitParam request) (lit "20")).

(** [productData] is the imported [data/product.json]. *)
Definition GET (W : World) (productData : result (list ProductSource))
           (request : Request) : HttpResponse Product :=
  let offset := offsetOf request in
  let limit := limitOf request in
  match productData with
  | Throw => Json500 (lit "Failed to fetch products")
  | Ok sources =>
    let allProducts := allProducts W sources in
    let paginatedProducts := slice allProducts offset (add offset limit) in
    Json200 {| items := paginatedProducts;     (* the member is [products] *)
               hasMore := ltb (add offset limit)
                              (ofZ (Z.of_nat (length allProducts)));
               total := length allProducts |}
  end.

End Product.

(* ================================================================== *)
(** * Videos: [app/api/videos/route.ts]                                *)
(* ================================================================== *)

Module Videos.

Record VideoItem : Type := {
  id : value;
  videoId : value;
  title : value;
  thumbnail : jstring;
  channelName : value;
  published : value;
  views : value
}.

(** [v[k][0]] *)
Definition at0 (k : string) (v : value) : result value :=
  (x <- getProp (lit k) v ;; getFirst x)%result.

(** [stats?.$.views]: the chain stops at a nullish [stats] only. *)
Definition viewsOf (stats : value) : result value :=
  if nullish stats then Ok VUndef
  else (attrs <- getProp (lit "$") stats ;; getProp (lit "views") attrs)%result.

(** The callback of [(result.feed.entry || []).map]. *)
Definition toVideoItem (entry : value) : result VideoItem :=
  (id <- at0 "id" entry ;;
   videoId <- at0 "yt:videoId" entry ;;
   title <- at0 "title" entry ;;
   inThumbnail <- toStr videoId ;;
   author <- at0 "author" entry ;;
   channelName <- at0 "name" author ;;
   published <- at0 "published" entry ;;
   group <- at0 "media:group" entry ;;
   community <- at0 "media:community" group ;;
   statistics <- at0 "media:statistics" community ;;
   views <- viewsOf statistics ;;
   Ok {| id := id;
         videoId := videoId;
         title := title;
         thumbnail := lit "https://i.ytimg.com/vi/" ++ inThumbnail
                        ++ lit "/mqdefault.jpg";
         channelName := channelName;
         published := published;
         views := orElse views (VStr (lit "0")) |})%result.

Definition feedUrl (channelId : jstring) : jstring :=
  lit "https://www.youtube.com/feeds/videos.xml?channel_id=" ++ channelId.

(** The callback of [channelIds.map]. *)
Definition videosOf (W : World) (channelId : jstring) : list VideoItem :=
  match fetch W (feedUrl channelId) with
  | Rejected => []
  | Response false _ => []
  | Response true xmlText =>
    tryCatch
      (result <- parseXML W xmlText ;;
       feed <- getProp (lit "feed") result ;;
       entry <- getProp (lit "entry") feed ;;
       entries <- asArray (orElse entry (VArr [])) ;;
       rmap toVideoItem entries)%result
      []
  end.

(** The comparator of the handler's [sort]: a difference of two time
    values, NaN as soon as one of them is. *)
Definition byPublishedDesc (W : World) (a b : VideoItem) : result (option Z) :=
  (tb <- timeOf (getTime W) (published b) ;;
   ta <- timeOf (getTime W) (published a) ;;
   Ok match tb, ta with
      | Some tb, Some ta => Some (tb - ta)
      | _, _ => None
      end)%result.

(** The sort stands in the handler's outer [try] only. *)
Definition sortedVideos (W : World) (channelIds : list jstring)
  : result (list VideoItem) :=
  sort (engineSort W) (byPublishedDesc W) (concat (map (videosOf W) channelIds)).

(** [Number(params.get(name) || dflt)], the default being a number. *)
Definition numberOr (W : World) (p : option jstring) (dflt : Z) : jsnum :=
  match p with
  | Some (c :: s) => stringToNumber W (c :: s)
  | _ => ofZ dflt
  end.

Definition offsetOf (W : World) (request : Request) : jsnum :=
  numberOr W (offsetParam request) 0.

Definition limitOf (W : World) (request : Request) : jsnum :=
  numberOr W (limitParam request) 30.

(** [videos] is the imported [@/data/videos.json]. *)
Definition GET (W : World) (videos : result (list jstring)) (request : Request)
  : HttpResponse VideoItem :=
  let offset := offsetOf W request in
  let limit := limitOf W request in
  match videos with
  | Throw => Json500 (lit "Failed to fetch videos")
  | Ok channelIds =>
    match sortedVideos W channelIds with
    | Throw => Json500 (lit "Failed to fetch videos")
    | Ok sortedVideos =>
      let paginatedVideos := slice sortedVideos offset (add offset limit) in
      Json200 {| items := paginatedVideos;
                 hasMore := ltb (add offset limit)
                                (ofZ (Z.of_nat (length sortedVideos)));
                 total := length sortedVideos |}
    end
  end.

End Videos.

(* ================================================================== *)
(** * Sample worlds                                                    *)
(* ================================================================== *)

(** Small worlds on which the handlers are run below.  Each oracle is a
    finite table: the XML parser is tabulated at the documents the sample
    servers send, the date parser at the date strings those documents
    hold. *)

Module Sample.

Definition named (s : string) (u : jstring) : bool := str_eqb u (lit s).

(** A document: its text, and what the XML parser makes of it. *)
Record Document : Type := {
  source : string;
  parsed : value
}.

Definition parses (docs : list Document) (x : jstring) : result value :=
  match find (fun d => str_eqb x (lit (source d))) docs with
  | Some d => Ok (parsed d)
  | None => Throw
  end.

(** [<name>body</name>], and what the parser gives for an element that
    holds text only: the member [name: [body]]. *)
Definition tag (name body : string) : string :=
  ("<" ++ name ++ ">" ++ body ++ "</" ++ name ++ ">")%string.

Definition child (name body : string) : jstring * value :=
  (lit name, VArr [VStr (lit body)]).

(** An empty element with one attribute, [<name attr='v'/>], and its
    member [name: [{$: {attr: v}}]]. *)
Definition tagWith (name attr v : string) : string :=
  ("<" ++ name ++ " " ++ attr ++ "='" ++ v ++ "'/>")%string.

Definition childWith (name attr v : string) : jstring * value :=
  (lit name, VArr [VObj [(lit "$", VObj [(lit attr, VStr (lit v))])]]).

(** The date parser, at the strings of the sample documents: midnight
    UTC of the first five days of 2024, in the two formats the feeds use.
    Every other string of the samples is one it rejects. *)
Definition dates : list (string * Z) :=
  [ ("Mon, 01 Jan 2024 00:00:00 GMT", 1704067200000);
    ("Tue, 02 Jan 2024 00:00:00 GMT", 1704153600000);
    ("Wed, 03 Jan 2024 00:00:00 GMT", 1704240000000);
    ("Thu, 04 Jan 2024 00:00:00 GMT", 1704326400000);
    ("Fri, 05 Jan 2024 00:00:00 GMT", 1704412800000);
    ("2024-01-01T00:00:00+00:00", 1704067200000);
    ("2024-01-02T00:00:00+00:00", 1704153600000) ]%string.

Definition clock (s : jstring) : option Z :=
  option_map snd (find (fun d => named (fst d) s) dates).

(** [Number(s)], at the strings of decimal digits. *)
Definition digits (s : jstring) : jsnum :=
  if forallb isDigit s then parseInt s else NaN.

(** An engine that leaves an array it need not order as it is. *)
Definition asItIs (calls : list (list (result Z))) : result (list nat) :=
  Ok (seq 0 (length calls)).

Definition noDoc : Doc :=
  {| attrContent := fun _ => None; text := fun _ => []; firstText := fun _ => [] |}.

(** A world where nothing answers. *)
Definition allDown : World :=
  {| fetch := fun _ => Rejected;
     axiosGet := fun _ => None;
     parseXML := fun _ => Throw;
     cheerioLoad := fun _ => noDoc;
     hostname := fun _ => Throw;
     getTime := clock;
     localeCompare := fun _ _ => 0;
     base64 := fun _ => Throw;
     stringToNumber := digits;
     engineSort := asItIs |}.

Definition noParams : Request := {| offsetParam := None; limitParam := None |}.

Definition params (offset limit : string) : Request :=
  {| offsetParam := Some (lit offset); limitParam := Some (lit limit) |}.

(** ** News: one feed of three items and one feed that is down

    The first item has no image, the second has one, the third has no
    title.  The page of the first item carries an Open Graph image; the
    other pages do not answer. *)

Definition newsFeed : Document :=
  {| source :=
       tag "rss" (tag "channel"
         (tag "item"
            (tag "title" "First"
             ++ tag "link" "https://news.example/1"
             ++ tag "pubDate" "Tue, 02 Jan 2024 00:00:00 GMT")
          ++ tag "item"
               (tag "title" "Second"
                ++ tag "link" "https://news.example/2"
                ++ tag "pubDate" "Mon, 01 Jan 2024 00:00:00 GMT"
                ++ tagWith "media:content" "url" "https://news.example/2.jpg")
          ++ tag "item"
               (tag "title" ""
                ++ tag "link" "https://news.example/3"
                ++ tag "pubDate" "Mon, 01 Jan 2024 00:00:00 GMT")))%string;
     parsed :=
       VObj [(lit "rss", VObj [(lit "channel", VArr [VObj [(lit "item", VArr [
         VObj [ child "title" "First";
                child "link" "https://news.example/1";
                child "pubDate" "Tue, 02 Jan 2024 00:00:00 GMT" ];
         VObj [ child "title" "Second";
                child "link" "https://news.example/2";
                child "pubDate" "Mon, 01 Jan 2024 00:00:00 GMT";
                childWith "media:content" "url" "https://news.example/2.jpg" ];
         VObj [ child "title" "";
                child "link" "https://news.example/3";
                child "pubDate" "Mon, 01 Jan 2024 00:00:00 GMT" ] ])]])])] |}.

Definition pageHtml : jstring :=
  lit "<html><head><meta property='og:image' content='https://news.example/1.jpg'/></head></html>".

Definition newsWorld : World :=
  {| fetch := fun u =>
       if named "https://news.example/rss" u
       then Response true (lit (source newsFeed))
       else if named "https://news.example/1" u then Response true pageHtml
       else Rejected;
     axiosGet := fun _ => None;
     parseXML := parses [newsFeed];
     cheerioLoad := fun _ => noDoc;
     hostname := fun u =>
       if named "https://news.example/rss" u then Ok (lit "news.example")
       else if named "https://down.example/rss" u then Ok (lit "down.example")
       else Throw;
     getTime := clock;
     localeCompare := fun _ _ => 0;
     base64 := fun _ => Throw;
     stringToNumber := digits;
     engineSort := asItIs |}.

Definition newsUrls : list jstring :=
  [lit "https://news.example/rss"; lit "https://down.example/rss"].

(** ** News: two feeds, of three and of two items, all dated, no page
    answering *)

Definition item (title link pubDate : string) : Document :=
  {| source := tag "item" (tag "title" title ++ tag "link" link
                           ++ tag "pubDate" pubDate)%string;
     parsed := VObj [child "title" title; child "link" link;
                     child "pubDate" pubDate] |}.

Definition rssOf (entries : list Document) : Document :=
  {| source := tag "rss" (tag "channel" (String.concat "" (map source entries)));
     parsed := VObj [(lit "rss", VObj [(lit "channel",
                 VArr [VObj [(lit "item", VArr (map parsed entries))]])])] |}.

Definition feedA : Document :=
  rssOf [ item "A5" "https://a.example/5" "Fri, 05 Jan 2024 00:00:00 GMT";
          item "A3" "https://a.example/3" "Wed, 03 Jan 2024 00:00:00 GMT";
          item "A1" "https://a.example/1" "Mon, 01 Jan 2024 00:00:00 GMT" ].

Definition feedB : Document :=
  rssOf [ item "B4" "https://b.example/4" "Thu, 04 Jan 2024 00:00:00 GMT";
          item "B2" "https://b.example/2" "Tue, 02 Jan 2024 00:00:00 GMT" ].

Definition twoFeeds : World :=
  {| fetch := fun u =>
       if named "https://a.example/rss" u then Response true (lit (source feedA))
       else if named "https://b.example/rss" u
            then Response true (lit (source feedB))
       else Rejected;
     axiosGet := fun _ => None;
     parseXML := parses [feedA; feedB];
     cheerioLoad := fun _ => noDoc;
     hostname := fun u =>
       if named "https://a.example/rss" u then Ok (lit "a.example")
       else if named "https://b.example/rss" u then Ok (lit "b.example")
       else Throw;
     getTime := clock;
     localeCompare := fun _ _ => 0;
     base64 := fun _ => Throw;
     stringToNumber := digits;
     engineSort := asItIs |}.

Definition twoUrls : list jstring :=
  [lit "https://a.example/rss"; lit "https://b.example/rss"].

(** ** Videos: one channel *)

(** A [media:group] with statistics, and one whose [media:community]
    holds a rating and no statistics. *)
Definition statistics (views : string) : Document :=
  {| source := tag "media:group" (tag "media:community"
                 (tagWith "media:statistics" "views" views));
     parsed := VArr [VObj [(lit "media:community",
                 VArr [VObj [childWith "media:statistics" "views" views]])]] |}.

Definition ratingOnly : Document :=
  {| source := tag "media:group" (tag "media:community"
                 (tagWith "media:starRating" "count" "3"));
     parsed := VArr [VObj [(lit "media:community",
                 VArr [VObj [childWith "media:starRating" "count" "3"]])]] |}.

Definition entry (videoId title published : string) (group : Document)
  : Document :=
  {| source := tag "entry"
                 (tag "id" videoId
                  ++ tag "yt:videoId" videoId
                  ++ tag "title" title
                  ++ tag "author" (tag "name" "Channel")
                  ++ tag "published" published
                  ++ source group)%string;
     parsed := VObj [ child "id" videoId;
                      child "yt:videoId" videoId;
                      child "title" title;
                      (lit "author", VArr [VObj [child "name" "Channel"]]);
                      child "published" published;
                      (lit "media:group", parsed group) ] |}.

Definition feedOf (entries : list Document) : Document :=
  {| source := tag "feed" (String.concat "" (map source entries));
     parsed := VObj [(lit "feed",
                      VObj [(lit "entry", VArr (map parsed entries))])] |}.

Definition videoWorld (feed : Document) : World :=
  {| fetch := fun u =>
       if str_eqb u (Videos.feedUrl (lit "UC1"))
       then Response true (lit (source feed))
       else Rejected;
     axiosGet := fun _ => None;
     parseXML := parses [feed];
     cheerioLoad := fun _ => noDoc;
     hostname := fun _ => Throw;
     getTime := clock;
     localeCompare := fun _ _ => 0;
     base64 := fun _ => Throw;
     stringToNumber := digits;
     engineSort := asItIs |}.

(** An entry whose date does not parse, before one whose date does. *)
Definition undatedFirst : Document :=
  feedOf [ entry "v1" "Undated" "not a date" (statistics "5");
           entry "v2" "Dated" "2024-01-01T00:00:00+00:00" (statistics "7") ].

(** An entry with an empty title. *)
Definition untitled : Document :=
  feedOf [ entry "v1" "" "2024-01-01T00:00:00+00:00" (statistics "5") ].

(** An entry without statistics, after one that has them. *)
Definition noStatistics : Document :=
  feedOf [ entry "v1" "Counted" "2024-01-02T00:00:00+00:00" (statistics "5");
           entry "v2" "Uncounted" "2024-01-01T00:00:00+00:00" ratingOnly ].

(** ** Product: one sitemap of one page *)

Definition sitemapDoc : Document :=
  {| source := tag "urlset" (tag "url" (tag "loc" "https://shop.example/p1"));
     parsed := VObj [(lit "urlset", VObj [(lit "url", VArr [
                 VObj [child "loc" "https://shop.example/p1"] ])])] |}.

(** A product page whose first price element holds the marker without an
    amount, and whose second and third hold an amount. *)
Definition productHtml : jstring :=
  lit "<html><head><meta property='og:title' content='Phone'/></head><body><span class='price-current'> Tk TBA </span><span class='product-price'>৳ 1,200</span><span class='pdp-price'>৳ 1,200</span></body></html>".

(** What the query engine answers on that page. *)
Definition productDoc : Doc :=
  {| attrContent := fun sel =>
       if str_eqb sel (Product.metaProperty "og:title") then Some (lit "Phone")
       else None;
     text := fun _ => [];
     firstText := fun sel =>
       if named ".price-current" sel then lit " Tk TBA "
       else if named ".product-price" sel then lit "৳ 1,200"
       else if named ".pdp-price" sel then lit "৳ 1,200"
       else if str_eqb sel (lit "[class*=" ++ dq ++ lit "price" ++ dq ++ lit "]")
            then lit " Tk TBA "
       else if str_eqb sel (lit "span:contains(" ++ dq ++ lit "৳" ++ dq ++ lit ")")
            then lit "৳ 1,200"
       else [] |}.

(** A page whose only price element holds the marker and no amount,
    [<span class='price-current'>Tk TBA</span>], as the query engine
    answers on it. *)
Definition noAmountDoc : Doc :=
  {| attrContent := fun sel =>
       if str_eqb sel (Product.metaProperty "og:title") then Some (lit "Phone")
       else None;
     text := fun _ => [];
     firstText := fun sel =>
       if named ".price-current" sel then lit "Tk TBA"
       else if str_eqb sel (lit "[class*=" ++ dq ++ lit "price" ++ dq ++ lit "]")
            then lit "Tk TBA"
       else [] |}.

Definition shopWorld : World :=
  {| fetch := fun _ => Rejected;
     axiosGet := fun u =>
       match u with
       | VStr u =>
         if named "https://shop.example/sitemap.xml" u
         then Some (lit (source sitemapDoc))
         else if named "https://shop.example/p1" u then Some productHtml
         else None
       | _ => None
       end;
     parseXML := parses [sitemapDoc];
     cheerioLoad := fun h => if str_eqb h productHtml then productDoc else noDoc;
     hostname := fun _ => Throw;
     getTime := clock;
     localeCompare := fun _ _ => 0;
     base64 := fun _ => Ok (lit "aHR0cHM6Ly9zaG9wLmV4YW1wbGUvcDE=");
     stringToNumber := digits;
     engineSort := asItIs |}.

Definition shop (domain : string) : Product.ProductSource :=
  {| Product.sitemap := lit "https://shop.example/sitemap.xml";
     Product.xpath := [];
     Product.sourceDomain := lit domain |}.

End Sample.

(* ================================================================== *)
(** * The vocabulary of the statements                                 *)
(* ================================================================== *)

Module Terms.

(** The items of an answer; the error body has none. *)
Definition itemsOf {I} (r : HttpResponse I) : list I :=
  match r with
  | Json200 body => items body
  | Json500 _ => []
  end.

(** ** News *)

(** What each feed gives, in the order of the configuration. *)
Definition newsFeeds (W : World) (urls : list jstring) : list (list News.NewsItem) :=
  map (fun u => fst (News.fetchRSSFeed W u)) urls.

(** The aggregate: merged, filtered, sorted, before pagination; the
    sort may throw. *)
Definition newsAggregate (W : World) (urls : list jstring)
  : result (list News.NewsItem) :=
  News.allItems W (newsFeeds W urls).

(** The page before the enrichment pass; there is none when the sort
    throws. *)
Definition newsPage (W : World) (urls : list jstring) (request : Request)
  : list News.NewsItem :=
  match newsAggregate W urls with
  | Ok aggregate =>
    slice aggregate (News.offsetOf request)
          (add (News.offsetOf request) (News.limitOf request))
  | Throw => []
  end.

(** The feed fails: no answer, a status that is not a success, or a body
    the XML parser rejects. *)
Definition feedFails (W : World) (url : jstring) : Prop :=
  match fetch W url with
  | Rejected => True
  | Response false _ => True
  | Response true xmlText => parseXML W xmlText = Throw
  end.

(** What asking for the page of an item gives; a link that has no string
    form cannot be asked for. *)
Definition pageOf (W : World) (link : value) : FetchOutcome :=
  match toStr link with
  | Ok url => fetch W url
  | Throw => Rejected
  end.


(** The page of an item gives no image: no answer, a status that is not a
    success, or no Open Graph tag in it. *)
Definition noOgImage (W : World) (link : value) : Prop :=
  match pageOf W link with
  | Rejected => True
  | Response false _ => True
  | Response true html => News.matchOgImage html = None
  end.

(** Two items that agree on everything but [image] and [needsImage]. *)
Definition sameButImage (a b : News.NewsItem) : Prop :=
  News.title b = News.title a /\ News.link b = News.link a
  /\ News.description b = News.description a
  /\ News.pubDate b = News.pubDate a /\ News.guid b = News.guid a
  /\ News.domain b = News.domain a.

(** The item is flagged [needsImage]. *)
Definition flagged (item : News.NewsItem) : bool :=
  match News.needsImage item with
  | Some b => b
  | None => false
  end.

(** What the enrichment pass makes of a page item. *)
Definition enrichesTo (W : World) (a b : News.NewsItem) : Prop :=
  if negb (flagged a) then b = a
  else sameButImage a b
       /\ News.needsImage b = Some false
       /\ (noOgImage W (News.link a) -> News.image b = VStr [])
       /\ (forall html c g,
              pageOf W (News.link a) = Response true html ->
              News.matchOgImage html = Some (c :: g) ->
              News.image b = VStr (c :: g)).

(** The serialized item has no member [needsImage]. *)
Definition needsImageAbsent (item : News.NewsItem) : Prop :=
  forall v, ~ In (lit "needsImage", v) (News.toJSON item).

(** The date has no string form: reading it throws. *)
Definition unreadable (W : World) (date : value) : bool :=
  match timeOf (getTime W) date with
  | Ok _ => false
  | Throw => true
  end.

(** The order of the news list: a later date first, an item without a
    valid date after every item with one.  A date that cannot be read at
    all is no valid date. *)
Definition newsKey (W : World) (item : News.NewsItem) : option Z :=
  tryCatch (timeOf (getTime W) (News.pubDate item)) None.

Definition newestFirst (ka kb : option Z) : Prop :=
  match ka, kb with
  | Some ta, Some tb => tb <= ta
  | Some _, None => True
  | None, Some _ => False
  | None, None => True
  end.

Definition sameKey (k : option Z) (k' : option Z) : bool :=
  match k, k' with
  | Some t, Some t' => t =? t'
  | None, None => true
  | _, _ => false
  end.

(** ** Product *)

(** The sitemap fails: no answer or a status outside 2xx, or a body the
    XML parser rejects. *)
Definition sitemapFails (W : World) (sitemapUrl : jstring) : Prop :=
  match axiosGet W (VStr sitemapUrl) with
  | None => True
  | Some data => parseXML W data = Throw
  end.

(** The selector chain of a domain, if it has one. *)
Definition chainOf (domain : jstring) : option (list jstring) :=
  if includes (lit "pickaboo") domain then Some Product.pickabooSelectors
  else if includes (lit "daraz") domain then Some Product.darazSelectors
  else None.

(** The text the loop reads for a selector. *)
Definition priceText (d : Doc) (selector : jstring) : jstring :=
  trim (firstText d selector).

(** The price as the specification words it: the selectors in order, the
    first whose text matches the currency pattern (marker followed by
    digits) gives the price, and the sentinel when none does. *)
Fixpoint pricePerSpec (d : Doc) (selectors : list jstring) : jstring :=
  match selectors with
  | [] => Product.priceNotAvailable
  | selector :: rest =>
    match Product.matchPrice (priceText d selector) with
    | Some m => m
    | None => pricePerSpec d rest
    end
  end.

(** ** Query parameters *)

(** No decimal digit after the leading white space and the sign. *)
Definition nonNumeric (s : jstring) : bool :=
  match snd (stripSign (trimStart s)) with
  | [] => true
  | c :: _ => negb (isDigit c)
  end.

(** The parameter is not in the query string, or is empty. *)
Definition missing (p : option jstring) : Prop := p = None \/ p = Some [].

End Terms.

(* ================================================================== *)
(** * More of the language level: printing, replacing, splitting       *)
(* ================================================================== *)

Module Text.
Import Js.

(** [String(n)] for a non-negative integer: its decimal digits.  The fuel
    is the number itself, more than it has digits. *)
Fixpoint decimalDigits (fuel : nat) (n : N) : jstring :=
  match fuel with
  | O => []
  | S fuel' =>
    (if n <? 10 then [48 + n]
     else decimalDigits fuel' (n / 10) ++ [48 + n mod 10])%N
  end.

Definition decimal (n : nat) : jstring := decimalDigits (S n) (N.of_nat n).

(** [s.replace(/pat/g, rep)] for a pattern that is a literal, not empty:
    the matches from left to right, none overlapping another.  [skip]
    counts the code units of a match still to pass. *)
Fixpoint replaceAllFrom (pat rep : jstring) (skip : nat) (s : jstring) : jstring :=
  match s with
  | [] => []
  | c :: s' =>
    match skip with
    | S k => replaceAllFrom pat rep k s'
    | O =>
      if startsWith pat (c :: s')
      then rep ++ replaceAllFrom pat rep (length pat - 1) s'
      else c :: replaceAllFrom pat rep 0 s'
    end
  end.

Definition replaceAll (pat rep s : jstring) : jstring := replaceAllFrom pat rep 0 s.

(** [s.replace(pat, rep)] for a string [pat]: the first occurrence only. *)
Fixpoint replaceFirst (pat rep s : jstring) : jstring :=
  if startsWith pat s then rep ++ skipn (length pat) s
  else match s with
       | [] => []
       | c :: s' => c :: replaceFirst pat rep s'
       end.

(** [s.split(sep)] for a separator of one code unit. *)
Fixpoint splitOn (sep : N) (s : jstring) : list jstring :=
  match s with
  | [] => [[]]
  | c :: s' =>
    if (c =? sep)%N then [] :: splitOn sep s'
    else match splitOn sep s' with
         | l :: ls => (c :: l) :: ls
         | [] => [[c]]
         end
  end.

(** [ls.join(sep)] *)
Fixpoint join (sep : jstring) (ls : list jstring) : jstring :=
  match ls with
  | [] => []
  | l :: ls' =>
    match ls' with
    | [] => l
    | _ :: _ => l ++ sep ++ join sep ls'
    end
  end.

End Text.

(* ================================================================== *)
(** * News, the handler without the enrichment pass                    *)
(* ================================================================== *)

(** The second RSS route of the repository: the same pipeline with the
    short description only, no [needsImage], and the page returned as it
    is sliced. *)

Module NewsPlain.

Record NewsItem : Type := {
  title : value;
  link : value;
  description : value;
  pubDate : value;
  guid : value;
  image : value;
  domain : jstring
}.

(** The callback of [items.map]. *)
Definition toNewsItem (domain : jstring) (item : value) : result NewsItem :=
  (title <- News.field "title" item ;;
   link <- News.field "link" item ;;
   descr <- News.field "description" item ;;
   pubDate <- News.field "pubDate" item ;;
   guid <- News.field "guid" item ;;
   media <- News.field "media:content" item ;;
   Ok {| title := orElse title (VStr []);
         link := orElse link (VStr []);
         description := orElse descr (VStr []);
         pubDate := orElse pubDate (VStr []);
         guid := orElse (optProp (lit "_") guid) (orElse guid (VStr []));
         image := orElse (optProp (lit "url") (optProp (lit "$") media))
                         (VStr []);
         domain := domain |})%result.

Definition hasTitleAndLink (item : NewsItem) : bool :=
  truthy (title item) && truthy (link item).

Definition fetchRSSFeed (W : World) (url : jstring) : list NewsItem :=
  match fetch W url with
  | Rejected => []
  | Response false _ => []
  | Response true xmlText =>
    tryCatch
      (result <- parseXML W xmlText ;;
       let items :=
         orElse (optProp (lit "item")
                   (optFirst (optProp (lit "channel")
                                (optProp (lit "rss") result))))
                (VArr []) in
       domain <- hostname W url ;;
       entries <- asArray items ;;
       newsItems <- rmap (toNewsItem domain) entries ;;
       Ok (filter hasTitleAndLink newsItems))%result
      []
  end.

Definition byDateDesc (W : World) (a b : NewsItem) : result (option Z) :=
  (dateA <- timeOf (getTime W) (pubDate a) ;;
   dateB <- timeOf (getTime W) (pubDate b) ;;
   Ok match dateA, dateB with
      | None, None => Some 0
      | None, Some _ => Some 1
      | Some _, None => Some (-1)
      | Some ta, Some tb => Some (tb - ta)
      end)%result.

Definition allItems (W : World) (urls : list jstring) : result (list NewsItem) :=
  sort (engineSort W) (byDateDesc W)
       (filter (fun item => truthy (pubDate item))
               (concat (map (fetchRSSFeed W) urls))).

Definition GET (W : World) (urlsData : result (list jstring)) (request : Request)
  : HttpResponse NewsItem :=
  let offset := News.offsetOf request in
  let limit := News.limitOf request in
  match urlsData with
  | Throw => Json500 (lit "Failed to fetch RSS feeds")
  | Ok urls =>
    match allItems W urls with
    | Throw => Json500 (lit "Failed to fetch RSS feeds")
    | Ok allItems =>
      let paginatedItems := slice allItems offset (add offset limit) in
      Json200 {| items := paginatedItems;
                 hasMore := ltb (add offset limit)
                                (ofZ (Z.of_nat (length allItems)));
                 total := length allItems |}
    end
  end.

End NewsPlain.

(* ================================================================== *)
(** * The news card: [components/News.tsx]                             *)
(* ================================================================== *)

Module Card.
Import Text.

(** [html.replace(/<[^>]*>/g, "")]: from a [<] that has a [>] somewhere
    after it, everything up to the first such [>] goes; [inTag] says that
    the scan is inside such a match. *)
Fixpoint stripTagsFrom (inTag : bool) (s : jstring) : jstring :=
  match s with
  | [] => []
  | c :: s' =>
    if inTag then stripTagsFrom (negb (c =? 62)%N) s'
    else if ((c =? 60) && existsb (N.eqb 62) s')%N then stripTagsFrom true s'
    else c :: stripTagsFrom false s'
  end.

Definition stripTags (html : jstring) : jstring := stripTagsFrom false html.

(** [cleanDescription] on a string. *)
Definition cleanText (html : jstring) : jstring :=
  trim
    (replaceAll (lit "&quot;") dq
       (replaceAll (lit "&gt;") (lit ">")
          (replaceAll (lit "&lt;") (lit "<")
             (replaceAll (lit "&amp;") (lit "&")
                (replaceAll (lit "&nbsp;") (lit " ")
                   (stripTags html)))))).

(** [cleanDescription(item.description)]: the member is whatever the
    handler found in the feed, and only a string has [replace]. *)
Definition cleanDescription (html : value) : result jstring :=
  match html with
  | VStr s => Ok (cleanText s)
  | _ => Throw
  end.

(** [description.split("\n").slice(0, 3).join("\n")] *)
Definition shortDescription (description : jstring) : jstring :=
  join [10%N] (firstn 3 (splitOn 10 description)).

(** [description.length > shortDescription.length] *)
Definition shouldShowReadMore (description : jstring) : bool :=
  (length (shortDescription description) <? length description)%nat.

Definition getFaviconUrl (domain : jstring) : jstring :=
  lit "https://www.google.com/s2/favicons?domain=" ++ domain ++ lit "&sz=32".

(** [domain.replace("www.", "").split(".")[0]] *)
Definition getWebsiteName (domain : jstring) : jstring :=
  hd [] (splitOn 46 (replaceFirst (lit "www.") [] domain)).

End Card.

(* ================================================================== *)
(** * The pages: loading and scrolling                                 *)
(* ================================================================== *)

(** The three pages ([HomePage], [ProductPage], [VideosPage]) hold the same
    state and the same two loaders, which differ by the endpoint they ask
    and by the page sizes.  A loader is taken as a whole: the state it
    leaves once it has run to its end, called from the render that shows
    the state it starts from.  The request reaches the handler and the
    answer comes back as it was sent. *)

Module Pages.
Import Text.

(** [/api/...?offset=${offset}&limit=${limit}], as the handler reads it. *)
Definition query (offset limit : nat) : Request :=
  {| offsetParam := Some (decimal offset); limitParam := Some (decimal limit) |}.

(** [if (!response.ok) throw ...; return await response.json()] *)
Definition jsonOf {I} (response : HttpResponse I) : result (Body I) :=
  match response with
  | Json200 body => Ok body
  | Json500 _ => Throw
  end.

Definition fetchNews (W : World) (urlsData : result (list jstring))
           (offset limit : nat) : result (Body News.NewsItem) :=
  jsonOf (fst (News.GET W urlsData (query offset limit))).

(** The same request, answered by the handler without the enrichment
    pass. *)
Definition fetchNewsPlain (W : World) (urlsData : result (list jstring))
           (offset limit : nat) : result (Body NewsPlain.NewsItem) :=
  jsonOf (NewsPlain.GET W urlsData (query offset limit)).

Definition fetchProducts (W : World)
           (productData : result (list Product.ProductSource))
           (offset limit : nat) : result (Body Product.Product) :=
  jsonOf (Product.GET W productData (query offset limit)).

Definition fetchVideos (W : World) (videos : result (list jstring))
           (offset limit : nat) : result (Body Videos.VideoItem) :=
  jsonOf (Videos.GET W videos (query offset limit)).

Definition itemsIn {I} (data : Body I) : list I := items data.
Definition hasMoreIn {I} (data : Body I) : bool := hasMore data.

(** The [useState] cells of a page; [shown] is [newsItems], [products] or
    [videos]. *)
Record State (I : Type) : Type := {
  shown : list I;
  loading : bool;
  loadingMore : bool;
  hasMore : bool;
  error : option jstring
}.

Section Loaders.
Variable I : Type.
Variable fetchPage : nat -> nat -> result (Body I).
Variable firstSize moreSize : nat.
Variable failure : jstring.

Definition setShown (l : list I) (s : State I) : State I :=
  {| shown := l; loading := loading s; loadingMore := loadingMore s;
     hasMore := hasMore s; error := error s |}.

Definition setLoading (b : bool) (s : State I) : State I :=
  {| shown := shown s; loading := b; loadingMore := loadingMore s;
     hasMore := hasMore s; error := error s |}.

Definition setLoadingMore (b : bool) (s : State I) : State I :=
  {| shown := shown s; loading := loading s; loadingMore := b;
     hasMore := hasMore s; error := error s |}.

Definition setHasMore (b : bool) (s : State I) : State I :=
  {| shown := shown s; loading := loading s; loadingMore := loadingMore s;
     hasMore := b; error := error s |}.

Definition setError (e : option jstring) (s : State I) : State I :=
  {| shown := shown s; loading := loading s; loadingMore := loadingMore s;
     hasMore := hasMore s; error := e |}.

(** [loadInitialNews], [loadInitialProducts], [loadInitialVideos] *)
Definition loadInitial (s : State I) : State I :=
  let s := setError None (setLoading true s) in
  let s :=
    match fetchPage 0 firstSize with
    | Ok data => setHasMore (hasMoreIn data) (setShown (itemsIn data) s)
    | Throw => setError (Some failure) s
    end in
  setLoading false s.

(** [loadMoreNews], [loadMoreProducts], [loadMoreVideos] *)
Definition loadMore (s : State I) : State I :=
  if negb (hasMore s) || loadingMore s then s
  else
    let s := setLoadingMore true s in
    let s :=
      match fetchPage (length (shown s)) moreSize with
      | Ok data => setHasMore (hasMoreIn data) (setShown (shown s ++ itemsIn data) s)
      | Throw => s
      end in
    setLoadingMore false s.

(** [k] times [loadMore], one after the other. *)
Fixpoint scroll (k : nat) (s : State I) : State I :=
  match k with
  | O => s
  | S k' => loadMore (scroll k' s)
  end.
End Loaders.

(** The state a page is mounted with. *)
Definition mounted (I : Type) : State I :=
  {| shown := []; loading := true; loadingMore := false; hasMore := true;
     error := None |}.

Definition loadInitialNews (W : World) (urlsData : result (list jstring)) :=
  loadInitial (fetchNews W urlsData) 30
              (lit "Failed to load news. Please try again.").

Definition loadMoreNews (W : World) (urlsData : result (list jstring)) :=
  loadMore (fetchNews W urlsData) 10.

Definition loadInitialProducts
           (W : World) (productData : result (list Product.ProductSource)) :=
  loadInitial (fetchProducts W productData) 12
              (lit "Failed to load products. Please try again.").

Definition loadMoreProducts
           (W : World) (productData : result (list Product.ProductSource)) :=
  loadMore (fetchProducts W productData) 12.

Definition loadInitialVideos (W : World) (videos : result (list jstring)) :=
  loadInitial (fetchVideos W videos) 30
              (lit "Failed to load videos. Please try again.").

Definition loadMoreVideos (W : World) (videos : result (list jstring)) :=
  loadMore (fetchVideos W videos) 10.

End Pages.

(* ================================================================== *)
(** * More vocabulary, more samples                                    *)
(* ================================================================== *)

Module MoreTerms.

(** [result?.rss?.channel?.[0]?.item || []] *)
Definition rssItems (result : value) : value :=
  orElse (optProp (lit "item")
            (optFirst (optProp (lit "channel") (optProp (lit "rss") result))))
         (VArr []).

(** [result.feed.entry || []] *)
Definition atomEntries (result : value) : Js.result value :=
  (feed <- getProp (lit "feed") result ;;
   entry <- getProp (lit "entry") feed ;;
   Ok (orElse entry (VArr [])))%result.

(** A value that is there and is not a string. *)
Definition notString (x : value) : bool :=
  match x with
  | VBool _ | VArr _ | VObj _ => true
  | VUndef | VNull | VStr _ => false
  end.

(** An item of the enriching handler and one of the plain handler that
    agree on all the members they share, but the description. *)
Definition sameCore (a : News.NewsItem) (b : NewsPlain.NewsItem) : Prop :=
  NewsPlain.title b = News.title a /\ NewsPlain.link b = News.link a
  /\ NewsPlain.pubDate b = News.pubDate a /\ NewsPlain.guid b = News.guid a
  /\ NewsPlain.image b = News.image a /\ NewsPlain.domain b = News.domain a.

Definition plainKey (W : World) (item : NewsPlain.NewsItem) : option Z :=
  tryCatch (timeOf (getTime W) (NewsPlain.pubDate item)) None.

Definition videoKey (W : World) (item : Videos.VideoItem) : option Z :=
  tryCatch (timeOf (getTime W) (Videos.published item)) None.

(** The collation is a consistent comparator, in the clauses of the
    language: what [localeCompare] is meant to be. *)
Definition collates (W : World) : Prop :=
  (forall a, localeCompare W a a = 0)
  /\ (forall a b, localeCompare W a b = 0 -> localeCompare W b a = 0)
  /\ (forall a b c, localeCompare W a b = 0 -> localeCompare W b c = 0 ->
                    localeCompare W a c = 0)
  /\ (forall a b c, localeCompare W a b < 0 -> localeCompare W b c < 0 ->
                    localeCompare W a c < 0)
  /\ (forall a b c, 0 < localeCompare W a b -> 0 < localeCompare W b c ->
                    0 < localeCompare W a c).

(** [Number] reads a printed non-negative integer back, as long as the
    integer is one a Number holds exactly. *)
Definition readsDecimals (W : World) : Prop :=
  forall n, Z.of_nat n < 2 ^ 53 ->
            stringToNumber W (Text.decimal n) = ofZ (Z.of_nat n).

(** What follows the digits does not go on the number: no decimal digit,
    and no [x] that would make a leading zero a hexadecimal prefix. *)
Definition endsNumber (rest : jstring) : bool :=
  match rest with
  | [] => true
  | c :: _ => negb (isDigit c || (c =? 120) || (c =? 88))%N
  end.

Definition isGt (c : N) : bool := (c =? 62)%N.
Definition isNewline (c : N) : bool := (c =? 10)%N.

(** The number of line breaks of a text. *)
Definition lineBreaks (s : jstring) : nat := length (filter isNewline s).

(** The text holds an opening angle bracket with a closing one somewhere
    after it: what the pattern of a tag matches. *)
Fixpoint opensTag (s : jstring) : bool :=
  match s with
  | [] => false
  | c :: s' => ((c =? 60)%N && existsb (N.eqb 62) s') || opensTag s'
  end.

(** The text holds a full stop. *)
Definition hasDot (s : jstring) : bool := existsb (N.eqb 46) s.

End MoreTerms.

Module MoreSamples.
Import Sample.

(** A feed whose second item has a [content:encoded] with an attribute:
    the parser gives an object for it, not a string. *)
Definition encodedItem : Document :=
  {| source := tag "item"
                 (tag "title" "Long" ++ tag "link" "https://c.example/2"
                  ++ tag "pubDate" "Tue, 02 Jan 2024 00:00:00 GMT"
                  ++ "<content:encoded type='html'>Body</content:encoded>")%string;
     parsed := VObj [ child "title" "Long";
                      child "link" "https://c.example/2";
                      child "pubDate" "Tue, 02 Jan 2024 00:00:00 GMT";
                      (lit "content:encoded",
                       VArr [VObj [(lit "_", VStr (lit "Body"));
                                   (lit "$", VObj [(lit "type", VStr (lit "html"))])]]) ] |}.

Definition feedC : Document :=
  rssOf [ item "Short" "https://c.example/1" "Mon, 01 Jan 2024 00:00:00 GMT";
          encodedItem ].

Definition encodedWorld : World :=
  {| fetch := fun u =>
       if named "https://c.example/rss" u then Response true (lit (source feedC))
       else Rejected;
     axiosGet := fun _ => None;
     parseXML := parses [feedC];
     cheerioLoad := fun _ => noDoc;
     hostname := fun u =>
       if named "https://c.example/rss" u then Ok (lit "c.example") else Throw;
     getTime := clock;
     localeCompare := fun _ _ => 0;
     base64 := fun _ => Throw;
     stringToNumber := digits;
     engineSort := asItIs |}.

(** A feed whose item has a link that is no URL: [new URL] throws on it,
    and [fetch] is rejected. *)
Definition feedE : Document :=
  rssOf [ item "Loose" "not a url" "Mon, 01 Jan 2024 00:00:00 GMT" ].

Definition looseWorld : World :=
  {| fetch := fun u =>
       if named "https://e.example/rss" u then Response true (lit (source feedE))
       else Rejected;
     axiosGet := fun _ => None;
     parseXML := parses [feedE];
     cheerioLoad := fun _ => noDoc;
     hostname := fun u =>
       if named "https://e.example/rss" u then Ok (lit "e.example") else Throw;
     getTime := clock;
     localeCompare := fun _ _ => 0;
     base64 := fun _ => Throw;
     stringToNumber := digits;
     engineSort := asItIs |}.

(** An item whose date carries an attribute: the parser gives an object
    for it, after an item whose date is text. *)
Definition stampedItem : Document :=
  {| source := tag "item"
                 (tag "title" "Stamped" ++ tag "link" "https://d.example/2"
                  ++ "<pubDate zone='utc'>Tue, 02 Jan 2024 00:00:00 GMT</pubDate>")%string;
     parsed := VObj [ child "title" "Stamped";
                      child "link" "https://d.example/2";
                      (lit "pubDate",
                       VArr [VObj [(lit "_", VStr (lit "Tue, 02 Jan 2024 00:00:00 GMT"));
                                   (lit "$", VObj [(lit "zone", VStr (lit "utc"))])]]) ] |}.

Definition feedD : Document :=
  rssOf [ item "Plain" "https://d.example/1" "Mon, 01 Jan 2024 00:00:00 GMT";
          stampedItem ].

Definition stampedWorld : World :=
  {| fetch := fun u =>
       if named "https://d.example/rss" u then Response true (lit (source feedD))
       else Rejected;
     axiosGet := fun _ => None;
     parseXML := parses [feedD];
     cheerioLoad := fun _ => noDoc;
     hostname := fun u =>
       if named "https://d.example/rss" u then Ok (lit "d.example") else Throw;
     getTime := clock;
     localeCompare := fun _ _ => 0;
     base64 := fun _ => Throw;
     stringToNumber := digits;
     engineSort := asItIs |}.

(** A video entry whose date carries an attribute, after one whose date
    is text. *)
Definition stampedEntry : Document :=
  {| source := tag "entry"
                 (tag "id" "v2" ++ tag "yt:videoId" "v2" ++ tag "title" "Stamped"
                  ++ tag "author" (tag "name" "Channel")
                  ++ "<published zone='utc'>2024-01-02T00:00:00+00:00</published>"
                  ++ source (statistics "7"))%string;
     parsed := VObj [ child "id" "v2";
                      child "yt:videoId" "v2";
                      child "title" "Stamped";
                      (lit "author", VArr [VObj [child "name" "Channel"]]);
                      (lit "published",
                       VArr [VObj [(lit "_", VStr (lit "2024-01-02T00:00:00+00:00"));
                                   (lit "$", VObj [(lit "zone", VStr (lit "utc"))])]]);
                      (lit "media:group", parsed (statistics "7")) ] |}.

Definition stampedVideos : Document :=
  feedOf [ entry "v1" "Plain" "2024-01-01T00:00:00+00:00" (statistics "5");
           stampedEntry ].

(** Two dated entries, the older one first. *)
Definition datedPair : Document :=
  feedOf [ entry "v1" "Older" "2024-01-01T00:00:00+00:00" (statistics "5");
           entry "v2" "Newer" "2024-01-02T00:00:00+00:00" (statistics "7") ].

(** Strings compared code unit by code unit: a collation. *)
Fixpoint codeUnitOrder (a b : jstring) : Z :=
  match a, b with
  | [], [] => 0
  | [], _ :: _ => -1
  | _ :: _, [] => 1
  | c :: a', d :: b' =>
    if (c <? d)%N then -1 else if (d <? c)%N then 1 else codeUnitOrder a' b'
  end.

(** A shop of two pages, the sitemap listing the phone before the
    camera. *)
Definition sitemapTwo : Document :=
  {| source := tag "urlset" (tag "url" (tag "loc" "https://shop.example/phone")
                             ++ tag "url" (tag "loc" "https://shop.example/camera"));
     parsed := VObj [(lit "urlset", VObj [(lit "url", VArr [
                 VObj [child "loc" "https://shop.example/phone"];
                 VObj [child "loc" "https://shop.example/camera"] ])])] |}.

Definition titled (title : string) : Doc :=
  {| attrContent := fun sel =>
       if str_eqb sel (Product.metaProperty "og:title") then Some (lit title)
       else None;
     text := fun _ => [];
     firstText := fun _ => [] |}.

Definition phoneHtml : jstring :=
  lit "<html><head><meta property='og:title' content='Phone'/></head></html>".

Definition cameraHtml : jstring :=
  lit "<html><head><meta property='og:title' content='Camera'/></head></html>".

Definition twoPages : World :=
  {| fetch := fun _ => Rejected;
     axiosGet := fun u =>
       match u with
       | VStr u =>
         if named "https://shop.example/sitemap.xml" u
         then Some (lit (source sitemapTwo))
         else if named "https://shop.example/phone" u then Some phoneHtml
         else if named "https://shop.example/camera" u then Some cameraHtml
         else None
       | _ => None
       end;
     parseXML := parses [sitemapTwo];
     cheerioLoad := fun h =>
       if str_eqb h phoneHtml then titled "Phone"
       else if str_eqb h cameraHtml then titled "Camera"
       else noDoc;
     hostname := fun _ => Throw;
     getTime := clock;
     localeCompare := codeUnitOrder;
     base64 := fun u =>
       match u with
       | VStr u =>
         if named "https://shop.example/phone" u
         then Ok (lit "aHR0cHM6Ly9zaG9wLmV4YW1wbGUvcGhvbmU=")
         else if named "https://shop.example/camera" u
         then Ok (lit "aHR0cHM6Ly9zaG9wLmV4YW1wbGUvY2FtZXJh")
         else Throw
       | _ => Throw
       end;
     stringToNumber := digits;
     engineSort := asItIs |}.

(** ** Lists longer than the first page of a page

    Thirty-five news items in one feed, and as many video entries in one
    channel: twenty of the first of January 2024, then fifteen of the
    second.  And a shop of fifteen pages, the sitemap listing them from
    the last title to the first; each page is given with the base64 form
    of its address. *)

Definition olderNames : list string :=
  [
    "n01"; "n02"; "n03"; "n04"; "n05"; "n06"; "n07"; "n08"; "n09"; "n10";
    "n11"; "n12"; "n13"; "n14"; "n15"; "n16"; "n17"; "n18"; "n19"; "n20" ]%string.

Definition newerNames : list string :=
  [
    "n21"; "n22"; "n23"; "n24"; "n25"; "n26"; "n27"; "n28"; "n29"; "n30";
    "n31"; "n32"; "n33"; "n34"; "n35" ]%string.

Definition longItem (pubDate name : string) : Document :=
  item name ("https://f.example/" ++ name)%string pubDate.

Definition longFeed : Document :=
  rssOf (map (longItem "Mon, 01 Jan 2024 00:00:00 GMT") olderNames
         ++ map (longItem "Tue, 02 Jan 2024 00:00:00 GMT") newerNames).

Definition longWorld : World :=
  {| fetch := fun u =>
       if named "https://f.example/rss" u then Response true (lit (source longFeed))
       else Rejected;
     axiosGet := fun _ => None;
     parseXML := parses [longFeed];
     cheerioLoad := fun _ => noDoc;
     hostname := fun u =>
       if named "https://f.example/rss" u then Ok (lit "f.example") else Throw;
     getTime := clock;
     localeCompare := fun _ _ => 0;
     base64 := fun _ => Throw;
     stringToNumber := digits;
     engineSort := asItIs |}.

Definition longVideos : Document :=
  feedOf (map (fun t => entry t t "2024-01-01T00:00:00+00:00" (statistics "5"))
              olderNames
          ++ map (fun t => entry t t "2024-01-02T00:00:00+00:00" (statistics "7"))
                 newerNames).

Definition shelf : list (string * string) :=
  [
    ("p15", "aHR0cHM6Ly9zaG9wLmV4YW1wbGUvcDE1");
    ("p14", "aHR0cHM6Ly9zaG9wLmV4YW1wbGUvcDE0");
    ("p13", "aHR0cHM6Ly9zaG9wLmV4YW1wbGUvcDEz");
    ("p12", "aHR0cHM6Ly9zaG9wLmV4YW1wbGUvcDEy");
    ("p11", "aHR0cHM6Ly9zaG9wLmV4YW1wbGUvcDEx");
    ("p10", "aHR0cHM6Ly9zaG9wLmV4YW1wbGUvcDEw");
    ("p09", "aHR0cHM6Ly9zaG9wLmV4YW1wbGUvcDA5");
    ("p08", "aHR0cHM6Ly9zaG9wLmV4YW1wbGUvcDA4");
    ("p07", "aHR0cHM6Ly9zaG9wLmV4YW1wbGUvcDA3");
    ("p06", "aHR0cHM6Ly9zaG9wLmV4YW1wbGUvcDA2");
    ("p05", "aHR0cHM6Ly9zaG9wLmV4YW1wbGUvcDA1");
    ("p04", "aHR0cHM6Ly9zaG9wLmV4YW1wbGUvcDA0");
    ("p03", "aHR0cHM6Ly9zaG9wLmV4YW1wbGUvcDAz");
    ("p02", "aHR0cHM6Ly9zaG9wLmV4YW1wbGUvcDAy");
    ("p01", "aHR0cHM6Ly9zaG9wLmV4YW1wbGUvcDAx") ]%string.

Definition shelfAddress (name : string) : string :=
  ("https://shop.example/" ++ name)%string.

Definition shelfSitemap : Document :=
  {| source :=
       tag "urlset"
           (String.concat ""
              (map (fun p => tag "url" (tag "loc" (shelfAddress (fst p)))) shelf));
     parsed :=
       VObj [(lit "urlset", VObj [(lit "url",
         VArr (map (fun p => VObj [child "loc" (shelfAddress (fst p))]) shelf))])] |}.

Definition shelfHtml (name : string) : jstring :=
  lit ("<html><head><meta property='og:title' content='" ++ name
       ++ "'/></head></html>")%string.

Definition onShelf (u : jstring) : option (string * string) :=
  find (fun p => named (shelfAddress (fst p)) u) shelf.

Definition shelfWorld : World :=
  {| fetch := fun _ => Rejected;
     axiosGet := fun u =>
       match u with
       | VStr u =>
         if named "https://shop.example/sitemap.xml" u
         then Some (lit (source shelfSitemap))
         else option_map (fun p => shelfHtml (fst p)) (onShelf u)
       | _ => None
       end;
     parseXML := parses [shelfSitemap];
     cheerioLoad := fun h =>
       match find (fun p => str_eqb h (shelfHtml (fst p))) shelf with
       | Some p => titled (fst p)
       | None => noDoc
       end;
     hostname := fun _ => Throw;
     getTime := clock;
     localeCompare := codeUnitOrder;
     base64 := fun u =>
       match u with
       | VStr u =>
         match onShelf u with
         | Some p => Ok (lit (snd p))
         | None => Throw
         end
       | _ => Throw
       end;
     stringToNumber := digits;
     engineSort := asItIs |}.

(** An engine that sorts by binary insertion: each element in turn goes
    into the run before it, at the place a binary search finds, which
    goes left where the comparator gives less than zero and right
    otherwise. *)
Fixpoint searchFrom (row : list (result Z)) (run : list nat)
         (fuel left right : nat) : result nat :=
  match fuel with
  | O => Ok left
  | S fuel' =>
    if (left <? right)%nat then
      let mid := (left + (right - left) / 2)%nat in
      (order <- nth (nth mid run 0%nat) row Throw ;;
       if order <? 0 then searchFrom row run fuel' left mid
       else searchFrom row run fuel' (S mid) right)%result
    else Ok left
  end.

Definition binaryInsertion (calls : list (list (result Z)))
  : result (list nat) :=
  fold_left
    (fun sorted pivot =>
       (run <- sorted ;;
        left <- searchFrom (nth pivot calls []) run (length run) 0 (length run) ;;
        Ok (firstn left run ++ pivot :: skipn left run))%result)
    (seq 0 (length calls)) (Ok []).

Definition withEngine (engine : list (list (result Z)) -> result (list nat))
           (W : World) : World :=
  {| fetch := fetch W;
     axiosGet := axiosGet W;
     parseXML := parseXML W;
     cheerioLoad := cheerioLoad W;
     hostname := hostname W;
     getTime := getTime W;
     localeCompare := localeCompare W;
     base64 := base64 W;
     stringToNumber := stringToNumber W;
     engineSort := engine |}.

(** Seven entries, three of them without a date that parses. *)
Definition mixedVideos : Document :=
  feedOf [ entry "v0" "U0" "not a date" (statistics "1");
           entry "v1" "U1" "not a date" (statistics "1");
           entry "v2" "Jan2-a" "2024-01-02T00:00:00+00:00" (statistics "1");
           entry "v3" "Jan1" "2024-01-01T00:00:00+00:00" (statistics "1");
           entry "v4" "U4" "not a date" (statistics "1");
           entry "v5" "Jan2-b" "2024-01-02T00:00:00+00:00" (statistics "1");
           entry "v6" "Jan2-c" "2024-01-02T00:00:00+00:00" (statistics "1") ].

(** Three entries, the last two of one date and later than the first. *)
Definition tiedVideos : Document :=
  feedOf [ entry "v1" "Older" "2024-01-01T00:00:00+00:00" (statistics "5");
           entry "v2" "First" "2024-01-02T00:00:00+00:00" (statistics "7");
           entry "v3" "Second" "2024-01-02T00:00:00+00:00" (statistics "9") ].

End MoreSamples.

(* ================================================================== *)
(** * Sample runs                                                      *)
(* ================================================================== *)

Import Sample.
Import Terms.

Example lit_taka : Product.taka = [2547%N].
Proof. reflexivity. Qed.

Example parseInt_runs :
  parseInt (lit "12") = ofZ 12 /\ parseInt (lit "  -7px") = ofZ (-7)
  /\ parseInt (lit "0x1f") = ofZ 31 /\ parseInt (lit "abc") = NaN
  /\ parseInt (lit "") = NaN.
Proof. repeat split; vm_compute; reflexivity. Qed.

Example slice_runs :
  slice [1; 2; 3; 4; 5] (ofZ 1) (ofZ 3) = [2; 3]
  /\ slice [1; 2; 3; 4; 5] (ofZ (-2)) (Inf false) = [4; 5]
  /\ slice [1; 2; 3; 4; 5] NaN (ofZ 2) = [1; 2]
  /\ slice [1; 2; 3; 4; 5] (ofZ 3) NaN = [].
Proof. repeat split; reflexivity. Qed.

Example matchPrice_runs :
  Product.matchPrice (lit "Now ৳ 1,200 only") = Some (lit "৳ 1,200")
  /\ Product.matchPrice (lit "Tk500/Tk600") = Some (lit "Tk500")
  /\ Product.matchPrice (lit "৳ TBA") = None
  /\ Product.matchPrice (lit "Tk. 1,200") = None.
Proof. repeat split; vm_compute; reflexivity. Qed.

Example clock_runs :
  clock (lit "Tue, 02 Jan 2024 00:00:00 GMT") = Some 1704153600000
  /\ clock (lit "2024-01-01T00:00:00+00:00") = Some 1704067200000
  /\ clock (lit "not a date") = None.
Proof. repeat split. Qed.

(** Two feeds of three and two items: the first page of three, then the
    remaining two. *)
Example two_feeds_run :
  (exists body,
      fst (News.GET twoFeeds (Ok twoUrls) (params "0" "3")) = Json200 body
      /\ map News.title (items body)
         = [VStr (lit "A5"); VStr (lit "B4"); VStr (lit "A3")]
      /\ hasMore body = true /\ total body = 5%nat)
  /\ (exists body,
         fst (News.GET twoFeeds (Ok twoUrls) (params "3" "3")) = Json200 body
         /\ map News.title (items body) = [VStr (lit "B2"); VStr (lit "A1")]
         /\ hasMore body = false /\ total body = 5%nat).
Proof.
  split; eexists; (split; [vm_compute; reflexivity|]); repeat split.
Qed.

(** With every source down the handlers still answer, with nothing. *)
Example all_down_run :
  fst (News.GET allDown (Ok twoUrls) noParams)
  = Json200 {| items := []; hasMore := false; total := 0 |}
  /\ Product.GET allDown (Ok [shop "pickaboo.example"]) noParams
     = Json200 {| items := []; hasMore := false; total := 0 |}
  /\ Videos.GET allDown (Ok [lit "UC1"]) noParams
     = Json200 {| items := []; hasMore := false; total := 0 |}.
Proof. repeat split. Qed.

Example matchOgImage_runs :
  News.matchOgImage pageHtml = Some (lit "https://news.example/1.jpg")
  /\ News.matchOgImage
       (lit "<p>x</p><META name='a' PROPERTY='og:image' id='i' content='/a.png' content='/b.png'>")
     = Some (lit "/b.png")
  /\ News.matchOgImage (lit "<meta content='/a.png' property='og:image'/>") = None
  /\ News.matchOgImage (lit "<meta property='og:image'content='/a.png'/>") = None
  /\ News.matchOgImage (lit "<html><head><title>t</title></head></html>") = None.
Proof. repeat split; vm_compute; reflexivity. Qed.

Example news_run :
  fst (News.GET newsWorld (Ok newsUrls) noParams)
  = Json200
      {| items :=
           [ {| News.title := VStr (lit "First");
                News.link := VStr (lit "https://news.example/1");
                News.description := VStr [];
                News.pubDate := VStr (lit "Tue, 02 Jan 2024 00:00:00 GMT");
                News.guid := VStr [];
                News.image := VStr (lit "https://news.example/1.jpg");
                News.domain := lit "news.example";
                News.needsImage := Some false |};
             {| News.title := VStr (lit "Second");
                News.link := VStr (lit "https://news.example/2");
                News.description := VStr [];
                News.pubDate := VStr (lit "Mon, 01 Jan 2024 00:00:00 GMT");
                News.guid := VStr [];
                News.image := VStr (lit "https://news.example/2.jpg");
                News.domain := lit "news.example";
                News.needsImage := Some false |} ];
         hasMore := false;
         total := 2 |}.
Proof. vm_compute. reflexivity. Qed.

(* ================================================================== *)
(** * The language level: facts                                        *)
(* ================================================================== *)

Module JsFacts.

Lemma str_eqb_refl (s : jstring) : str_eqb s s = true.
Proof.
  induction s as [|c s IH]; simpl; [reflexivity|].
  now rewrite N.eqb_refl.
Qed.

Lemma str_eqb_eq (s t : jstring) : str_eqb s t = true <-> s = t.
Proof.
  split; [|intros ->; apply str_eqb_refl].
  revert t; induction s as [|c s IH]; intros [|d t]; simpl; try discriminate; auto.
  intros H; apply andb_true_iff in H as [H1 H2].
  apply N.eqb_eq in H1; subst; f_equal; auto.
Qed.

Lemma truthy_str (s : jstring) : truthy (VStr s) = true <-> s <> [].
Proof. destruct s; simpl; split; congruence. Qed.

(** *** Numbers *)

Lemma toInteger_ofZ (z : Z) : toIntegerOrInfinity (ofZ z) = Int z.
Proof. unfold toIntegerOrInfinity, ofZ, inject_Z; simpl. now rewrite Z.quot_1_r. Qed.

Lemma toInteger_add_ofZ (a b : Z) :
  toIntegerOrInfinity (add (ofZ a) (ofZ b)) = Int (a + b).
Proof.
  unfold toIntegerOrInfinity, add, ofZ, inject_Z, Qplus; simpl.
  rewrite Z.quot_1_r. f_equal; lia.
Qed.

Lemma ltb_add_ofZ (a b c : Z) :
  ltb (add (ofZ a) (ofZ b)) (ofZ c) = (a + b <? c).
Proof.
  unfold ltb, add, ofZ, inject_Z, Qplus, Qle_bool; simpl.
  rewrite !Z.mul_1_r.
  destruct (Z.leb_spec c (a + b)), (Z.ltb_spec (a + b) c); simpl; auto; lia.
Qed.

Lemma add_NaN_l (b : jsnum) : add NaN b = NaN.
Proof. reflexivity. Qed.

Lemma add_NaN_r (a : jsnum) : add a NaN = NaN.
Proof. destruct a; reflexivity. Qed.

Lemma ltb_NaN_l (b : jsnum) : ltb NaN b = false.
Proof. reflexivity. Qed.

(** *** [slice] *)

Lemma relIndex_range (len : Z) (r : extint) :
  0 <= len -> 0 <= relIndex len r <= len.
Proof.
  intros Hlen; destruct r as [|z|]; simpl; try lia.
  destruct (Z.ltb_spec z 0); lia.
Qed.

Lemma firstn_min_length {A} (n m : nat) (l : list A) :
  m = Nat.min n (length l) -> firstn m l = firstn n l.
Proof.
  intros ->. destruct (Nat.le_ge_cases n (length l)) as [H|H].
  - now rewrite Nat.min_l.
  - rewrite Nat.min_r by assumption.
    now rewrite firstn_all, firstn_all2.
Qed.

(** On valid arguments [slice] is the window [[o, o + n)]. *)
Lemma slice_window {A} (l : list A) (o n : nat) :
  slice l (ofZ (Z.of_nat o)) (add (ofZ (Z.of_nat o)) (ofZ (Z.of_nat n)))
  = firstn n (skipn o l).
Proof.
  unfold slice. rewrite toInteger_ofZ, toInteger_add_ofZ. simpl relIndex.
  destruct (Z.ltb_spec (Z.of_nat o) 0) as [?|_]; [lia|].
  destruct (Z.ltb_spec (Z.of_nat o + Z.of_nat n) 0) as [?|_]; [lia|].
  destruct (Nat.le_gt_cases (length l) o) as [Ho|Ho].
  - rewrite (skipn_all2 l Ho).
    rewrite !Z.min_r by lia. rewrite Nat2Z.id, skipn_all.
    now rewrite !firstn_nil.
  - rewrite (Z.min_l (Z.of_nat o)) by lia. rewrite Nat2Z.id.
    apply firstn_min_length. rewrite length_skipn. lia.
Qed.

Lemma slice_NaN_end {A} (l : list A) (start : jsnum) : slice l start NaN = [].
Proof.
  unfold slice. simpl (toIntegerOrInfinity NaN).
  pose proof (relIndex_range (toIntegerOrInfinity start)
                (Nat2Z.is_nonneg (length l))) as H.
  replace (relIndex (Z.of_nat (length l)) (Int 0)) with 0.
  - rewrite Z.max_r by lia. reflexivity.
  - simpl. lia.
Qed.

(** A slice is a segment of the array. *)
Lemma slice_segment {A} (l : list A) (start final : jsnum) :
  exists before after, l = before ++ slice l start final ++ after.
Proof.
  unfold slice.
  set (c := Z.to_nat (Z.max _ _)). set (k := Z.to_nat _).
  exists (firstn k l), (skipn c (skipn k l)).
  now rewrite (firstn_skipn c), (firstn_skipn k).
Qed.

Lemma slice_incl {A} (l : list A) (start final : jsnum) (x : A) :
  In x (slice l start final) -> In x l.
Proof.
  destruct (slice_segment l start final) as (before & after & E).
  intros H. rewrite E. apply in_or_app; right. apply in_or_app; now left.
Qed.

Lemma firstn_Forall {A} (P : A -> Prop) (n : nat) (l : list A) :
  Forall P l -> Forall P (firstn n l).
Proof.
  intros H. rewrite <- (firstn_skipn n l) in H. now apply Forall_app in H as [H _].
Qed.

(** *** [rmap] *)

Lemma rmap_Forall2 {A B} (f : A -> result B) (l : list A) (ys : list B) :
  rmap f l = Ok ys -> Forall2 (fun x y => f x = Ok y) l ys.
Proof.
  revert ys; induction l as [|x l IH]; simpl; intros ys H.
  - injection H as <-. constructor.
  - destruct (f x) as [y|] eqn:Ex; simpl in H; [|discriminate].
    destruct (rmap f l) as [ys'|]; simpl in H; [|discriminate].
    injection H as <-. constructor; auto.
Qed.

Lemma rmap_Forall {A B} (f : A -> result B) (P : B -> Prop) (l : list A)
      (ys : list B) :
  (forall x y, f x = Ok y -> P y) -> rmap f l = Ok ys -> Forall P ys.
Proof.
  intros HP H. apply rmap_Forall2 in H.
  induction H; constructor; eauto.
Qed.

End JsFacts.

(* ================================================================== *)
(** * [sort]: permutation, order, stability                            *)
(* ================================================================== *)

Module SortFacts.

Section Any.
Context {A : Type} (comparefn : A -> A -> option Z).

Lemma insert_perm (x : A) (l : list A) :
  Permutation (insert comparefn x l) (x :: l).
Proof.
  induction l as [|y l IH]; simpl; [reflexivity|].
  destruct (0 <? sortCompare comparefn x y); [|reflexivity].
  rewrite IH. apply perm_swap.
Qed.

Lemma stableSort_perm (l : list A) : Permutation (stableSort comparefn l) l.
Proof.
  induction l as [|x l IH]; simpl; [reflexivity|].
  rewrite insert_perm. now constructor.
Qed.

Lemma stableSort_In (l : list A) (x : A) :
  In x (stableSort comparefn l) <-> In x l.
Proof.
  split; apply Permutation_in; [|symmetry]; apply stableSort_perm.
Qed.

(** Stability.  A set of items that all tie with one another keeps its
    order: the sort never moves one of them past another. *)
Section Ties.
Variable tied : A -> bool.
Hypothesis tied_tie :
  forall a b, tied a = true -> tied b = true -> sortCompare comparefn a b <= 0.

Lemma insert_ties (x : A) (l : list A) :
  filter tied (insert comparefn x l) = filter tied (x :: l).
Proof.
  induction l as [|y l IH]; [reflexivity|].
  simpl insert.
  destruct (Z.ltb_spec 0 (sortCompare comparefn x y)) as [Hlt|_]; [|reflexivity].
  change (filter tied (y :: insert comparefn x l))
    with (if tied y then y :: filter tied (insert comparefn x l)
          else filter tied (insert comparefn x l)).
  rewrite IH. simpl.
  destruct (tied x) eqn:Ex, (tied y) eqn:Ey; try reflexivity.
  pose proof (tied_tie Ex Ey). lia.
Qed.

Lemma stableSort_ties (l : list A) :
  filter tied (stableSort comparefn l) = filter tied l.
Proof.
  induction l as [|x l IH]; [reflexivity|].
  simpl stableSort. rewrite insert_ties. simpl. now rewrite IH.
Qed.
End Ties.

(** Order, for a comparator that is consistent on the elements at hand,
    those of [P]. *)
Section Consistent.
Variable P : A -> Prop.
Hypothesis compare_trans :
  forall a b c, P a -> P b -> P c ->
                notAfter comparefn a b -> notAfter comparefn b c ->
                notAfter comparefn a c.
Hypothesis compare_total :
  forall a b, P a -> P b ->
              0 < sortCompare comparefn a b -> notAfter comparefn b a.

Lemma insert_sorted (x : A) (l : list A) :
  P x -> Forall P l ->
  StronglySorted (notAfter comparefn) l ->
  StronglySorted (notAfter comparefn) (insert comparefn x l).
Proof.
  intros Hx HP Hs. induction Hs as [|y l Hs IH Hy]; simpl.
  - repeat constructor.
  - apply Forall_cons_iff in HP as [Py HP].
    destruct (Z.ltb_spec 0 (sortCompare comparefn x y)) as [Hlt|Hle].
    + constructor; [now apply IH|].
      apply Forall_forall. intros z Hz.
      apply (Permutation_in _ (insert_perm x l)) in Hz.
      destruct Hz as [<-|Hz]; [now apply compare_total|].
      now apply (proj1 (Forall_forall _ _) Hy).
    + constructor; [now constructor|].
      constructor; [exact Hle|].
      apply Forall_forall. intros z Hz.
      apply compare_trans with y; auto.
      * now apply (proj1 (Forall_forall _ _) HP).
      * now apply (proj1 (Forall_forall _ _) Hy).
Qed.

Lemma stableSort_sorted (l : list A) :
  Forall P l -> StronglySorted (notAfter comparefn) (stableSort comparefn l).
Proof.
  induction 1 as [|x l Hx HP IH]; simpl; [constructor|].
  apply insert_sorted; [exact Hx| |exact IH].
  apply Forall_forall. intros z Hz. apply (proj1 (stableSort_In _ _)) in Hz.
  now apply (proj1 (Forall_forall _ _) HP).
Qed.

(** A sorted list is determined by the order inside each set of ties:
    two sorted arrangements that agree on every such set are equal. *)
Hypothesis compare_refl : forall a, P a -> notAfter comparefn a a.

Lemma tiedWith_refl (a : A) : P a -> tiedWith comparefn a a = true.
Proof.
  intros Ha. unfold tiedWith. pose proof (compare_refl Ha) as H.
  unfold notAfter in H. apply andb_true_iff. split; now apply Z.leb_le.
Qed.

Lemma tiedWith_tie (x a b : A) :
  P x -> P a -> P b ->
  tiedWith comparefn x a = true -> tiedWith comparefn x b = true ->
  sortCompare comparefn a b <= 0.
Proof.
  unfold tiedWith. intros Px Pa Pb Ha Hb.
  apply andb_true_iff in Ha as [_ Ha]. apply andb_true_iff in Hb as [Hb _].
  apply Z.leb_le in Ha, Hb. exact (compare_trans Pa Px Pb Ha Hb).
Qed.

Lemma sorted_head_unique (x y : A) (l1 l2 : list A) :
  Forall P (x :: l1) -> Forall P (y :: l2) ->
  StronglySorted (notAfter comparefn) (x :: l1) ->
  StronglySorted (notAfter comparefn) (y :: l2) ->
  (forall z, filter (tiedWith comparefn z) (x :: l1)
             = filter (tiedWith comparefn z) (y :: l2)) ->
  x = y.
Proof.
  intros P1 P2 H1 H2 Hf.
  apply StronglySorted_inv in H1 as [_ H1], H2 as [_ H2].
  pose proof (Forall_inv P1) as Px. pose proof (Forall_inv P2) as Py.
  assert (Hyx : tiedWith comparefn y x = true).
  { (* [x] and [y] both occur in both lists, so each may stand first *)
    assert (Hx : In x (y :: l2)).
    { apply (filter_In (tiedWith comparefn x)). rewrite <- Hf.
      apply filter_In. split; [now left|now apply tiedWith_refl]. }
    assert (Hy : In y (x :: l1)).
    { apply (filter_In (tiedWith comparefn y)). rewrite Hf.
      apply filter_In. split; [now left|now apply tiedWith_refl]. }
    unfold tiedWith. apply andb_true_iff. split; apply Z.leb_le.
    - destruct Hx as [<-|Hx]; [now apply compare_refl|].
      now apply (proj1 (Forall_forall _ _) H2).
    - destruct Hy as [<-|Hy]; [now apply compare_refl|].
      now apply (proj1 (Forall_forall _ _) H1). }
  pose proof (Hf y) as E. cbn [filter] in E.
  rewrite Hyx, (tiedWith_refl Py) in E. now injection E.
Qed.

Lemma sorted_stable_unique (l1 l2 : list A) :
  Forall P l1 -> Forall P l2 ->
  StronglySorted (notAfter comparefn) l1 ->
  StronglySorted (notAfter comparefn) l2 ->
  (forall z, filter (tiedWith comparefn z) l1 = filter (tiedWith comparefn z) l2) ->
  l1 = l2.
Proof.
  revert l2. induction l1 as [|x l1 IH]; intros [|y l2] P1 P2 H1 H2 Hf.
  - reflexivity.
  - specialize (Hf y). cbn [filter] in Hf.
    rewrite (tiedWith_refl (Forall_inv P2)) in Hf. discriminate Hf.
  - specialize (Hf x). cbn [filter] in Hf.
    rewrite (tiedWith_refl (Forall_inv P1)) in Hf. discriminate Hf.
  - assert (x = y) by exact (sorted_head_unique P1 P2 H1 H2 Hf). subst y.
    f_equal. apply IH.
    + now apply Forall_inv_tail in P1.
    + now apply Forall_inv_tail in P2.
    + now apply StronglySorted_inv in H1.
    + now apply StronglySorted_inv in H2.
    + intros z. specialize (Hf z). cbn [filter] in Hf.
      destruct (tiedWith comparefn z x); [now injection Hf|exact Hf].
Qed.
End Consistent.

(** *** The clauses of a consistent comparator *)

Lemma consistentOn_at (l : list A) :
  consistentOn comparefn l = true
  <-> forall a b c, In a l -> In b l -> In c l ->
                    consistentAt comparefn a b c = true.
Proof.
  unfold consistentOn. rewrite forallb_forall. split.
  - intros H a b c Ha Hb Hc. specialize (H a Ha).
    rewrite forallb_forall in H. specialize (H b Hb).
    rewrite forallb_forall in H. exact (H c Hc).
  - intros H a Ha. apply forallb_forall. intros b Hb.
    apply forallb_forall. intros c Hc. auto.
Qed.

Lemma consistentAt_clauses (a b c : A) :
  consistentAt comparefn a b c = true
  <-> sortCompare comparefn a a = 0
      /\ (sortCompare comparefn a b = 0 -> sortCompare comparefn b a = 0)
      /\ (sortCompare comparefn a b = 0 -> sortCompare comparefn b c = 0 ->
          sortCompare comparefn a c = 0)
      /\ (sortCompare comparefn a b < 0 -> sortCompare comparefn b c < 0 ->
          sortCompare comparefn a c < 0)
      /\ (0 < sortCompare comparefn a b -> 0 < sortCompare comparefn b c ->
          0 < sortCompare comparefn a c).
Proof.
  unfold consistentAt.
  set (aa := sortCompare comparefn a a). set (ab := sortCompare comparefn a b).
  set (ba := sortCompare comparefn b a). set (bc := sortCompare comparefn b c).
  set (ac := sortCompare comparefn a c).
  rewrite !andb_true_iff, !implb_true_iff, !andb_true_iff.
  rewrite !Z.eqb_eq, !Z.ltb_lt. tauto.
Qed.

Lemma consistentOn_intro (l : list A) :
  (forall a, In a l -> sortCompare comparefn a a = 0) ->
  (forall a b, In a l -> In b l ->
               sortCompare comparefn a b = 0 -> sortCompare comparefn b a = 0) ->
  (forall a b c, In a l -> In b l -> In c l ->
                 sortCompare comparefn a b = 0 -> sortCompare comparefn b c = 0 ->
                 sortCompare comparefn a c = 0) ->
  (forall a b c, In a l -> In b l -> In c l ->
                 sortCompare comparefn a b < 0 -> sortCompare comparefn b c < 0 ->
                 sortCompare comparefn a c < 0) ->
  (forall a b c, In a l -> In b l -> In c l ->
                 0 < sortCompare comparefn a b -> 0 < sortCompare comparefn b c ->
                 0 < sortCompare comparefn a c) ->
  consistentOn comparefn l = true.
Proof.
  intros H1 H2 H3 H4 H5. apply consistentOn_at. intros a b c Ha Hb Hc.
  apply consistentAt_clauses. repeat split; eauto.
Qed.

(** A consistent comparator orders the elements: before-or-equal is
    reflexive, transitive and total on them. *)
Lemma consistentOn_order (l : list A) :
  consistentOn comparefn l = true ->
  (forall a, In a l -> notAfter comparefn a a)
  /\ (forall a b c, In a l -> In b l -> In c l ->
                    notAfter comparefn a b -> notAfter comparefn b c ->
                    notAfter comparefn a c)
  /\ (forall a b, In a l -> In b l ->
                  0 < sortCompare comparefn a b -> notAfter comparefn b a).
Proof.
  intros H. rewrite consistentOn_at in H.
  assert (K : forall a b c, In a l -> In b l -> In c l -> _)
    by (intros a b c Ha Hb Hc;
        exact (proj1 (consistentAt_clauses a b c) (H a b c Ha Hb Hc))).
  clear H.
  assert (Hrefl : forall a, In a l -> sortCompare comparefn a a = 0)
    by (intros a Ha; exact (proj1 (K a a a Ha Ha Ha))).
  assert (Hsym : forall a b, In a l -> In b l ->
                   sortCompare comparefn a b = 0 -> sortCompare comparefn b a = 0)
    by (intros a b Ha Hb; exact (proj1 (proj2 (K a b a Ha Hb Ha)))).
  assert (Heq : forall a b c, In a l -> In b l -> In c l ->
                  sortCompare comparefn a b = 0 -> sortCompare comparefn b c = 0 ->
                  sortCompare comparefn a c = 0)
    by (intros a b c Ha Hb Hc;
        exact (proj1 (proj2 (proj2 (K a b c Ha Hb Hc))))).
  assert (Hlt : forall a b c, In a l -> In b l -> In c l ->
                  sortCompare comparefn a b < 0 -> sortCompare comparefn b c < 0 ->
                  sortCompare comparefn a c < 0)
    by (intros a b c Ha Hb Hc;
        exact (proj1 (proj2 (proj2 (proj2 (K a b c Ha Hb Hc)))))).
  assert (Hgt : forall a b c, In a l -> In b l -> In c l ->
                  0 < sortCompare comparefn a b -> 0 < sortCompare comparefn b c ->
                  0 < sortCompare comparefn a c)
    by (intros a b c Ha Hb Hc;
        exact (proj2 (proj2 (proj2 (proj2 (K a b c Ha Hb Hc)))))).
  clear K.
  assert (Hanti : forall a b, In a l -> In b l ->
                    sortCompare comparefn a b < 0 -> 0 < sortCompare comparefn b a).
  { intros a b Ha Hb Hab.
    destruct (Z.lt_trichotomy (sortCompare comparefn b a) 0) as [E|[E|E]].
    - pose proof (Hlt a b a Ha Hb Ha Hab E). pose proof (Hrefl a Ha). lia.
    - pose proof (Hsym b a Hb Ha E). lia.
    - exact E. }
  assert (Hanti' : forall a b, In a l -> In b l ->
                     0 < sortCompare comparefn a b -> sortCompare comparefn b a < 0).
  { intros a b Ha Hb Hab.
    destruct (Z.lt_trichotomy (sortCompare comparefn b a) 0) as [E|[E|E]].
    - exact E.
    - pose proof (Hsym b a Hb Ha E). lia.
    - pose proof (Hgt a b a Ha Hb Ha Hab E). pose proof (Hrefl a Ha). lia. }
  unfold notAfter. split; [|split].
  - intros a Ha. rewrite (Hrefl a Ha). lia.
  - intros a b c Ha Hb Hc Hab Hbc.
    destruct (Z.lt_trichotomy (sortCompare comparefn a c) 0) as [E|[E|E]];
      [lia|lia|exfalso].
    destruct (Z.lt_trichotomy (sortCompare comparefn a b) 0) as [E1|[E1|E1]];
      [| |lia];
      (destruct (Z.lt_trichotomy (sortCompare comparefn b c) 0) as [E2|[E2|E2]];
       [| |lia]).
    + pose proof (Hlt a b c Ha Hb Hc E1 E2). lia.
    + pose proof (Hanti' a c Ha Hc E) as Hca.
      pose proof (Hlt c a b Hc Ha Hb Hca E1) as Hcb.
      pose proof (Hsym b c Hb Hc E2). lia.
    + pose proof (Hanti b c Hb Hc E2) as Hcb.
      pose proof (Hgt a c b Ha Hc Hb E Hcb). lia.
    + pose proof (Heq a b c Ha Hb Hc E1 E2). lia.
  - intros a b Ha Hb Hab. pose proof (Hanti' a b Ha Hb Hab). lia.
Qed.
End Any.

(** A segment of a sorted list is sorted. *)
Lemma sorted_segment {A} (R : A -> A -> Prop) (before l after : list A) :
  StronglySorted R (before ++ l ++ after) -> StronglySorted R l.
Proof.
  induction before as [|x before IH]; simpl.
  - induction l as [|y l IHl]; simpl; [constructor|].
    intros H. apply StronglySorted_inv in H as [Hs Hy].
    constructor; [now apply IHl|].
    now apply Forall_app in Hy as [Hy _].
  - intros H. apply StronglySorted_inv in H as [Hs _]. now apply IH.
Qed.

Lemma Forall_self {A} (l : list A) : Forall (fun x => In x l) l.
Proof. apply Forall_forall. auto. Qed.

Lemma StronglySorted_impl_on {A} (R S : A -> A -> Prop) (P : A -> Prop)
      (l : list A) :
  (forall a b, P a -> P b -> R a b -> S a b) ->
  Forall P l -> StronglySorted R l -> StronglySorted S l.
Proof.
  intros HRS HP Hs. induction Hs as [|x l Hs IH Hx]; [constructor|].
  apply Forall_cons_iff in HP as [Px HP].
  constructor; [now apply IH|].
  apply Forall_forall. intros z Hz. apply HRS; auto.
  - now apply (proj1 (Forall_forall _ _) HP).
  - now apply (proj1 (Forall_forall _ _) Hx).
Qed.

Lemma StronglySorted_short {A} (R : A -> A -> Prop) (l : list A) :
  (length l < 2)%nat -> StronglySorted R l.
Proof.
  destruct l as [|x [|y l]]; cbn [length]; intros H; [| |lia];
    repeat constructor.
Qed.

(** *** What the engine may do *)

Lemma pick_all {A} (before l : list A) :
  pick (before ++ l) (seq (length before) (length l)) = l.
Proof.
  revert before. induction l as [|x l IH]; intros before; [reflexivity|].
  cbn [length seq pick flat_map].
  rewrite nth_error_app2, Nat.sub_diag by lia. cbn [nth_error app].
  f_equal. specialize (IH (before ++ [x])).
  rewrite <- app_assoc, length_app in IH. cbn [length app] in IH.
  rewrite Nat.add_1_r in IH. exact IH.
Qed.

Lemma isPermutation_perm (n : nat) (order : list nat) :
  isPermutation n order = true -> Permutation (seq 0 n) order.
Proof.
  unfold isPermutation. intros H. apply andb_true_iff in H as [Hlen Hall].
  apply Nat.eqb_eq in Hlen. rewrite forallb_forall in Hall.
  apply NoDup_Permutation_bis.
  - apply seq_NoDup.
  - rewrite length_seq. lia.
  - intros i Hi. apply Hall in Hi. apply existsb_exists in Hi as (k & Hk & E).
    apply Nat.eqb_eq in E. now subst k.
Qed.

Lemma arrange_perm {A} (l : list A) (order : result (list nat)) :
  Permutation (arrange l order) l.
Proof.
  unfold arrange. destruct order as [o|]; [|reflexivity].
  destruct (isPermutation (length l) o) eqn:E; [|reflexivity].
  apply isPermutation_perm in E.
  rewrite <- (pick_all [] l) at 2. cbn [app length].
  unfold pick. symmetry. now apply Permutation_flat_map.
Qed.

Section Engine.
Context {A : Type} (engine : list (list (result Z)) -> result (list nat)).

Lemma sortTotal_perm (comparefn : A -> A -> option Z) (l : list A) :
  Permutation (sortTotal engine comparefn l) l.
Proof.
  unfold sortTotal. destruct (consistentOn comparefn l).
  - apply stableSort_perm.
  - apply arrange_perm.
Qed.

Lemma sortTotal_length (comparefn : A -> A -> option Z) (l : list A) :
  length (sortTotal engine comparefn l) = length l.
Proof. apply Permutation_length, sortTotal_perm. Qed.

Lemma sortTotal_In (comparefn : A -> A -> option Z) (l : list A) (x : A) :
  In x (sortTotal engine comparefn l) <-> In x l.
Proof.
  split; apply Permutation_in; [|symmetry]; apply sortTotal_perm.
Qed.

Lemma sortTotal_consistent (comparefn : A -> A -> option Z) (l : list A) :
  consistentOn comparefn l = true ->
  sortTotal engine comparefn l = stableSort comparefn l.
Proof. unfold sortTotal. now intros ->. Qed.

(** With a consistent comparator the array comes back in order. *)
Lemma sortTotal_sorted (comparefn : A -> A -> option Z) (l : list A) :
  consistentOn comparefn l = true ->
  StronglySorted (notAfter comparefn) (sortTotal engine comparefn l).
Proof.
  intros H. rewrite (sortTotal_consistent _ _ H).
  destruct (consistentOn_order _ _ H) as (_ & Htrans & Htotal).
  apply stableSort_sorted with (P := fun x => In x l); auto.
  apply Forall_self.
Qed.

Lemma sortTotal_short (comparefn : A -> A -> option Z) (l : list A) :
  (length l <= 1)%nat -> sortTotal engine comparefn l = l.
Proof.
  intros H. pose proof (sortTotal_perm comparefn l) as Hp.
  destruct l as [|x [|y l]]; cbn [length] in H; [| |lia].
  - now apply Permutation_nil in Hp.
  - symmetry in Hp. apply Permutation_length_1_inv in Hp. exact Hp.
Qed.

Section Throwing.
Variable comparefn : A -> A -> result (option Z).

(** When every call returns, the sort is the sort of the values. *)
Lemma sort_returns (l : list A) :
  (forall a b, In a l -> In b l -> returns comparefn a b = true) ->
  sort engine comparefn l = Ok (sortTotal engine (valuesOf comparefn) l).
Proof.
  intros H. destruct l as [|x [|y l]].
  - now rewrite sortTotal_short by (cbn; lia).
  - now rewrite sortTotal_short by (cbn; lia).
  - unfold sort.
    replace (forallb (fun a => forallb (returns comparefn a) (x :: y :: l))
                     (x :: y :: l)) with true; [reflexivity|].
    symmetry. apply forallb_forall. intros a Ha.
    apply forallb_forall. intros b Hb. now apply H.
Qed.

(** An element that no call can take makes the sort throw, as soon as
    there is something to compare it with. *)
Lemma sort_throws (l : list A) (x : A) :
  (2 <= length l)%nat -> In x l ->
  (forall y, In y l -> comparefn x y = Throw /\ comparefn y x = Throw) ->
  sort engine comparefn l = Throw.
Proof.
  intros Hlen Hx Hbad. destruct l as [|a [|b l]]; cbn [length] in Hlen; try lia.
  unfold sort.
  replace (forallb (fun a0 => forallb (returns comparefn a0) (a :: b :: l))
                   (a :: b :: l)) with false.
  - replace (existsb (stuck comparefn (a :: b :: l)) (a :: b :: l)) with true;
      [reflexivity|].
    symmetry. apply existsb_exists. exists x. split; [exact Hx|].
    apply forallb_forall. intros y Hy. unfold returns.
    destruct (Hbad y Hy) as [-> ->]. reflexivity.
  - symmetry. apply not_true_is_false. intros H.
    rewrite forallb_forall in H. specialize (H x Hx).
    rewrite forallb_forall in H. specialize (H x Hx).
    unfold returns in H. destruct (Hbad x Hx) as [E _]. rewrite E in H.
    discriminate H.
Qed.

(** Whatever the sort returns is a rearrangement of the array. *)
Lemma sort_perm (l sorted : list A) :
  sort engine comparefn l = Ok sorted -> Permutation sorted l.
Proof.
  unfold sort. destruct l as [|x [|y l]].
  - intros H; injection H as <-. reflexivity.
  - intros H; injection H as <-. reflexivity.
  - destruct (forallb _ _).
    + intros H; injection H as <-. apply sortTotal_perm.
    + destruct (existsb _ _); [discriminate|].
      destruct (engine _) as [o|]; [|discriminate].
      intros H; injection H as <-. exact (arrange_perm (x :: y :: l) (Ok o)).
Qed.

Lemma sort_In (l sorted : list A) (x : A) :
  sort engine comparefn l = Ok sorted -> (In x sorted <-> In x l).
Proof.
  intros H. apply sort_perm in H.
  split; apply Permutation_in; [|symmetry]; exact H.
Qed.

Lemma sort_length (l sorted : list A) :
  sort engine comparefn l = Ok sorted -> length sorted = length l.
Proof. intros H. now apply Permutation_length, sort_perm. Qed.

(** A comparator that reads a key of each element, and throws when it
    cannot read one. *)
Section Keyed.
Variable unreadable : A -> bool.
Hypothesis returns_readable :
  forall a b, returns comparefn a b = negb (unreadable a) && negb (unreadable b).

Lemma sort_keyed (l : list A) :
  sort engine comparefn l
  = if (length l <? 2)%nat then Ok l
    else if existsb unreadable l then Throw
    else Ok (sortTotal engine (valuesOf comparefn) l).
Proof.
  destruct (Nat.ltb_spec (length l) 2) as [Hlen|Hlen].
  - destruct l as [|x [|y l]]; cbn [length] in Hlen; try reflexivity; lia.
  - destruct (existsb unreadable l) eqn:E.
    + apply existsb_exists in E as (x & Hx & Ex).
      apply sort_throws with x; [exact Hlen|exact Hx|].
      intros y Hy. pose proof (returns_readable x y) as H1.
      pose proof (returns_readable y x) as H2. rewrite Ex in H1, H2.
      rewrite andb_false_r in H2. cbn in H1. unfold returns in H1, H2.
      destruct (comparefn x y); [discriminate H1|].
      destruct (comparefn y x); [discriminate H2|]. auto.
    + apply sort_returns. intros a b Ha Hb. rewrite returns_readable.
      assert (Hall : forall x, In x l -> unreadable x = false).
      { intros x Hx. destruct (unreadable x) eqn:Ex; [|reflexivity].
        rewrite <- E. symmetry. apply existsb_exists. eauto. }
      now rewrite (Hall a Ha), (Hall b Hb).
Qed.

(** What comes back holds no element whose key cannot be read, unless it
    is alone. *)
Lemma sort_keyed_readable (l sorted : list A) :
  sort engine comparefn l = Ok sorted ->
  (2 <= length l)%nat -> Forall (fun x => unreadable x = false) sorted.
Proof.
  rewrite sort_keyed. intros H Hlen.
  destruct (Nat.ltb_spec (length l) 2); [lia|].
  destruct (existsb unreadable l) eqn:E; [discriminate H|].
  injection H as <-. apply Forall_forall. intros x Hx.
  apply (proj1 (sortTotal_In _ _ _)) in Hx.
  destruct (unreadable x) eqn:Ex; [|reflexivity].
  rewrite <- E. symmetry. apply existsb_exists. eauto.
Qed.
End Keyed.
End Throwing.
End Engine.

End SortFacts.

(* ================================================================== *)
(** * The two comparators by date                                      *)
(* ================================================================== *)

Module DateFacts.
Import JsFacts SortFacts.

Lemma newestFirst_trans (ka kb kc : option Z) :
  newestFirst ka kb -> newestFirst kb kc -> newestFirst ka kc.
Proof. destruct ka, kb, kc; simpl; try tauto; lia. Qed.

(** The comparator of the two news handlers, which tells a date that
    does not parse from one that does. *)
Section Guarded.
Variable A : Type.
Variable W : World.
Variable dateOf : A -> value.
Variable comparefn : A -> A -> result (option Z).
Hypothesis comparefn_reads :
  forall a b,
    comparefn a b
    = (dateA <- timeOf (getTime W) (dateOf a) ;;
       dateB <- timeOf (getTime W) (dateOf b) ;;
       Ok match dateA, dateB with
          | None, None => Some 0
          | None, Some _ => Some 1
          | Some _, None => Some (-1)
          | Some ta, Some tb => Some (tb - ta)
          end)%result.

Lemma guarded_returns (a b : A) :
  returns comparefn a b
  = negb (unreadable W (dateOf a)) && negb (unreadable W (dateOf b)).
Proof.
  unfold returns, unreadable. rewrite comparefn_reads.
  destruct (timeOf (getTime W) (dateOf a)),
           (timeOf (getTime W) (dateOf b)); reflexivity.
Qed.

Lemma guarded_keys (a b : A) :
  unreadable W (dateOf a) = false -> unreadable W (dateOf b) = false ->
  sortCompare (valuesOf comparefn) a b
  = match tryCatch (timeOf (getTime W) (dateOf a)) None,
          tryCatch (timeOf (getTime W) (dateOf b)) None with
    | None, None => 0
    | None, Some _ => 1
    | Some _, None => -1
    | Some ta, Some tb => tb - ta
    end.
Proof.
  unfold sortCompare, valuesOf, unreadable. rewrite comparefn_reads.
  destruct (timeOf (getTime W) (dateOf a)) as [[ta|]|]; try discriminate;
    destruct (timeOf (getTime W) (dateOf b)) as [[tb|]|]; try discriminate;
    reflexivity.
Qed.

Lemma guarded_consistent (l : list A) :
  Forall (fun x => unreadable W (dateOf x) = false) l ->
  consistentOn (valuesOf comparefn) l = true.
Proof.
  intros H. rewrite Forall_forall in H.
  apply consistentOn_intro.
  - intros a Ha. rewrite guarded_keys by auto.
    destruct (tryCatch (timeOf (getTime W) (dateOf a)) None); lia.
  - intros a b Ha Hb. rewrite !guarded_keys by auto.
    destruct (tryCatch (timeOf (getTime W) (dateOf a)) None),
             (tryCatch (timeOf (getTime W) (dateOf b)) None); lia.
  - intros a b c Ha Hb Hc. rewrite !guarded_keys by auto.
    destruct (tryCatch (timeOf (getTime W) (dateOf a)) None),
             (tryCatch (timeOf (getTime W) (dateOf b)) None),
             (tryCatch (timeOf (getTime W) (dateOf c)) None); lia.
  - intros a b c Ha Hb Hc. rewrite !guarded_keys by auto.
    destruct (tryCatch (timeOf (getTime W) (dateOf a)) None),
             (tryCatch (timeOf (getTime W) (dateOf b)) None),
             (tryCatch (timeOf (getTime W) (dateOf c)) None); lia.
  - intros a b c Ha Hb Hc. rewrite !guarded_keys by auto.
    destruct (tryCatch (timeOf (getTime W) (dateOf a)) None),
             (tryCatch (timeOf (getTime W) (dateOf b)) None),
             (tryCatch (timeOf (getTime W) (dateOf c)) None); lia.
Qed.

Lemma guarded_ties (k : option Z) (a b : A) :
  sameKey k (tryCatch (timeOf (getTime W) (dateOf a)) None) = true ->
  sameKey k (tryCatch (timeOf (getTime W) (dateOf b)) None) = true ->
  sortCompare (valuesOf comparefn) a b <= 0.
Proof.
  unfold sortCompare, valuesOf, sameKey. rewrite comparefn_reads.
  destruct k, (timeOf (getTime W) (dateOf a)) as [[ta|]|],
           (timeOf (getTime W) (dateOf b)) as [[tb|]|]; simpl;
    try discriminate; lia.
Qed.

(** The sort throws exactly when there are two elements or more and the
    date of one cannot be read. *)
Lemma guarded_sort (l : list A) :
  sort (engineSort W) comparefn l
  = if (length l <? 2)%nat then Ok l
    else if existsb (fun x => unreadable W (dateOf x)) l then Throw
    else Ok (stableSort (valuesOf comparefn) l).
Proof.
  rewrite (sort_keyed (engineSort W) comparefn
             (fun x => unreadable W (dateOf x)) guarded_returns).
  destruct (length l <? 2)%nat; [reflexivity|].
  destruct (existsb _ l) eqn:E; [reflexivity|].
  rewrite sortTotal_consistent; [reflexivity|].
  apply guarded_consistent, Forall_forall. intros x Hx.
  destruct (unreadable W (dateOf x)) eqn:Ex; [|reflexivity].
  rewrite <- E. symmetry. apply existsb_exists. eauto.
Qed.

(** What it returns is in order, a later date first and the dates that
    do not parse last, and the elements of one date are in the order
    they had. *)
Lemma guarded_sorted (l sorted : list A) :
  sort (engineSort W) comparefn l = Ok sorted ->
  StronglySorted
    (fun a b => newestFirst (tryCatch (timeOf (getTime W) (dateOf a)) None)
                            (tryCatch (timeOf (getTime W) (dateOf b)) None))
    sorted
  /\ forall k,
       filter (fun x => sameKey k (tryCatch (timeOf (getTime W) (dateOf x)) None))
              sorted
       = filter (fun x => sameKey k (tryCatch (timeOf (getTime W) (dateOf x)) None))
                l.
Proof.
  rewrite guarded_sort.
  destruct (Nat.ltb_spec (length l) 2) as [Hlen|Hlen].
  - intros H; injection H as <-. split; [now apply StronglySorted_short|auto].
  - destruct (existsb _ l) eqn:E; [discriminate|].
    intros H; injection H as <-.
    assert (Hall : Forall (fun x => unreadable W (dateOf x) = false) l).
    { apply Forall_forall. intros x Hx.
      destruct (unreadable W (dateOf x)) eqn:Ex; [|reflexivity].
      rewrite <- E. symmetry. apply existsb_exists. eauto. }
    pose proof (@guarded_consistent l Hall) as Hc. split.
    + apply StronglySorted_impl_on
        with (R := notAfter (valuesOf comparefn))
             (P := fun x => unreadable W (dateOf x) = false).
      * intros a b Ha Hb. unfold notAfter. rewrite (@guarded_keys a b Ha Hb).
        unfold newestFirst.
        destruct (tryCatch (timeOf (getTime W) (dateOf a)) None),
                 (tryCatch (timeOf (getTime W) (dateOf b)) None); lia.
      * apply Forall_forall. intros x Hx.
        apply (proj1 (stableSort_In _ _ _)) in Hx.
        now apply (proj1 (Forall_forall _ _) Hall).
      * destruct (consistentOn_order _ _ Hc) as (_ & Htrans & Htotal).
        apply stableSort_sorted with (P := fun x => In x l); auto.
        apply Forall_self.
    + intros k. apply stableSort_ties. intros a b. apply guarded_ties.
Qed.
End Guarded.

(** The comparator of the video handler, a difference of two time
    values. *)
Section Difference.
Variable A : Type.
Variable W : World.
Variable dateOf : A -> value.
Variable comparefn : A -> A -> result (option Z).
Hypothesis comparefn_reads :
  forall a b,
    comparefn a b
    = (tb <- timeOf (getTime W) (dateOf b) ;;
       ta <- timeOf (getTime W) (dateOf a) ;;
       Ok match tb, ta with
          | Some tb, Some ta => Some (tb - ta)
          | _, _ => None
          end)%result.

Lemma difference_returns (a b : A) :
  returns comparefn a b
  = negb (unreadable W (dateOf a)) && negb (unreadable W (dateOf b)).
Proof.
  unfold returns, unreadable. rewrite comparefn_reads.
  destruct (timeOf (getTime W) (dateOf a)),
           (timeOf (getTime W) (dateOf b)); reflexivity.
Qed.

Lemma difference_keys (a b : A) (ta tb : Z) :
  timeOf (getTime W) (dateOf a) = Ok (Some ta) ->
  timeOf (getTime W) (dateOf b) = Ok (Some tb) ->
  sortCompare (valuesOf comparefn) a b = tb - ta.
Proof.
  unfold sortCompare, valuesOf. rewrite comparefn_reads.
  now intros -> ->.
Qed.

Lemma difference_ties (k : option Z) (a b : A) :
  sameKey k (tryCatch (timeOf (getTime W) (dateOf a)) None) = true ->
  sameKey k (tryCatch (timeOf (getTime W) (dateOf b)) None) = true ->
  sortCompare (valuesOf comparefn) a b <= 0.
Proof.
  unfold sortCompare, valuesOf, sameKey. rewrite comparefn_reads.
  destruct k, (timeOf (getTime W) (dateOf a)) as [[ta|]|],
           (timeOf (getTime W) (dateOf b)) as [[tb|]|]; simpl;
    try discriminate; lia.
Qed.

Lemma dated_readable (x : A) :
  tryCatch (timeOf (getTime W) (dateOf x)) None <> None ->
  exists t, timeOf (getTime W) (dateOf x) = Ok (Some t).
Proof.
  destruct (timeOf (getTime W) (dateOf x)) as [[t|]|]; cbn; try congruence.
  eauto.
Qed.

Lemma difference_consistent (l : list A) :
  Forall (fun x => tryCatch (timeOf (getTime W) (dateOf x)) None <> None) l ->
  consistentOn (valuesOf comparefn) l = true.
Proof.
  intros H. rewrite Forall_forall in H.
  apply consistentOn_intro.
  - intros a Ha. destruct (@dated_readable a (H a Ha)) as (ta & Ea).
    rewrite (@difference_keys a a ta ta Ea Ea). lia.
  - intros a b Ha Hb. destruct (@dated_readable a (H a Ha)) as (ta & Ea).
    destruct (@dated_readable b (H b Hb)) as (tb & Eb).
    rewrite (@difference_keys a b ta tb Ea Eb), (@difference_keys b a tb ta Eb Ea). lia.
  - intros a b c Ha Hb Hc. destruct (@dated_readable a (H a Ha)) as (ta & Ea).
    destruct (@dated_readable b (H b Hb)) as (tb & Eb).
    destruct (@dated_readable c (H c Hc)) as (tc & Ec).
    rewrite (@difference_keys a b ta tb Ea Eb), (@difference_keys b c tb tc Eb Ec),
      (@difference_keys a c ta tc Ea Ec). lia.
  - intros a b c Ha Hb Hc. destruct (@dated_readable a (H a Ha)) as (ta & Ea).
    destruct (@dated_readable b (H b Hb)) as (tb & Eb).
    destruct (@dated_readable c (H c Hc)) as (tc & Ec).
    rewrite (@difference_keys a b ta tb Ea Eb), (@difference_keys b c tb tc Eb Ec),
      (@difference_keys a c ta tc Ea Ec). lia.
  - intros a b c Ha Hb Hc. destruct (@dated_readable a (H a Ha)) as (ta & Ea).
    destruct (@dated_readable b (H b Hb)) as (tb & Eb).
    destruct (@dated_readable c (H c Hc)) as (tc & Ec).
    rewrite (@difference_keys a b ta tb Ea Eb), (@difference_keys b c tb tc Eb Ec),
      (@difference_keys a c ta tc Ea Ec). lia.
Qed.

(** The sort throws when there are two elements or more and the date of
    one cannot be read. *)
Lemma difference_sort (l : list A) :
  sort (engineSort W) comparefn l
  = if (length l <? 2)%nat then Ok l
    else if existsb (fun x => unreadable W (dateOf x)) l then Throw
    else Ok (sortTotal (engineSort W) (valuesOf comparefn) l).
Proof.
  exact (sort_keyed (engineSort W) comparefn
           (fun x => unreadable W (dateOf x)) difference_returns l).
Qed.

(** When every date parses, the sort returns, the newest first, the
    elements of one date in the order they had. *)
Lemma difference_sorted (l : list A) :
  Forall (fun x => tryCatch (timeOf (getTime W) (dateOf x)) None <> None) l ->
  sort (engineSort W) comparefn l = Ok (stableSort (valuesOf comparefn) l)
  /\ StronglySorted
       (fun a b => newestFirst (tryCatch (timeOf (getTime W) (dateOf a)) None)
                               (tryCatch (timeOf (getTime W) (dateOf b)) None))
       (stableSort (valuesOf comparefn) l)
  /\ forall k,
       filter (fun x => sameKey k (tryCatch (timeOf (getTime W) (dateOf x)) None))
              (stableSort (valuesOf comparefn) l)
       = filter (fun x => sameKey k (tryCatch (timeOf (getTime W) (dateOf x)) None))
                l.
Proof.
  intros Hall. pose proof (@difference_consistent l Hall) as Hc.
  split; [|split].
  - rewrite sort_returns.
    + now rewrite sortTotal_consistent.
    + intros a b Ha Hb. rewrite difference_returns. unfold unreadable.
      rewrite Forall_forall in Hall.
      destruct (@dated_readable a (Hall a Ha)) as (ta & ->).
      destruct (@dated_readable b (Hall b Hb)) as (tb & ->). reflexivity.
  - apply StronglySorted_impl_on
      with (R := notAfter (valuesOf comparefn))
           (P := fun x => tryCatch (timeOf (getTime W) (dateOf x)) None <> None).
    + intros a b Ha Hb. destruct (@dated_readable a Ha) as (ta & Ea).
      destruct (@dated_readable b Hb) as (tb & Eb).
      unfold notAfter. rewrite (@difference_keys a b ta tb Ea Eb), Ea, Eb.
      cbn. lia.
    + apply Forall_forall. intros x Hx.
      apply (proj1 (stableSort_In _ _ _)) in Hx.
      now apply (proj1 (Forall_forall _ _) Hall).
    + destruct (consistentOn_order _ _ Hc) as (_ & Htrans & Htotal).
      apply stableSort_sorted with (P := fun x => In x l); auto.
      apply Forall_self.
  - intros k. apply stableSort_ties. intros a b. apply difference_ties.
Qed.
End Difference.

End DateFacts.

(* ================================================================== *)
(** * News: facts                                                      *)
(* ================================================================== *)

Module NewsFacts.
Import News JsFacts SortFacts.

Lemma fst_bind {A B} (m : Traced A) (f : A -> Traced B) :
  fst (bind m f) = fst (f (fst m)).
Proof. unfold bind. destruct m as [a t]. simpl. now destruct (f a). Qed.

Lemma snd_bind {A B} (m : Traced A) (f : A -> Traced B) :
  snd (bind m f) = snd m ++ snd (f (fst m)).
Proof. unfold bind. destruct m as [a t]. simpl. now destruct (f a). Qed.

Lemma fst_mapT {A B} (f : A -> Traced B) (l : list A) :
  fst (mapT f l) = map (fun x => fst (f x)) l.
Proof.
  induction l as [|x l IH]; simpl; [reflexivity|].
  rewrite fst_bind, fst_bind. simpl. now rewrite IH.
Qed.

Lemma snd_mapT {A B} (f : A -> Traced B) (l : list A) :
  snd (mapT f l) = concat (map (fun x => snd (f x)) l).
Proof.
  induction l as [|x l IH]; simpl; [reflexivity|].
  rewrite snd_bind, snd_bind. simpl. now rewrite app_nil_r, IH.
Qed.

(** *** [fetchRSSFeed] *)

Lemma fetchRSSFeed_requests (W : World) (url : jstring) :
  snd (fetchRSSFeed W url) = [url].
Proof. unfold fetchRSSFeed. rewrite snd_bind. reflexivity. Qed.

Lemma feeds_requests (W : World) (urls : list jstring) :
  snd (mapT (fetchRSSFeed W) urls) = urls.
Proof.
  rewrite snd_mapT. induction urls as [|u urls IH]; [reflexivity|].
  cbn [map concat]. now rewrite fetchRSSFeed_requests, IH.
Qed.

Lemma fetchRSSFeed_fails (W : World) (url : jstring) :
  feedFails W url -> fst (fetchRSSFeed W url) = [].
Proof.
  unfold feedFails, fetchRSSFeed. rewrite fst_bind. simpl.
  destruct (fetch W url) as [|[|] xmlText]; simpl; try reflexivity.
  now intros ->.
Qed.

(** The flag is always written by the normalizer. *)
Lemma toNewsItem_needsImage (domain : jstring) (item : value) (it : NewsItem) :
  toNewsItem domain item = Ok it ->
  needsImage it = Some (negb (truthy (image it)) && truthy (link it)).
Proof.
  unfold toNewsItem, field. intros H.
  destruct (getProp (lit "title") item); simpl in H; [|discriminate].
  destruct (getProp (lit "link") item); simpl in H; [|discriminate].
  destruct (getProp (lit "pubDate") item); simpl in H; [|discriminate].
  destruct (getProp (lit "guid") item); simpl in H; [|discriminate].
  destruct (getProp (lit "content:encoded") item); simpl in H; [|discriminate].
  destruct (callTrim _); simpl in H; [|discriminate].
  destruct (getProp (lit "description") item); simpl in H; [|discriminate].
  destruct (getProp (lit "media:content") item); simpl in H; [|discriminate].
  injection H as <-. reflexivity.
Qed.

(** What a feed gives has passed the filter. *)
Lemma fetchRSSFeed_items (W : World) (url : jstring) :
  Forall (fun it => hasTitleAndLink it = true
                    /\ needsImage it
                       = Some (negb (truthy (image it)) && truthy (link it)))
         (fst (fetchRSSFeed W url)).
Proof.
  unfold fetchRSSFeed. rewrite fst_bind. simpl.
  destruct (fetch W url) as [|[|] xmlText]; simpl; try constructor.
  destruct (parseXML W xmlText) as [res|]; simpl; [|constructor].
  destruct (hostname W url) as [dom|]; simpl; [|constructor].
  destruct (asArray _) as [entries|]; simpl; [|constructor].
  destruct (rmap (toNewsItem dom) entries) as [newsItems|] eqn:E; simpl;
    [|constructor].
  apply Forall_forall. intros it Hin.
  apply filter_In in Hin as [Hin Hf]. split; [exact Hf|].
  apply (rmap_Forall (toNewsItem dom)
           (fun it => needsImage it
                      = Some (negb (truthy (image it)) && truthy (link it))))
    in E; [|apply toNewsItem_needsImage].
  now apply (proj1 (Forall_forall _ _) E).
Qed.

(** *** [enrichItemsWithImages] *)

Lemma fetchOGImageFromPage_image (W : World) (link : value) :
  fst (fetchOGImageFromPage W link)
  = match pageOf W link with
    | Response true html =>
      match News.matchOgImage html with
      | Some (c :: g) => VStr (c :: g)
      | _ => VNull
      end
    | _ => VNull
    end.
Proof.
  unfold fetchOGImageFromPage, pageOf.
  destruct (toStr link) as [url|]; [|reflexivity].
  rewrite fst_bind. simpl.
  destruct (fetch W url) as [|[|] html]; try reflexivity.
  destruct (News.matchOgImage html) as [[|c g]|]; reflexivity.
Qed.


Lemma enrich_cons (W : World) (a : NewsItem) (l : list NewsItem) :
  enrichItemsWithImages W (a :: l)
  = bind (if skipsEnrichment a then ret a
          else bind (fetchOGImageFromPage W (link a)) (fun image =>
               ret {| title := title a;
                      link := link a;
                      description := description a;
                      pubDate := pubDate a;
                      guid := guid a;
                      image := orElse image (VStr []);
                      domain := domain a;
                      needsImage := Some false |}))
         (fun y => bind (enrichItemsWithImages W l) (fun ys => ret (y :: ys))).
Proof. reflexivity. Qed.

Lemma skipsEnrichment_flagged (a : NewsItem) :
  truthy (link a) = true -> skipsEnrichment a = negb (flagged a).
Proof.
  unfold skipsEnrichment, flagged. intros ->. now rewrite orb_false_r.
Qed.

Lemma enrich_spec (W : World) (l : list NewsItem) :
  Forall (fun it => truthy (link it) = true) l ->
  Forall2 (enrichesTo W) l (fst (enrichItemsWithImages W l)).
Proof.
  induction 1 as [|a l Ha _ IH]; [constructor|].
  rewrite enrich_cons, fst_bind, fst_bind. cbn [fst ret].
  constructor; [|exact IH].
  unfold enrichesTo. rewrite (skipsEnrichment_flagged _ Ha).
  destruct (negb (flagged a)); [reflexivity|].
  rewrite fst_bind. cbn [fst ret]. rewrite fetchOGImageFromPage_image.
  split; [repeat split|]. split; [reflexivity|]. cbn [image]. split.
  - unfold noOgImage.
    destruct (pageOf W (link a)) as [|[|] html]; try reflexivity.
    now intros ->.
  - intros html c g -> ->. reflexivity.
Qed.


(** *** [GET] *)

Lemma GET_answer (W : World) (urls : list jstring) (request : Request)
      (aggregate : list NewsItem) :
  newsAggregate W urls = Ok aggregate ->
  fst (GET W (Ok urls) request)
  = Json200
      {| items := fst (enrichItemsWithImages W (newsPage W urls request));
         hasMore := ltb (add (offsetOf request) (limitOf request))
                        (ofZ (Z.of_nat (length aggregate)));
         total := length aggregate |}.
Proof.
  unfold GET, newsPage, newsAggregate, newsFeeds. intros E.
  rewrite fst_bind, fst_mapT, E, fst_bind. reflexivity.
Qed.

(** When the sort throws, the handler answers the error body, having
    asked for the feeds and for nothing else. *)
Lemma GET_fails (W : World) (urls : list jstring) (request : Request) :
  newsAggregate W urls = Throw ->
  GET W (Ok urls) request = (Json500 (lit "Failed to fetch RSS feeds"), urls).
Proof.
  unfold newsAggregate, newsFeeds. intros E.
  rewrite (surjective_pairing (GET W (Ok urls) request)).
  unfold GET. rewrite fst_bind, snd_bind, fst_mapT, feeds_requests, E.
  cbn [fst snd ret]. now rewrite app_nil_r.
Qed.

Lemma GET_items (W : World) (urls : list jstring) (request : Request) :
  itemsOf (fst (GET W (Ok urls) request))
  = fst (enrichItemsWithImages W (newsPage W urls request)).
Proof.
  destruct (newsAggregate W urls) as [aggregate|] eqn:E.
  - now rewrite (GET_answer W urls request E).
  - rewrite (GET_fails W urls request E). unfold newsPage. now rewrite E.
Qed.


(** Every item of the aggregate came out of a feed, and is dated. *)
Lemma aggregate_items (W : World) (urls : list jstring)
      (aggregate : list NewsItem) (it : NewsItem) :
  newsAggregate W urls = Ok aggregate ->
  In it aggregate ->
  hasTitleAndLink it = true /\ truthy (pubDate it) = true
  /\ needsImage it = Some (negb (truthy (image it)) && truthy (link it)).
Proof.
  unfold newsAggregate, allItems, newsFeeds. intros E H.
  apply (proj1 (sort_In _ _ _ it E)) in H. apply filter_In in H as [H Hd].
  apply in_concat in H as (feed & Hfeed & Hin).
  apply in_map_iff in Hfeed as (u & <- & _).
  pose proof (proj1 (Forall_forall _ _) (fetchRSSFeed_items W u) _ Hin) as [H1 H2].
  auto.
Qed.

Lemma page_items (W : World) (urls : list jstring) (request : Request)
      (it : NewsItem) :
  In it (newsPage W urls request) ->
  hasTitleAndLink it = true /\ truthy (pubDate it) = true
  /\ needsImage it = Some (negb (truthy (image it)) && truthy (link it)).
Proof.
  unfold newsPage. destruct (newsAggregate W urls) as [aggregate|] eqn:E;
    [|intros []].
  intros H. apply slice_incl in H.
  exact (@aggregate_items W urls aggregate it E H).
Qed.

Lemma page_links (W : World) (urls : list jstring) (request : Request) :
  Forall (fun it => truthy (link it) = true) (newsPage W urls request).
Proof.
  apply Forall_forall. intros it H. apply page_items in H as [H _].
  now apply andb_true_iff in H as [_ H].
Qed.

End NewsFacts.

(* ================================================================== *)
(** * Product: facts                                                   *)
(* ================================================================== *)

Module ProductFacts.
Import Product JsFacts SortFacts.

(** *** The selector loop *)

Lemma priceLoop_miss (d : Doc) (selectors : list jstring) (price : jstring) :
  Forall (fun selector => hasMarker (priceText d selector) = false) selectors ->
  priceLoop d selectors price = price.
Proof.
  induction 1 as [|selector rest Hs _ IH]; simpl; [reflexivity|].
  unfold priceText in Hs. now rewrite Hs.
Qed.

Lemma priceLoop_hit (d : Doc) (before : list jstring) (selector : jstring)
      (after : list jstring) (price : jstring) :
  Forall (fun selector => hasMarker (priceText d selector) = false) before ->
  hasMarker (priceText d selector) = true ->
  priceLoop d (before ++ selector :: after) price
  = orStr (matchPrice (priceText d selector)) (priceText d selector).
Proof.
  intros Hb Hs. induction Hb as [|s0 before H0 _ IH]; simpl.
  - unfold priceText in Hs. now rewrite Hs.
  - unfold priceText in H0. now rewrite H0.
Qed.

Lemma extractPrice_chain (d : Doc) (domain : jstring) :
  extractPrice d domain
  = match chainOf domain with
    | Some chain => priceLoop d chain priceNotAvailable
    | None => priceNotAvailable
    end.
Proof.
  unfold extractPrice, chainOf.
  destruct (includes (lit "pickaboo") domain); [reflexivity|].
  destruct (includes (lit "daraz") domain); reflexivity.
Qed.

(** *** [scrapeProductDataFast] *)

Lemma scrape_product (W : World) (u : value) (dom : jstring) (p : Product) :
  scrapeProductDataFast W u dom = Some p ->
  exists data,
    axiosGet W u = Some data
    /\ price p = extractPrice (cheerioLoad W data) dom
    /\ title p <> [] /\ url p = u /\ domain p = dom.
Proof.
  unfold scrapeProductDataFast. intros H.
  destruct (axiosGet W u) as [data|]; [|discriminate].
  exists data. split; [reflexivity|].
  set (ogTitle := orStr _ _) in H.
  destruct (trim ogTitle) as [|c t] eqn:Et; [discriminate|].
  destruct (base64 W u); [|discriminate].
  injection H as <-. cbn [price title url domain].
  repeat split.
  destruct ogTitle as [|c0 t0]; [discriminate Et|]. discriminate.
Qed.

(** *** [fetchSitemapFast] *)

Lemma fetchSitemapFast_fails (W : World) (sitemapUrl : jstring) :
  sitemapFails W sitemapUrl -> fetchSitemapFast W sitemapUrl = [].
Proof.
  unfold sitemapFails, fetchSitemapFast.
  destruct (axiosGet W (VStr sitemapUrl)); [|reflexivity].
  now intros ->.
Qed.

Lemma pushedLoc_truthy (urlEntry : value) (l : list value) :
  pushedLoc urlEntry = Ok l -> Forall (fun u => truthy u = true) l.
Proof.
  unfold pushedLoc. destruct (getProp (lit "loc") urlEntry) as [loc|]; simpl;
    [|discriminate].
  destruct (truthy loc).
  - destruct (getFirst loc) as [loc0|]; simpl; [|discriminate].
    destruct (truthy loc0) eqn:E; intros H; injection H as <-; auto.
  - intros H; injection H as <-; auto.
Qed.

Lemma fetchSitemapFast_truthy (W : World) (sitemapUrl : jstring) :
  Forall (fun u => truthy u = true) (fetchSitemapFast W sitemapUrl).
Proof.
  unfold fetchSitemapFast.
  destruct (axiosGet W (VStr sitemapUrl)) as [data|]; [|constructor].
  destruct (parseXML W data) as [res|]; cbn [rbind tryCatch]; [|constructor].
  destruct (truthy _); cbn [rbind tryCatch]; [|constructor].
  destruct (asArray _) as [l|]; cbn [rbind tryCatch]; [|constructor].
  destruct (rmap pushedLoc l) as [pushed|] eqn:E; cbn [rbind tryCatch]; [|constructor].
  apply firstn_Forall.
  apply (rmap_Forall pushedLoc (Forall (fun u => truthy u = true))) in E;
    [|apply pushedLoc_truthy].
  apply Forall_forall. intros u Hu.
  apply in_concat in Hu as (l0 & Hl0 & Hu).
  pose proof (proj1 (Forall_forall _ _) E _ Hl0) as Hall.
  now apply (proj1 (Forall_forall _ _) Hall).
Qed.

Lemma nonNull_In {A} (l : list (option A)) (a : A) :
  In a (nonNull l) <-> In (Some a) l.
Proof.
  induction l as [|[b|] l IH]; simpl; [tauto| |].
  - rewrite IH. split; intros [H|H]; auto; left; congruence.
  - rewrite IH. split; [auto|]. intros [H|H]; [discriminate|auto].
Qed.

(** Where a product of a source comes from. *)
Lemma productsOf_In (W : World) (source : ProductSource) (p : Product) :
  In p (productsOf W source) ->
  exists u, truthy u = true
            /\ scrapeProductDataFast W u (sourceDomain source) = Some p.
Proof.
  unfold productsOf. intros H. apply nonNull_In in H.
  apply in_map_iff in H as (u & Hu & Hin).
  exists u. split; [|exact Hu].
  assert (Hall := firstn_Forall 15 (fetchSitemapFast_truthy W (sitemap source))).
  now apply (proj1 (Forall_forall _ _) Hall).
Qed.

Lemma allProducts_In (W : World) (sources : list ProductSource) (p : Product) :
  In p (allProducts W sources) ->
  exists source, In source sources /\ In p (productsOf W source).
Proof.
  unfold allProducts. intros H. apply (proj1 (sortTotal_In _ _ _ _)) in H.
  apply in_concat in H as (l & Hl & Hp).
  apply in_map_iff in Hl as (source & <- & Hs). eauto.
Qed.

Lemma productsOf_fails (W : World) (source : ProductSource) :
  sitemapFails W (sitemap source) -> productsOf W source = [].
Proof. unfold productsOf. intros H. now rewrite fetchSitemapFast_fails. Qed.

End ProductFacts.

(* ================================================================== *)
(** * Videos: facts                                                    *)
(* ================================================================== *)

Module VideosFacts.
Import Videos JsFacts SortFacts.

Lemma videosOf_fails (W : World) (channelId : jstring) :
  feedFails W (feedUrl channelId) -> videosOf W channelId = [].
Proof.
  unfold feedFails, videosOf.
  destruct (fetch W (feedUrl channelId)) as [|[|] xmlText]; try reflexivity.
  now intros ->.
Qed.

(** The thumbnail is a function of the video identifier, which has a
    string form whenever there is an item. *)
Lemma toVideoItem_thumbnail (entry : value) (v : VideoItem) :
  toVideoItem entry = Ok v ->
  at0 "yt:videoId" entry = Ok (videoId v)
  /\ exists inThumbnail,
       toStr (videoId v) = Ok inThumbnail
       /\ thumbnail v
          = lit "https://i.ytimg.com/vi/" ++ inThumbnail ++ lit "/mqdefault.jpg".
Proof.
  unfold toVideoItem. intros H.
  destruct (at0 "id" entry); simpl in H; [|discriminate].
  destruct (at0 "yt:videoId" entry) as [vid|]; simpl in H; [|discriminate].
  destruct (at0 "title" entry); simpl in H; [|discriminate].
  destruct (toStr vid) as [inThumbnail|] eqn:Es; simpl in H; [|discriminate].
  destruct (at0 "author" entry) as [author|]; simpl in H; [|discriminate].
  destruct (at0 "name" author); simpl in H; [|discriminate].
  destruct (at0 "published" entry); simpl in H; [|discriminate].
  destruct (at0 "media:group" entry) as [group|]; simpl in H; [|discriminate].
  destruct (at0 "media:community" group) as [community|]; simpl in H;
    [|discriminate].
  destruct (at0 "media:statistics" community) as [stats|]; simpl in H;
    [|discriminate].
  destruct (viewsOf stats); simpl in H; [|discriminate].
  injection H as <-. split; [reflexivity|]. exists inThumbnail. split;
    [exact Es|reflexivity].
Qed.

(** Without a [media:statistics] member there is no item: reading its
    first element throws. *)
Lemma toVideoItem_no_statistics (entry group community : value) :
  at0 "media:group" entry = Ok group ->
  at0 "media:community" group = Ok community ->
  getProp (lit "media:statistics") community = Ok VUndef ->
  toVideoItem entry = Throw.
Proof.
  unfold toVideoItem. intros Hg Hc Hs.
  destruct (at0 "id" entry); simpl; [|reflexivity].
  destruct (at0 "yt:videoId" entry) as [vid|]; simpl; [|reflexivity].
  destruct (at0 "title" entry); simpl; [|reflexivity].
  destruct (toStr vid); simpl; [|reflexivity].
  destruct (at0 "author" entry) as [author|]; simpl; [|reflexivity].
  destruct (at0 "name" author); simpl; [|reflexivity].
  destruct (at0 "published" entry); simpl; [|reflexivity].
  rewrite Hg; simpl. rewrite Hc; simpl.
  unfold at0 at 1. rewrite Hs. reflexivity.
Qed.

(** The chain stops, and the default applies, when the member is there
    and its first element is not. *)
Lemma viewsOf_nullish (stats : value) :
  nullish stats = true ->
  viewsOf stats = Ok VUndef /\ orElse VUndef (VStr (lit "0")) = VStr (lit "0").
Proof. unfold viewsOf. intros ->. split; reflexivity. Qed.

End VideosFacts.

(* ================================================================== *)
(** * Pagination                                                       *)
(* ================================================================== *)

Import JsFacts SortFacts.

Lemma ltb_window (o n len : nat) :
  ltb (add (ofZ (Z.of_nat o)) (ofZ (Z.of_nat n))) (ofZ (Z.of_nat len))
  = (o + n <? len)%nat.
Proof.
  rewrite ltb_add_ofZ.
  destruct (Z.ltb_spec (Z.of_nat o + Z.of_nat n) (Z.of_nat len)),
           (Nat.ltb_spec (o + n) len); try reflexivity; exfalso; lia.
Qed.

Lemma enrichesTo_same (W : World) (a b : News.NewsItem) :
  enrichesTo W a b -> sameButImage a b.
Proof.
  unfold enrichesTo. destruct (negb (flagged a)).
  - intros ->. repeat split.
  - now intros [H _].
Qed.

Lemma Forall2_impl {A B} (R S : A -> B -> Prop) (l : list A) (l' : list B) :
  (forall a b, R a b -> S a b) -> Forall2 R l l' -> Forall2 S l l'.
Proof. intros HRS H. induction H; constructor; auto. Qed.

Lemma window_links (W : World) (urls : list jstring)
      (aggregate : list News.NewsItem) (o n : nat) :
  newsAggregate W urls = Ok aggregate ->
  Forall (fun it => truthy (News.link it) = true)
         (firstn n (skipn o aggregate)).
Proof.
  intros E. apply firstn_Forall.
  assert (H : Forall (fun it => truthy (News.link it) = true) aggregate).
  { apply Forall_forall. intros it Hin.
    destruct (@NewsFacts.aggregate_items W urls aggregate it E Hin) as [Hin' _].
    now apply andb_true_iff in Hin' as [_ Hin']. }
  rewrite <- (firstn_skipn o aggregate) in H.
  now apply Forall_app in H as [_ H].
Qed.

(** C1, as stated, at the news endpoint: with the default offset 0 and
    limit 30 the page it returns is not the slice [[0, 30)] of its
    aggregate, since the first item comes back enriched. *)
Lemma news_page_is_not_the_slice :
  exists aggregate,
    newsAggregate newsWorld newsUrls = Ok aggregate
    /\ itemsOf (fst (News.GET newsWorld (Ok newsUrls) noParams))
       <> firstn 30 (skipn 0 aggregate).
Proof.
  eexists. split; [vm_compute; reflexivity|].
  intros H. apply (f_equal (map News.needsImage)) in H.
  vm_compute in H. discriminate H.
Qed.

(** A date with an attribute is an object for the parser, and the sort
    over it throws: the news handlers and the video handler answer the
    error body. *)
Example unreadable_date_run :
  News.GET MoreSamples.stampedWorld (Ok [lit "https://d.example/rss"]) noParams
  = (Json500 (lit "Failed to fetch RSS feeds"), [lit "https://d.example/rss"])
  /\ NewsPlain.GET MoreSamples.stampedWorld (Ok [lit "https://d.example/rss"])
                   noParams
     = Json500 (lit "Failed to fetch RSS feeds")
  /\ Videos.GET (videoWorld MoreSamples.stampedVideos) (Ok [lit "UC1"]) noParams
     = Json500 (lit "Failed to fetch videos").
Proof. repeat split; vm_compute; reflexivity. Qed.

(** C1, amended.  For valid [offset] and [limit] (the numbers [o] and [n])
    every handler that gets through its sort returns [total] equal to the
    length of its full aggregate and [hasMore] equal to [o + n < total].
    The product and the video handlers return the aggregate sliced at
    [[o, o + n)]; the news handler returns that slice passed through the
    enrichment pass, which leaves every member but [image] and
    [needsImage] as it was.  The sort of the product handler always
    returns; where the sort of the news or of the video handler throws,
    the handler answers the error body. *)
Theorem pagination_window (W : World) (request : Request) (o n : nat) :
  (forall urls aggregate,
      newsAggregate W urls = Ok aggregate ->
      News.offsetOf request = ofZ (Z.of_nat o) ->
      News.limitOf request = ofZ (Z.of_nat n) ->
      let window := firstn n (skipn o aggregate) in
      fst (News.GET W (Ok urls) request)
      = Json200 {| items := fst (News.enrichItemsWithImages W window);
                   hasMore := (o + n <? length aggregate)%nat;
                   total := length aggregate |}
      /\ Forall2 sameButImage window (fst (News.enrichItemsWithImages W window)))
  /\ (forall sources,
         Product.offsetOf request = ofZ (Z.of_nat o) ->
         Product.limitOf request = ofZ (Z.of_nat n) ->
         let aggregate := Product.allProducts W sources in
         Product.GET W (Ok sources) request
         = Json200 {| items := firstn n (skipn o aggregate);
                      hasMore := (o + n <? length aggregate)%nat;
                      total := length aggregate |})
  /\ (forall channelIds aggregate,
         Videos.sortedVideos W channelIds = Ok aggregate ->
         Videos.offsetOf W request = ofZ (Z.of_nat o) ->
         Videos.limitOf W request = ofZ (Z.of_nat n) ->
         Videos.GET W (Ok channelIds) request
         = Json200 {| items := firstn n (skipn o aggregate);
                      hasMore := (o + n <? length aggregate)%nat;
                      total := length aggregate |})
  /\ (forall urls,
         newsAggregate W urls = Throw ->
         fst (News.GET W (Ok urls) request)
         = Json500 (lit "Failed to fetch RSS feeds"))
  /\ (forall channelIds,
         Videos.sortedVideos W channelIds = Throw ->
         Videos.GET W (Ok channelIds) request
         = Json500 (lit "Failed to fetch videos")).
Proof.
  split; [|split; [|split; [|split]]].
  - intros urls aggregate E Ho Hn. split.
    + rewrite (@NewsFacts.GET_answer W urls request aggregate E).
      unfold newsPage. rewrite E, Ho, Hn, slice_window, ltb_window. reflexivity.
    + apply Forall2_impl with (R := enrichesTo W); [apply enrichesTo_same|].
      apply NewsFacts.enrich_spec. exact (@window_links W urls aggregate o n E).
  - intros sources Ho Hn. unfold Product.GET.
    rewrite Ho, Hn, slice_window, ltb_window. reflexivity.
  - intros channelIds aggregate E Ho Hn. unfold Videos.GET.
    rewrite E, Ho, Hn, slice_window, ltb_window. reflexivity.
  - intros urls E. now rewrite (@NewsFacts.GET_fails W urls request E).
  - intros channelIds E. unfold Videos.GET. now rewrite E.
Qed.

Lemma pagination_window_witness :
  (newsAggregate newsWorld newsUrls
   = Ok (tryCatch (newsAggregate newsWorld newsUrls) [])
   /\ News.offsetOf (params "0" "1") = ofZ (Z.of_nat 0)
   /\ News.limitOf (params "0" "1") = ofZ (Z.of_nat 1)
   /\ fst (News.GET newsWorld (Ok newsUrls) (params "0" "1"))
      = Json200
          {| items := fst (News.enrichItemsWithImages newsWorld
                             (firstn 1 (skipn 0
                                (tryCatch (newsAggregate newsWorld newsUrls) []))));
             hasMore := (0 + 1 <? length (tryCatch (newsAggregate newsWorld
                                                      newsUrls) []))%nat;
             total := length (tryCatch (newsAggregate newsWorld newsUrls) []) |})
  /\ (Product.offsetOf (params "0" "1") = ofZ (Z.of_nat 0)
      /\ Product.limitOf (params "0" "1") = ofZ (Z.of_nat 1)
      /\ Product.GET shopWorld (Ok [shop "pickaboo.example"]) (params "0" "1")
         = Json200
             {| items := firstn 1 (skipn 0 (Product.allProducts shopWorld
                                              [shop "pickaboo.example"]));
                hasMore := (0 + 1 <? length (Product.allProducts shopWorld
                                               [shop "pickaboo.example"]))%nat;
                total := length (Product.allProducts shopWorld
                                   [shop "pickaboo.example"]) |})
  /\ (Videos.sortedVideos (videoWorld undatedFirst) [lit "UC1"]
      = Ok (tryCatch (Videos.sortedVideos (videoWorld undatedFirst) [lit "UC1"])
                     [])
      /\ Videos.offsetOf (videoWorld undatedFirst) (params "0" "1") = ofZ (Z.of_nat 0)
      /\ Videos.limitOf (videoWorld undatedFirst) (params "0" "1") = ofZ (Z.of_nat 1)
      /\ Videos.GET (videoWorld undatedFirst) (Ok [lit "UC1"]) (params "0" "1")
         = Json200
             {| items := firstn 1 (skipn 0
                           (tryCatch (Videos.sortedVideos
                                        (videoWorld undatedFirst) [lit "UC1"]) []));
                hasMore := (0 + 1 <? length (tryCatch
                                               (Videos.sortedVideos
                                                  (videoWorld undatedFirst)
                                                  [lit "UC1"]) []))%nat;
                total := length (tryCatch (Videos.sortedVideos
                                             (videoWorld undatedFirst)
                                             [lit "UC1"]) []) |})
  /\ (newsAggregate MoreSamples.stampedWorld [lit "https://d.example/rss"] = Throw
      /\ fst (News.GET MoreSamples.stampedWorld (Ok [lit "https://d.example/rss"])
                (params "0" "1"))
         = Json500 (lit "Failed to fetch RSS feeds")).
Proof.
  assert (En : newsAggregate newsWorld newsUrls
               = Ok (tryCatch (newsAggregate newsWorld newsUrls) []))
    by (vm_compute; reflexivity).
  assert (Ev : Videos.sortedVideos (videoWorld undatedFirst) [lit "UC1"]
               = Ok (tryCatch (Videos.sortedVideos (videoWorld undatedFirst)
                                 [lit "UC1"]) []))
    by (vm_compute; reflexivity).
  assert (Es : newsAggregate MoreSamples.stampedWorld [lit "https://d.example/rss"]
               = Throw)
    by (vm_compute; reflexivity).
  split; [|split; [|split]].
  - split; [exact En|]. split; [reflexivity|]. split; [reflexivity|].
    exact (proj1 (proj1 (pagination_window newsWorld (params "0" "1") 0 1)
                    newsUrls _ En eq_refl eq_refl)).
  - split; [reflexivity|]. split; [reflexivity|].
    exact (proj1 (proj2 (pagination_window shopWorld (params "0" "1") 0 1))
             [shop "pickaboo.example"] eq_refl eq_refl).
  - split; [exact Ev|]. split; [reflexivity|]. split; [reflexivity|].
    exact (proj1 (proj2 (proj2 (pagination_window (videoWorld undatedFirst)
                                  (params "0" "1") 0 1)))
             [lit "UC1"] _ Ev eq_refl eq_refl).
  - split; [exact Es|].
    exact (proj1 (proj2 (proj2 (proj2 (pagination_window MoreSamples.stampedWorld
                                         (params "0" "1") 0 1))))
             [lit "https://d.example/rss"] Es).
Defined.

(* ================================================================== *)
(** * The enrichment pass                                              *)
(* ================================================================== *)



Example enrichment_run :
  snd (News.GET newsWorld (Ok newsUrls) noParams)
  = [ lit "https://news.example/rss"; lit "https://down.example/rss";
      lit "https://news.example/1" ].
Proof. vm_compute. reflexivity. Qed.

(** C9, as stated, at the sample feed: the items of the answer are not
    free of the member [needsImage]. *)
Lemma needsImage_is_serialized :
  ~ Forall needsImageAbsent
      (itemsOf (fst (News.GET newsWorld (Ok newsUrls) noParams))).
Proof.
  intros H.
  destruct (itemsOf (fst (News.GET newsWorld (Ok newsUrls) noParams)))
    as [|it rest] eqn:E; [vm_compute in E; discriminate E|].
  apply Forall_inv in H. apply (H (VBool false)).
  vm_compute in E. injection E as <- _.
  vm_compute. do 7 right. left. reflexivity.
Qed.

Lemma toJSON_needsImage (it : News.NewsItem) (b : bool) :
  News.needsImage it = Some b ->
  In (lit "needsImage", VBool b) (News.toJSON it).
Proof.
  intros H. unfold News.toJSON. apply filter_In. split; [|reflexivity].
  rewrite H. do 7 right. left. reflexivity.
Qed.

Lemma enriched_flag (W : World) (a b : News.NewsItem) :
  (exists x, News.needsImage a = Some x) ->
  enrichesTo W a b -> News.needsImage b = Some false.
Proof.
  unfold enrichesTo, flagged. intros [x Hx]. rewrite Hx.
  destruct x; cbn [negb].
  - now intros (_ & H & _).
  - now intros ->.
Qed.

(** C9, amended.  The flag is not dropped from the answer: every item of
    every answer of the news handler carries the member [needsImage], and
    its value there is always [false]. *)
Theorem needsImage_is_false_in_every_answer
        (W : World) (urls : list jstring) (request : Request) :
  Forall (fun it => News.needsImage it = Some false
                    /\ In (lit "needsImage", VBool false) (News.toJSON it))
         (itemsOf (fst (News.GET W (Ok urls) request))).
Proof.
  rewrite NewsFacts.GET_items.
  pose proof (NewsFacts.enrich_spec W (NewsFacts.page_links W urls request)) as H.
  assert (Hflag : Forall (fun a => exists x, News.needsImage a = Some x)
                         (newsPage W urls request)).
  { apply Forall_forall. intros a Ha.
    apply NewsFacts.page_items in Ha as (_ & _ & Ha). eauto. }
  induction H as [|a b l l' Hab _ IH]; [constructor|].
  apply Forall_cons_iff in Hflag as [Ha Hl].
  constructor; [|now apply IH].
  assert (Hb : News.needsImage b = Some false) by now apply (enriched_flag W a).
  split; [exact Hb|]. now apply toJSON_needsImage.
Qed.

(* ================================================================== *)
(** * Source isolation                                                 *)
(* ================================================================== *)

Lemma concat_map_without {A B} (f : A -> list B) (before : list A) (x : A)
      (after : list A) :
  f x = [] ->
  concat (map f (before ++ x :: after)) = concat (map f (before ++ after)).
Proof.
  intros Hx. rewrite !map_app, !concat_app. cbn [map concat]. now rewrite Hx.
Qed.

Lemma newsAggregate_without (W : World) (before : list jstring) (url : jstring)
      (after : list jstring) :
  feedFails W url ->
  newsAggregate W (before ++ url :: after) = newsAggregate W (before ++ after).
Proof.
  intros H. unfold newsAggregate, News.allItems, newsFeeds.
  rewrite (concat_map_without (fun u => fst (News.fetchRSSFeed W u)));
    [reflexivity|].
  now apply NewsFacts.fetchRSSFeed_fails.
Qed.

Lemma newsAnswer_without (W : World) (before : list jstring) (url : jstring)
      (after : list jstring) (request : Request) :
  feedFails W url ->
  fst (News.GET W (Ok (before ++ url :: after)) request)
  = fst (News.GET W (Ok (before ++ after)) request).
Proof.
  intros H. pose proof (newsAggregate_without W before url after H) as E.
  destruct (newsAggregate W (before ++ after)) as [aggregate|] eqn:Ea.
  - rewrite (@NewsFacts.GET_answer W _ request aggregate E),
      (@NewsFacts.GET_answer W _ request aggregate Ea).
    unfold newsPage. now rewrite E, Ea.
  - now rewrite (@NewsFacts.GET_fails W _ request E),
      (@NewsFacts.GET_fails W _ request Ea).
Qed.

(** C3.  A source that fails (no answer, a status that is not a success,
    or a body the XML parser rejects) contributes the empty list, and the
    handler answers what it answers without that source: the aggregate,
    and with it the whole answer, is the one of the remaining sources.  No
    exception comes from the failing source: where the sort over the
    remaining sources returns, and always for the products, the answer is
    a body, not an error. *)
Theorem failing_source_is_isolated (W : World) (request : Request) :
  (forall before url after,
      feedFails W url ->
      fst (News.fetchRSSFeed W url) = []
      /\ newsAggregate W (before ++ url :: after)
         = newsAggregate W (before ++ after)
      /\ fst (News.GET W (Ok (before ++ url :: after)) request)
         = fst (News.GET W (Ok (before ++ after)) request)
      /\ forall aggregate,
           newsAggregate W (before ++ after) = Ok aggregate ->
           exists body,
             fst (News.GET W (Ok (before ++ url :: after)) request) = Json200 body)
  /\ (forall before source after,
         sitemapFails W (Product.sitemap source) ->
         Product.productsOf W source = []
         /\ Product.allProducts W (before ++ source :: after)
            = Product.allProducts W (before ++ after)
         /\ Product.GET W (Ok (before ++ source :: after)) request
            = Product.GET W (Ok (before ++ after)) request
         /\ exists body,
              Product.GET W (Ok (before ++ source :: after)) request
              = Json200 body)
  /\ (forall before channelId after,
         feedFails W (Videos.feedUrl channelId) ->
         Videos.videosOf W channelId = []
         /\ Videos.sortedVideos W (before ++ channelId :: after)
            = Videos.sortedVideos W (before ++ after)
         /\ Videos.GET W (Ok (before ++ channelId :: after)) request
            = Videos.GET W (Ok (before ++ after)) request
         /\ forall aggregate,
              Videos.sortedVideos W (before ++ after) = Ok aggregate ->
              exists body,
                Videos.GET W (Ok (before ++ channelId :: after)) request
                = Json200 body).
Proof.
  split; [|split].
  - intros before url after H.
    pose proof (newsAggregate_without W before url after H) as E.
    split; [now apply NewsFacts.fetchRSSFeed_fails|].
    split; [exact E|].
    split; [now apply newsAnswer_without|].
    intros aggregate Ea. rewrite <- E in Ea.
    rewrite (@NewsFacts.GET_answer W _ request aggregate Ea). eauto.
  - intros before source after H.
    assert (E : Product.allProducts W (before ++ source :: after)
                = Product.allProducts W (before ++ after)).
    { unfold Product.allProducts.
      rewrite (concat_map_without (Product.productsOf W)); [reflexivity|].
      now apply ProductFacts.productsOf_fails. }
    split; [now apply ProductFacts.productsOf_fails|].
    split; [exact E|].
    unfold Product.GET. rewrite E. eauto.
  - intros before channelId after H.
    assert (E : Videos.sortedVideos W (before ++ channelId :: after)
                = Videos.sortedVideos W (before ++ after)).
    { unfold Videos.sortedVideos.
      rewrite (concat_map_without (Videos.videosOf W)); [reflexivity|].
      now apply VideosFacts.videosOf_fails. }
    split; [now apply VideosFacts.videosOf_fails|].
    split; [exact E|].
    split; [unfold Videos.GET; now rewrite E|].
    intros aggregate Ea. unfold Videos.GET. rewrite E, Ea. eauto.
Qed.

Lemma failing_source_is_isolated_witness :
  (feedFails newsWorld (lit "https://down.example/rss")
   /\ newsAggregate newsWorld ([lit "https://news.example/rss"] ++ [])
      = Ok (tryCatch (newsAggregate newsWorld
                        ([lit "https://news.example/rss"] ++ [])) [])
   /\ fst (News.GET newsWorld
             (Ok ([lit "https://news.example/rss"]
                    ++ lit "https://down.example/rss" :: [])) noParams)
      = fst (News.GET newsWorld (Ok ([lit "https://news.example/rss"] ++ []))
               noParams)
   /\ exists body,
        fst (News.GET newsWorld
               (Ok ([lit "https://news.example/rss"]
                      ++ lit "https://down.example/rss" :: [])) noParams)
        = Json200 body)
  /\ (sitemapFails shopWorld (lit "https://gone.example/sitemap.xml")
      /\ Product.GET shopWorld
           (Ok ([shop "pickaboo.example"]
                  ++ {| Product.sitemap := lit "https://gone.example/sitemap.xml";
                        Product.xpath := [];
                        Product.sourceDomain := lit "gone.example" |} :: []))
           noParams
         = Product.GET shopWorld (Ok ([shop "pickaboo.example"] ++ [])) noParams)
  /\ (feedFails (videoWorld undatedFirst) (Videos.feedUrl (lit "UC2"))
      /\ Videos.sortedVideos (videoWorld undatedFirst) ([lit "UC1"] ++ [])
         = Ok (tryCatch (Videos.sortedVideos (videoWorld undatedFirst)
                           ([lit "UC1"] ++ [])) [])
      /\ Videos.GET (videoWorld undatedFirst)
           (Ok ([lit "UC1"] ++ lit "UC2" :: [])) noParams
         = Videos.GET (videoWorld undatedFirst) (Ok ([lit "UC1"] ++ [])) noParams
      /\ exists body,
           Videos.GET (videoWorld undatedFirst)
             (Ok ([lit "UC1"] ++ lit "UC2" :: [])) noParams
           = Json200 body).
Proof.
  split; [|split].
  - assert (H : feedFails newsWorld (lit "https://down.example/rss"))
      by (vm_compute; exact I).
    assert (E : newsAggregate newsWorld ([lit "https://news.example/rss"] ++ [])
                = Ok (tryCatch (newsAggregate newsWorld
                                  ([lit "https://news.example/rss"] ++ [])) []))
      by (vm_compute; reflexivity).
    destruct (proj1 (failing_source_is_isolated newsWorld noParams)
                [lit "https://news.example/rss"] (lit "https://down.example/rss")
                [] H) as (_ & _ & Hget & Hbody).
    split; [exact H|]. split; [exact E|]. split; [exact Hget|].
    exact (Hbody _ E).
  - assert (H : sitemapFails shopWorld (lit "https://gone.example/sitemap.xml"))
      by (vm_compute; exact I).
    split; [exact H|].
    apply (proj1 (proj2 (failing_source_is_isolated shopWorld noParams))
             [shop "pickaboo.example"]
             {| Product.sitemap := lit "https://gone.example/sitemap.xml";
                Product.xpath := [];
                Product.sourceDomain := lit "gone.example" |} []
             H).
  - assert (H : feedFails (videoWorld undatedFirst) (Videos.feedUrl (lit "UC2")))
      by (vm_compute; exact I).
    assert (E : Videos.sortedVideos (videoWorld undatedFirst) ([lit "UC1"] ++ [])
                = Ok (tryCatch (Videos.sortedVideos (videoWorld undatedFirst)
                                  ([lit "UC1"] ++ [])) []))
      by (vm_compute; reflexivity).
    destruct (proj2 (proj2 (failing_source_is_isolated (videoWorld undatedFirst)
                              noParams))
                [lit "UC1"] (lit "UC2") [] H) as (_ & _ & Hget & Hbody).
    split; [exact H|]. split; [exact E|]. split; [exact Hget|].
    exact (Hbody _ E).
Defined.

(* ================================================================== *)
(** * Query parameters                                                 *)
(* ================================================================== *)

Lemma paramOr_missing (p : option jstring) (dflt : jstring) :
  missing p -> paramOr p dflt = dflt.
Proof. now intros [-> | ->]. Qed.

Lemma paramOr_given (s dflt : jstring) : s <> [] -> paramOr (Some s) dflt = s.
Proof. destruct s; [congruence|reflexivity]. Qed.

Lemma isRadixDigit_decimal (c : N) : isRadixDigit 10 c = true -> isDigit c = true.
Proof.
  unfold isRadixDigit, digitValue, isDigit.
  destruct ((48 <=? c) && (c <=? 57))%N eqn:E0; [reflexivity|].
  destruct ((97 <=? c) && (c <=? 122))%N eqn:E1.
  - apply andb_true_iff in E1 as [E1 _]. apply N.leb_le in E1.
    intros H. apply Z.ltb_lt in H. lia.
  - destruct ((65 <=? c) && (c <=? 90))%N eqn:E2; [|discriminate].
    apply andb_true_iff in E2 as [E2 _]. apply N.leb_le in E2.
    intros H. apply Z.ltb_lt in H. lia.
Qed.

Lemma numberOf_cases (z : Z) :
  (exists negative, numberOf z = Inf negative) \/ exists z', numberOf z = ofZ z'.
Proof.
  unfold numberOf. destruct (Z.abs z <? 2 ^ 53); [eauto|].
  match goal with |- context [if ?c then Inf _ else _] => destruct c end; eauto.
Qed.

Lemma numberOf_safe (z : Z) : Z.abs z < 2 ^ 53 -> numberOf z = ofZ z.
Proof.
  intros H. unfold numberOf.
  destruct (Z.ltb_spec (Z.abs z) (2 ^ 53)) as [_|Hge]; [reflexivity|lia].
Qed.

(** [parseInt] gives NaN, an infinity or an integer. *)
Lemma parseInt_integer (s : jstring) :
  parseInt s = NaN
  \/ (exists negative, parseInt s = Inf negative)
  \/ exists z, parseInt s = ofZ z.
Proof.
  unfold parseInt. destruct (stripSign (trimStart s)) as [negative s1].
  destruct (stripHexPrefix s1) as [radix s2].
  destruct (takeWhile (isRadixDigit radix) s2); [now left|right].
  apply numberOf_cases.
Qed.

(** Digits enough, and it is an infinity; and from [2^53] on it rounds. *)
Example parseInt_rounds :
  parseInt (repeat 57%N 400) = Inf false
  /\ parseInt (lit "-0x" ++ repeat 102%N 300) = Inf true
  /\ parseInt (lit "9007199254740993") = ofZ 9007199254740992.
Proof. repeat split; vm_compute; reflexivity. Qed.

(** Without a leading digit it gives NaN. *)
Lemma parseInt_nonNumeric (s : jstring) : nonNumeric s = true -> parseInt s = NaN.
Proof.
  unfold parseInt, nonNumeric.
  destruct (stripSign (trimStart s)) as [negative s1]. cbn [snd].
  destruct s1 as [|c r]; [reflexivity|]. intros Hc.
  assert (Hhex : stripHexPrefix (c :: r) = (10, c :: r)).
  { unfold stripHexPrefix. destruct r as [|c1 r]; [reflexivity|].
    destruct (N.eqb_spec c 48) as [->|_]; [discriminate Hc|reflexivity]. }
  rewrite Hhex. cbn [takeWhile].
  destruct (isRadixDigit 10 c) eqn:E; [|reflexivity].
  apply isRadixDigit_decimal in E. rewrite E in Hc. discriminate Hc.
Qed.

Lemma slice_NaN {A} (l : list A) (offset limit : jsnum) :
  offset = NaN \/ limit = NaN ->
  slice l offset (add offset limit) = []
  /\ ltb (add offset limit) (ofZ (Z.of_nat (length l))) = false.
Proof.
  intros H.
  assert (E : add offset limit = NaN)
    by (destruct H as [-> | ->]; [reflexivity|apply add_NaN_r]).
  rewrite E. split; [apply slice_NaN_end|reflexivity].
Qed.

(** C4, as stated, at the news endpoint: the offset [abc] is not read as
    the default 0 but as NaN, and the answer is not the answer to the
    default offset. *)
Lemma non_numeric_offset_is_not_the_default :
  News.offsetOf {| offsetParam := Some (lit "abc"); limitParam := None |} <> ofZ 0
  /\ fst (News.GET newsWorld (Ok newsUrls)
            {| offsetParam := Some (lit "abc"); limitParam := None |})
     <> fst (News.GET newsWorld (Ok newsUrls)
               {| offsetParam := None; limitParam := None |}).
Proof.
  split.
  - vm_compute. discriminate.
  - intros H. apply (f_equal (fun r => length (itemsOf r))) in H.
    vm_compute in H. discriminate H.
Qed.

(** C4, amended.  The news and the product handler read [offset] and
    [limit] with [parseInt], which gives an integer, an infinity (from
    some three hundred digits on) or NaN; the video handler converts them
    with [Number].  A parameter that is absent or empty takes the default
    (offset 0; limit 30 for news and video, 20 for product).  A parameter
    that is there and has no leading decimal digit is read as NaN by the
    news and the product handler, not as the default; and whenever the
    offset or the limit is NaN, the answer, where the handler has an
    aggregate to answer from, is an empty page with [hasMore] false and
    [total] the length of the aggregate. *)
Theorem query_parameters (W : World) (request : Request) :
  (forall n,
      In n [News.offsetOf request; News.limitOf request;
            Product.offsetOf request; Product.limitOf request] ->
      n = NaN \/ (exists negative, n = Inf negative) \/ exists z, n = ofZ z)
  /\ (missing (offsetParam request) ->
      News.offsetOf request = ofZ 0 /\ Product.offsetOf request = ofZ 0
      /\ Videos.offsetOf W request = ofZ 0)
  /\ (missing (limitParam request) ->
      News.limitOf request = ofZ 30 /\ Product.limitOf request = ofZ 20
      /\ Videos.limitOf W request = ofZ 30)
  /\ (forall s, offsetParam request = Some s -> s <> [] -> nonNumeric s = true ->
                News.offsetOf request = NaN /\ Product.offsetOf request = NaN)
  /\ (forall s, limitParam request = Some s -> s <> [] -> nonNumeric s = true ->
                News.limitOf request = NaN /\ Product.limitOf request = NaN)
  /\ (forall urls aggregate,
         newsAggregate W urls = Ok aggregate ->
         News.offsetOf request = NaN \/ News.limitOf request = NaN ->
         fst (News.GET W (Ok urls) request)
         = Json200 {| items := []; hasMore := false;
                      total := length aggregate |})
  /\ (forall sources,
         Product.offsetOf request = NaN \/ Product.limitOf request = NaN ->
         Product.GET W (Ok sources) request
         = Json200 {| items := []; hasMore := false;
                      total := length (Product.allProducts W sources) |})
  /\ (forall channelIds aggregate,
         Videos.sortedVideos W channelIds = Ok aggregate ->
         Videos.offsetOf W request = NaN \/ Videos.limitOf W request = NaN ->
         Videos.GET W (Ok channelIds) request
         = Json200 {| items := []; hasMore := false;
                      total := length aggregate |}).
Proof.
  split.
  { intros n Hn. cbn [In] in Hn.
    destruct Hn as [<- | [<- | [<- | [<- | []]]]]; apply parseInt_integer. }
  split.
  { intros H. unfold News.offsetOf, Product.offsetOf, Videos.offsetOf.
    rewrite (paramOr_missing _ H).
    repeat split; try (vm_compute; reflexivity).
    now destruct H as [-> | ->]. }
  split.
  { intros H. unfold News.limitOf, Product.limitOf, Videos.limitOf.
    rewrite !(paramOr_missing _ H).
    repeat split; try (vm_compute; reflexivity).
    now destruct H as [-> | ->]. }
  split.
  { intros s Hs Hne Hnn. unfold News.offsetOf, Product.offsetOf.
    rewrite Hs, (paramOr_given _ Hne), (parseInt_nonNumeric _ Hnn). auto. }
  split.
  { intros s Hs Hne Hnn. unfold News.limitOf, Product.limitOf.
    rewrite Hs, !(paramOr_given _ Hne), (parseInt_nonNumeric _ Hnn). auto. }
  split; [|split].
  - intros urls aggregate E H.
    rewrite (@NewsFacts.GET_answer W urls request aggregate E).
    unfold newsPage. rewrite E.
    destruct (slice_NaN aggregate H) as [-> ->]. reflexivity.
  - intros sources H. unfold Product.GET.
    destruct (slice_NaN (Product.allProducts W sources) H) as [-> ->]. reflexivity.
  - intros channelIds aggregate E H. unfold Videos.GET. rewrite E.
    destruct (slice_NaN aggregate H) as [-> ->]. reflexivity.
Qed.

Lemma query_parameters_witness :
  (missing (limitParam {| offsetParam := Some (lit "abc"); limitParam := None |})
   /\ News.limitOf {| offsetParam := Some (lit "abc"); limitParam := None |}
      = ofZ 30)
  /\ (nonNumeric (lit "abc") = true
      /\ News.offsetOf {| offsetParam := Some (lit "abc"); limitParam := None |}
         = NaN)
  /\ newsAggregate newsWorld newsUrls
     = Ok (tryCatch (newsAggregate newsWorld newsUrls) [])
  /\ fst (News.GET newsWorld (Ok newsUrls)
            {| offsetParam := Some (lit "abc"); limitParam := None |})
     = Json200 {| items := []; hasMore := false;
                  total := length (tryCatch (newsAggregate newsWorld newsUrls) []) |}.
Proof.
  pose proof (query_parameters newsWorld
                {| offsetParam := Some (lit "abc"); limitParam := None |})
    as (_ & _ & Hlimit & Hoffset & _ & Hnews & _).
  assert (Hm : missing (@None jstring)) by (left; reflexivity).
  assert (Hn : nonNumeric (lit "abc") = true) by reflexivity.
  assert (Hne : lit "abc" <> []) by discriminate.
  assert (E : newsAggregate newsWorld newsUrls
              = Ok (tryCatch (newsAggregate newsWorld newsUrls) []))
    by (vm_compute; reflexivity).
  split; [split; [exact Hm|exact (proj1 (Hlimit Hm))]|].
  split; [split; [exact Hn|exact (proj1 (Hoffset _ eq_refl Hne Hn))]|].
  split; [exact E|].
  apply (Hnews _ _ E). left. exact (proj1 (Hoffset _ eq_refl Hne Hn)).
Defined.

(* ================================================================== *)
(** * The title and link filter                                        *)
(* ================================================================== *)

(** C6, as stated.  At the video endpoint an entry with an empty title is
    listed, and counted; and at the news endpoint an item whose link is
    no URL is listed, and counted: the filter asks for a link that is not
    empty, and for no more. *)
Lemma listed_without_title_or_valid_link :
  (exists body,
      Videos.GET (videoWorld untitled) (Ok [lit "UC1"]) noParams = Json200 body
      /\ map Videos.title (items body) = [VStr []]
      /\ total body = 1%nat)
  /\ hostname MoreSamples.looseWorld (lit "not a url") = Throw
  /\ fetch MoreSamples.looseWorld (lit "not a url") = Rejected
  /\ exists body,
       fst (News.GET MoreSamples.looseWorld (Ok [lit "https://e.example/rss"]) noParams)
       = Json200 body
       /\ map News.link (items body) = [VStr (lit "not a url")]
       /\ total body = 1%nat.
Proof.
  split; [|split; [reflexivity|split; [reflexivity|]]].
  - eexists. split; [vm_compute; reflexivity|]. split; reflexivity.
  - eexists. split; [vm_compute; reflexivity|]. split; reflexivity.
Qed.

Lemma news_answer_items (W : World) (urls : list jstring) (request : Request) :
  Forall (fun it => truthy (News.title it) = true /\ truthy (News.link it) = true)
         (itemsOf (fst (News.GET W (Ok urls) request))).
Proof.
  rewrite NewsFacts.GET_items.
  pose proof (NewsFacts.enrich_spec W (NewsFacts.page_links W urls request)) as H.
  assert (Hp : Forall (fun a => News.hasTitleAndLink a = true)
                      (newsPage W urls request)).
  { apply Forall_forall. intros a Ha. now apply NewsFacts.page_items in Ha. }
  induction H as [|a b l l' Hab _ IH]; [constructor|].
  apply Forall_cons_iff in Hp as [Ha Hl].
  constructor; [|now apply IH].
  apply enrichesTo_same in Hab. destruct Hab as (-> & -> & _).
  now apply andb_true_iff in Ha.
Qed.

(** C6, amended.  In the news and in the product result set every item has
    a title that is not empty and a link (URL) that is not empty; whether
    the link is a URL is not looked at.  The items that have not are
    dropped before the sort: what the news handler sorts is the feeds'
    items, all with title and link, less the undated ones, and what the
    product handler sorts is the scraped products, all with a title and a
    URL; [total] is the length of that.  The video handler has no such
    filter: what it sorts is the entries as the normalizer maps them, and
    every one of them is in the sorted list and counted in [total],
    whatever its title. *)
Theorem listed_items_have_title_and_link (W : World) (request : Request) :
  (forall urls,
      let kept := filter (fun it => truthy (News.pubDate it))
                         (concat (newsFeeds W urls)) in
      Forall (fun it => truthy (News.title it) = true
                        /\ truthy (News.link it) = true)
             (itemsOf (fst (News.GET W (Ok urls) request)))
      /\ Forall (fun it => News.hasTitleAndLink it = true)
                (concat (newsFeeds W urls))
      /\ newsAggregate W urls = sort (engineSort W) (News.byDateDesc W) kept
      /\ forall aggregate,
           newsAggregate W urls = Ok aggregate ->
           exists body,
             fst (News.GET W (Ok urls) request) = Json200 body
             /\ total body = length kept)
  /\ (forall sources,
         let scraped := concat (map (Product.productsOf W) sources) in
         Forall (fun p => Product.title p <> [] /\ truthy (Product.url p) = true)
                (itemsOf (Product.GET W (Ok sources) request))
         /\ Forall (fun p => Product.title p <> [] /\ truthy (Product.url p) = true)
                   scraped
         /\ Product.allProducts W sources
            = sortTotal (engineSort W) (Product.byTitle W) scraped
         /\ exists body,
              Product.GET W (Ok sources) request = Json200 body
              /\ total body = length scraped)
  /\ (forall channelIds,
         let mapped := concat (map (Videos.videosOf W) channelIds) in
         Videos.sortedVideos W channelIds
         = sort (engineSort W) (Videos.byPublishedDesc W) mapped
         /\ forall aggregate,
              Videos.sortedVideos W channelIds = Ok aggregate ->
              (forall v, In v mapped -> In v aggregate)
              /\ exists body,
                   Videos.GET W (Ok channelIds) request = Json200 body
                   /\ total body = length mapped).
Proof.
  split; [|split].
  - intros urls kept. split; [apply news_answer_items|]. split; [|split].
    + apply Forall_forall. intros it H.
      apply in_concat in H as (feed & Hfeed & Hin).
      apply in_map_iff in Hfeed as (u & <- & _).
      now apply (proj1 (Forall_forall _ _) (NewsFacts.fetchRSSFeed_items W u)).
    + reflexivity.
    + intros aggregate E.
      rewrite (@NewsFacts.GET_answer W urls request aggregate E).
      eexists. split; [reflexivity|]. cbn [total].
      exact (@SortFacts.sort_length _ (engineSort W) (News.byDateDesc W)
               kept aggregate E).
  - intros sources scraped.
    assert (Hs : Forall (fun p => Product.title p <> []
                                  /\ truthy (Product.url p) = true) scraped).
    { apply Forall_forall. intros p H.
      apply in_concat in H as (l & Hl & Hp).
      apply in_map_iff in Hl as (source & <- & _).
      apply ProductFacts.productsOf_In in Hp as (u & Hu & Hp).
      apply ProductFacts.scrape_product in Hp as (data & _ & _ & Ht & -> & _).
      auto. }
    split; [|split; [exact Hs|split; [reflexivity|]]].
    + apply Forall_forall. intros p H. cbn [Product.GET itemsOf items] in H.
      apply slice_incl in H.
      apply (proj1 (SortFacts.sortTotal_In _ _ _ _)) in H.
      exact (proj1 (Forall_forall _ _) Hs p H).
    + eexists. split; [reflexivity|]. cbn [total].
      apply SortFacts.sortTotal_length.
  - intros channelIds mapped. split; [reflexivity|].
    intros aggregate E. split.
    + intros v Hv.
      exact (proj2 (@SortFacts.sort_In _ (engineSort W) (Videos.byPublishedDesc W)
                      mapped aggregate v E) Hv).
    + unfold Videos.GET. rewrite E. eexists. split; [reflexivity|].
      cbn [total].
      exact (@SortFacts.sort_length _ (engineSort W) (Videos.byPublishedDesc W)
               mapped aggregate E).
Qed.

Lemma listed_items_have_title_and_link_witness :
  newsAggregate MoreSamples.looseWorld [lit "https://e.example/rss"]
  = Ok (tryCatch (newsAggregate MoreSamples.looseWorld [lit "https://e.example/rss"]) [])
  /\ (exists body,
        fst (News.GET MoreSamples.looseWorld (Ok [lit "https://e.example/rss"]) noParams)
        = Json200 body
        /\ total body = 1%nat)
  /\ Videos.sortedVideos (videoWorld untitled) [lit "UC1"]
     = Ok (tryCatch (Videos.sortedVideos (videoWorld untitled) [lit "UC1"]) [])
  /\ exists body,
       Videos.GET (videoWorld untitled) (Ok [lit "UC1"]) noParams = Json200 body
       /\ total body = 1%nat.
Proof.
  assert (En : newsAggregate MoreSamples.looseWorld [lit "https://e.example/rss"]
               = Ok (tryCatch (newsAggregate MoreSamples.looseWorld
                                 [lit "https://e.example/rss"]) []))
    by (vm_compute; reflexivity).
  assert (Ev : Videos.sortedVideos (videoWorld untitled) [lit "UC1"]
               = Ok (tryCatch (Videos.sortedVideos (videoWorld untitled)
                                 [lit "UC1"]) []))
    by (vm_compute; reflexivity).
  split; [exact En|]. split.
  - exact (proj2 (proj2 (proj2
             (proj1 (listed_items_have_title_and_link MoreSamples.looseWorld noParams)
                [lit "https://e.example/rss"]))) _ En).
  - split; [exact Ev|].
    exact (proj2 (proj2
             (proj2 (proj2 (listed_items_have_title_and_link
                              (videoWorld untitled) noParams))
                [lit "UC1"]) _ Ev)).
Defined.

(* ================================================================== *)
(** * The price                                                        *)
(* ================================================================== *)

Example price_runs :
  map Product.price
      (itemsOf (Product.GET shopWorld (Ok [shop "pickaboo.example"]) noParams))
  = [lit "Tk TBA"]
  /\ map Product.price
         (itemsOf (Product.GET shopWorld (Ok [shop "daraz.example"]) noParams))
     = [lit "৳ 1,200"]
  /\ map Product.price
         (itemsOf (Product.GET shopWorld (Ok [shop "shop.example"]) noParams))
     = [lit "Price not available"].
Proof. repeat split; vm_compute; reflexivity. Qed.

(** C5, as stated, at a page of a domain with a chain.  The first selector
    holds the marker without an amount, the second holds an amount: the
    price is not the one the first text matching the currency pattern
    gives.  And on a page where no text matches the pattern, the price is
    not the sentinel. *)
Lemma bare_marker_decides_the_price :
  Product.extractPrice productDoc (lit "pickaboo.example")
  <> pricePerSpec productDoc Product.pickabooSelectors
  /\ Forall (fun selector =>
               Product.matchPrice (priceText noAmountDoc selector) = None)
            Product.pickabooSelectors
  /\ Product.extractPrice noAmountDoc (lit "pickaboo.example")
     <> Product.priceNotAvailable.
Proof.
  split; [vm_compute; discriminate|]. split.
  - repeat constructor.
  - vm_compute. discriminate.
Qed.

Lemma matchAt_nonempty (marker s m : jstring) :
  marker <> [] -> Product.matchAt marker s = Some m -> m <> [].
Proof.
  unfold Product.matchAt. intros Hm.
  destruct (startsWith marker s); [|discriminate].
  destruct (takeWhile _ _); [discriminate|].
  intros H; injection H as <-. destruct marker; [congruence|discriminate].
Qed.

Lemma matchPrice_unfold (s : jstring) :
  Product.matchPrice s
  = match Product.matchAt Product.taka s with
    | Some m => Some m
    | None =>
      match Product.matchAt Product.Tk s with
      | Some m => Some m
      | None => match s with [] => None | _ :: s' => Product.matchPrice s' end
      end
    end.
Proof. destruct s; reflexivity. Qed.

Lemma matchPrice_nonempty (s m : jstring) :
  Product.matchPrice s = Some m -> m <> [].
Proof.
  induction s as [|c s IH]; rewrite matchPrice_unfold.
  - destruct (Product.matchAt Product.taka []) eqn:E1.
    + intros H; injection H as <-. eapply matchAt_nonempty; [|exact E1].
      discriminate.
    + destruct (Product.matchAt Product.Tk []) eqn:E2; [|discriminate].
      intros H; injection H as <-. eapply matchAt_nonempty; [|exact E2].
      discriminate.
  - destruct (Product.matchAt Product.taka (c :: s)) eqn:E1.
    + intros H; injection H as <-. eapply matchAt_nonempty; [|exact E1].
      discriminate.
    + destruct (Product.matchAt Product.Tk (c :: s)) eqn:E2; [|exact IH].
      intros H; injection H as <-. eapply matchAt_nonempty; [|exact E2].
      discriminate.
Qed.

Lemma orStr_matchPrice (t : jstring) :
  Product.orStr (Product.matchPrice t) t
  = match Product.matchPrice t with Some m => m | None => t end.
Proof.
  destruct (Product.matchPrice t) as [m|] eqn:E; [|reflexivity].
  apply matchPrice_nonempty in E. destruct m; [congruence|reflexivity].
Qed.

(** C5, amended.  On a product page of a domain that has a chain, the
    selectors are tried in their listed order, and the first one whose
    trimmed text is not empty and contains the marker [৳] or [Tk], digits
    after it or not, determines the price: the first match in that text of
    the pattern (marker, white space, digits and commas) if it has one,
    the whole text if it has none.  When no selector of the chain has such
    a text, the price is the sentinel. *)
Theorem price_selector_chain
        (W : World) (u : value) (domain : jstring) (chain : list jstring)
        (p : Product.Product) :
  chainOf domain = Some chain ->
  Product.scrapeProductDataFast W u domain = Some p ->
  exists data,
    axiosGet W u = Some data
    /\ (Forall (fun selector =>
                  Product.hasMarker (priceText (cheerioLoad W data) selector)
                  = false) chain ->
        Product.price p = Product.priceNotAvailable)
    /\ (forall before selector after,
           chain = before ++ selector :: after ->
           Forall (fun selector =>
                     Product.hasMarker (priceText (cheerioLoad W data) selector)
                     = false) before ->
           Product.hasMarker (priceText (cheerioLoad W data) selector) = true ->
           Product.price p
           = match Product.matchPrice (priceText (cheerioLoad W data) selector) with
             | Some m => m
             | None => priceText (cheerioLoad W data) selector
             end).
Proof.
  intros Hchain Hp.
  apply ProductFacts.scrape_product in Hp as (data & Hdata & Hprice & _).
  exists data. split; [exact Hdata|].
  rewrite Hprice, ProductFacts.extractPrice_chain, Hchain. split.
  - apply ProductFacts.priceLoop_miss.
  - intros before selector after -> Hb Hs.
    rewrite (@ProductFacts.priceLoop_hit _ before selector after
               Product.priceNotAvailable Hb Hs).
    apply orStr_matchPrice.
Qed.

Lemma price_selector_chain_witness :
  chainOf (lit "pickaboo.example") = Some Product.pickabooSelectors
  /\ exists p,
       Product.scrapeProductDataFast shopWorld
         (VStr (lit "https://shop.example/p1")) (lit "pickaboo.example") = Some p
       /\ Product.hasMarker (priceText productDoc (lit ".price-current")) = true
       /\ Product.price p = lit "Tk TBA".
Proof.
  assert (Hc : chainOf (lit "pickaboo.example") = Some Product.pickabooSelectors)
    by reflexivity.
  split; [exact Hc|].
  destruct (Product.scrapeProductDataFast shopWorld
              (VStr (lit "https://shop.example/p1")) (lit "pickaboo.example"))
    as [p|] eqn:Hp; [|vm_compute in Hp; discriminate Hp].
  exists p. split; [reflexivity|]. split; [reflexivity|].
  destruct (price_selector_chain shopWorld _ _ Hc Hp) as (data & Hd & _ & Hhit).
  assert (E : data = productHtml)
    by (cbn in Hd; injection Hd as <-; reflexivity).
  subst data.
  rewrite (Hhit [] (lit ".price-current") (tl Product.pickabooSelectors)
             eq_refl (Forall_nil _) eq_refl).
  reflexivity.
Defined.

(** C10.  Only a domain whose name contains [pickaboo] or [daraz] has a
    chain of price selectors.  A product scraped for any other domain has
    the price [Price not available], whatever its page holds; so has every
    product of such a domain in an answer of the handler. *)
Theorem no_chain_no_price (W : World) (domain : jstring) :
  includes (lit "pickaboo") domain = false ->
  includes (lit "daraz") domain = false ->
  chainOf domain = None
  /\ (forall d, Product.extractPrice d domain = lit "Price not available")
  /\ (forall u p,
         Product.scrapeProductDataFast W u domain = Some p ->
         Product.price p = lit "Price not available")
  /\ (forall sources request p,
         In p (itemsOf (Product.GET W (Ok sources) request)) ->
         Product.domain p = domain ->
         Product.price p = lit "Price not available").
Proof.
  intros Hp Hd.
  assert (Hc : chainOf domain = None) by (unfold chainOf; now rewrite Hp, Hd).
  assert (He : forall d, Product.extractPrice d domain = lit "Price not available").
  { intros d. now rewrite ProductFacts.extractPrice_chain, Hc. }
  split; [exact Hc|]. split; [exact He|]. split.
  - intros u p H.
    apply ProductFacts.scrape_product in H as (data & _ & -> & _). apply He.
  - intros sources request p H Hdom. cbn [Product.GET itemsOf items] in H.
    apply slice_incl in H.
    apply ProductFacts.allProducts_In in H as (source & _ & H).
    apply ProductFacts.productsOf_In in H as (u & _ & H).
    apply ProductFacts.scrape_product in H as (data & _ & -> & _ & _ & Hsd).
    rewrite <- Hsd, Hdom. apply He.
Qed.

Lemma no_chain_no_price_witness :
  includes (lit "pickaboo") (lit "shop.example") = false
  /\ includes (lit "daraz") (lit "shop.example") = false
  /\ firstText (cheerioLoad shopWorld productHtml) (lit ".product-price")
     = lit "৳ 1,200"
  /\ forall p,
       Product.scrapeProductDataFast shopWorld
         (VStr (lit "https://shop.example/p1")) (lit "shop.example") = Some p ->
       Product.price p = lit "Price not available".
Proof.
  assert (H1 : includes (lit "pickaboo") (lit "shop.example") = false)
    by reflexivity.
  assert (H2 : includes (lit "daraz") (lit "shop.example") = false)
    by reflexivity.
  split; [exact H1|]. split; [exact H2|]. split; [reflexivity|].
  exact (proj1 (proj2 (proj2 (no_chain_no_price shopWorld (lit "shop.example")
                                   H1 H2)))
           (VStr (lit "https://shop.example/p1"))).
Defined.

(* ================================================================== *)
(** * The order of the lists                                           *)
(* ================================================================== *)

Lemma StronglySorted_Forall2 {A} (R : A -> A -> Prop) (S : A -> A -> Prop)
      (l l' : list A) :
  (forall a b a' b', S a a' -> S b b' -> R a b -> R a' b') ->
  Forall2 S l l' -> StronglySorted R l -> StronglySorted R l'.
Proof.
  intros HS H. induction H as [|a a' l l' Ha Hl IH]; [constructor|].
  intros Hs. apply StronglySorted_inv in Hs as [Hs Hall].
  constructor; [now apply IH|].
  clear IH Hs. induction Hl as [|b b' l l' Hb _ IH]; constructor.
  - apply (HS a b); auto. now apply Forall_inv in Hall.
  - apply IH. now apply Forall_inv_tail in Hall.
Qed.

Lemma newsAggregate_sorted (W : World) (urls : list jstring)
      (aggregate : list News.NewsItem) :
  newsAggregate W urls = Ok aggregate ->
  StronglySorted (fun a b => newestFirst (newsKey W a) (newsKey W b)) aggregate
  /\ forall k,
       filter (fun it => sameKey k (newsKey W it)) aggregate
       = filter (fun it => sameKey k (newsKey W it))
                (filter (fun it => truthy (News.pubDate it))
                        (concat (newsFeeds W urls))).
Proof.
  intros E.
  exact (@DateFacts.guarded_sorted News.NewsItem W News.pubDate
           (News.byDateDesc W) (fun a b => eq_refl) _ aggregate E).
Qed.

(** The news list.  The page that is returned is in descending order of
    the parsed date, the items whose date does not parse after all the
    others; so is the aggregate the handler answers from, and the sort is
    stable: the items of one date, and the items without a valid date, are
    in the order in which the feeds gave them. *)
Theorem news_order (W : World) (urls : list jstring) (request : Request) :
  StronglySorted (fun a b => newestFirst (newsKey W a) (newsKey W b))
                 (itemsOf (fst (News.GET W (Ok urls) request)))
  /\ forall aggregate,
       newsAggregate W urls = Ok aggregate ->
       StronglySorted (fun a b => newestFirst (newsKey W a) (newsKey W b))
                      aggregate
       /\ forall k,
            filter (fun it => sameKey k (newsKey W it)) aggregate
            = filter (fun it => sameKey k (newsKey W it))
                     (filter (fun it => truthy (News.pubDate it))
                             (concat (newsFeeds W urls))).
Proof.
  split; [|apply newsAggregate_sorted].
  rewrite NewsFacts.GET_items.
  apply StronglySorted_Forall2
    with (S := sameButImage) (l := newsPage W urls request).
  - intros a b a' b' (_ & _ & _ & Ha & _) (_ & _ & _ & Hb & _).
    unfold newsKey. now rewrite Ha, Hb.
  - apply Forall2_impl with (R := enrichesTo W); [apply enrichesTo_same|].
    apply NewsFacts.enrich_spec, NewsFacts.page_links.
  - unfold newsPage.
    destruct (newsAggregate W urls) as [aggregate|] eqn:E; [|constructor].
    destruct (newsAggregate_sorted W urls E) as [Hs _].
    destruct (slice_segment aggregate (News.offsetOf request)
                (add (News.offsetOf request) (News.limitOf request)))
      as (before & after & Es).
    rewrite Es in Hs. now apply SortFacts.sorted_segment in Hs.
Qed.

Example news_order_run :
  exists aggregate,
    newsAggregate twoFeeds twoUrls = Ok aggregate
    /\ map News.title aggregate
       = [VStr (lit "A5"); VStr (lit "B4"); VStr (lit "A3"); VStr (lit "B2");
          VStr (lit "A1")].
Proof. eexists. split; vm_compute; reflexivity. Qed.

(** C2, at the video endpoint.  A channel gives an entry whose date does
    not parse and then an entry whose date does: the comparator answers
    NaN for the pair, the sort leaves it as it is, and the undated entry
    is returned first. *)
Theorem video_undated_entry_stays_first :
  exists a b,
    itemsOf (Videos.GET (videoWorld undatedFirst) (Ok [lit "UC1"]) noParams)
    = [a; b]
    /\ Videos.published a = VStr (lit "not a date")
    /\ timeOf clock (Videos.published a) = Ok None
    /\ Videos.published b = VStr (lit "2024-01-01T00:00:00+00:00")
    /\ timeOf clock (Videos.published b) = Ok (Some 1704067200000)
    /\ Videos.byPublishedDesc (videoWorld undatedFirst) a b = Ok None.
Proof.
  do 2 eexists. split; [vm_compute; reflexivity|].
  repeat split.
Qed.

(* ================================================================== *)
(** * The video normalizer                                             *)
(* ================================================================== *)

Example video_run :
  Videos.toVideoItem
    (parsed (entry "v1" "Counted" "2024-01-02T00:00:00+00:00" (statistics "5")))
  = Ok {| Videos.id := VStr (lit "v1");
          Videos.videoId := VStr (lit "v1");
          Videos.title := VStr (lit "Counted");
          Videos.thumbnail := lit "https://i.ytimg.com/vi/v1/mqdefault.jpg";
          Videos.channelName := VStr (lit "Channel");
          Videos.published := VStr (lit "2024-01-02T00:00:00+00:00");
          Videos.views := VStr (lit "5") |}.
Proof. vm_compute. reflexivity. Qed.

(** C7, at an entry without statistics.  The channel gives an entry with
    statistics and an entry whose [media:community] holds none: for the
    second the normalizer reads the first element of a member that is not
    there, which throws, so there is no item with [views] 0; the exception
    is caught around the whole channel, and the first entry is lost with
    it. *)
Theorem video_without_statistics_throws :
  Videos.toVideoItem
    (parsed (entry "v2" "Uncounted" "2024-01-01T00:00:00+00:00" ratingOnly))
  = Throw
  /\ Videos.videosOf (videoWorld noStatistics) (lit "UC1") = []
  /\ Videos.GET (videoWorld noStatistics) (Ok [lit "UC1"]) noParams
     = Json200 {| items := []; hasMore := false; total := 0 |}.
Proof. repeat split. Qed.

(* ================================================================== *)
(** * The product catalogue: bounds and shapes                         *)
(* ================================================================== *)

Lemma startsWith_app (p r : jstring) : startsWith p (p ++ r) = true.
Proof.
  induction p as [|c p IH]; [reflexivity|].
  simpl. now rewrite N.eqb_refl.
Qed.

Lemma startsWith_split (p s : jstring) :
  startsWith p s = true -> s = p ++ skipn (length p) s.
Proof.
  revert s. induction p as [|c p IH]; intros s H; [reflexivity|].
  destruct s as [|d s]; [discriminate H|]. simpl in H.
  apply andb_true_iff in H as [Hc H]. apply N.eqb_eq in Hc. subst d.
  simpl. f_equal. now apply IH.
Qed.

Lemma startsWith_includes (p s : jstring) :
  startsWith p s = true -> includes p s = true.
Proof. intros H. destruct s; simpl; simpl in H; now rewrite H. Qed.

Lemma includes_suffix (p before s : jstring) :
  includes p s = true -> includes p (before ++ s) = true.
Proof.
  intros H. induction before as [|c before IH]; [exact H|].
  simpl. rewrite IH. apply orb_true_r.
Qed.

Lemma takeWhile_dropWhile {A} (p : A -> bool) (l : list A) :
  l = takeWhile p l ++ dropWhile p l.
Proof.
  induction l as [|x l IH]; [reflexivity|].
  simpl. destruct (p x); [|reflexivity]. simpl. now f_equal.
Qed.

Lemma takeWhile_all {A} (p : A -> bool) (l : list A) :
  forallb p (takeWhile p l) = true.
Proof.
  induction l as [|x l IH]; [reflexivity|].
  simpl. destruct (p x) eqn:E; [|reflexivity]. simpl. now rewrite E.
Qed.

Lemma dropWhile_head {A} (p : A -> bool) (l : list A) (x : A) (rest : list A) :
  dropWhile p l = x :: rest -> p x = false.
Proof.
  induction l as [|y l IH]; [discriminate|].
  simpl. destruct (p y) eqn:E; [exact IH|].
  intros H. injection H as <- _. exact E.
Qed.

Lemma takeWhile_app_stop {A} (p : A -> bool) (l : list A) (x : A) (rest : list A) :
  forallb p l = true -> p x = false ->
  takeWhile p (l ++ x :: rest) = l /\ dropWhile p (l ++ x :: rest) = x :: rest.
Proof.
  intros Hl Hx. induction l as [|y l IH]; simpl.
  - now rewrite Hx.
  - simpl in Hl. apply andb_true_iff in Hl as [Hy Hl]. rewrite Hy.
    destruct (IH Hl) as [-> ->]. auto.
Qed.

Lemma length_concat_bound {A} (n : nat) (ls : list (list A)) :
  Forall (fun l => (length l <= n)%nat) ls ->
  (length (concat ls) <= n * length ls)%nat.
Proof.
  induction 1 as [|l ls Hl _ IH]; simpl; [lia|].
  rewrite length_app. lia.
Qed.

Lemma nonNull_length {A} (l : list (option A)) :
  (length (Product.nonNull l) <= length l)%nat.
Proof. induction l as [|[a|] l IH]; simpl; lia. Qed.

Lemma fetchSitemapFast_length (W : World) (sitemapUrl : jstring) :
  (length (Product.fetchSitemapFast W sitemapUrl) <= 50)%nat.
Proof.
  unfold Product.fetchSitemapFast.
  destruct (axiosGet W (VStr sitemapUrl)) as [data|]; [|simpl; lia].
  destruct (parseXML W data) as [res|]; cbn [rbind tryCatch]; [|simpl; lia].
  destruct (if truthy _ then _ else _) as [urls|]; cbn [rbind tryCatch];
    [|simpl; lia].
  apply firstn_le_length.
Qed.

Lemma productsOf_length (W : World) (source : Product.ProductSource) :
  (length (Product.productsOf W source) <= 15)%nat.
Proof.
  unfold Product.productsOf.
  eapply Nat.le_trans; [apply nonNull_length|].
  rewrite length_map. apply firstn_le_length.
Qed.

(** The work of the product handler is bounded: a sitemap gives at most 50
    page addresses, of which at most 15 are scraped, so an answer counts
    at most 15 products for each configured source. *)
Theorem product_work_is_bounded
        (W : World) (sources : list Product.ProductSource) (request : Request) :
  (forall sitemapUrl, (length (Product.fetchSitemapFast W sitemapUrl) <= 50)%nat)
  /\ (forall source, (length (Product.productsOf W source) <= 15)%nat)
  /\ exists body,
       Product.GET W (Ok sources) request = Json200 body
       /\ (total body <= 15 * length sources)%nat
       /\ (length (items body) <= total body)%nat.
Proof.
  split; [apply fetchSitemapFast_length|].
  split; [apply productsOf_length|].
  eexists. split; [reflexivity|]. cbn [total items]. split.
  - unfold Product.allProducts. rewrite SortFacts.sortTotal_length.
    rewrite <- (length_map (Product.productsOf W) sources).
    apply length_concat_bound. apply Forall_forall. intros l Hl.
    apply in_map_iff in Hl as (source & <- & _). apply productsOf_length.
  - destruct (slice_segment (Product.allProducts W sources)
                (Product.offsetOf request)
                (add (Product.offsetOf request) (Product.limitOf request)))
      as (before & after & E).
    rewrite E at 2. rewrite !length_app. lia.
Qed.

Lemma absolute_image (dom ogImage : jstring) :
  (if startsWith (lit "http") ogImage then ogImage
   else match ogImage with
        | [] => []
        | _ :: _ => lit "https://" ++ dom ++ ogImage
        end) = []
  \/ startsWith (lit "http")
       (if startsWith (lit "http") ogImage then ogImage
        else match ogImage with
             | [] => []
             | _ :: _ => lit "https://" ++ dom ++ ogImage
             end) = true.
Proof.
  destruct (startsWith (lit "http") ogImage) eqn:E; [now right|].
  destruct ogImage as [|c0 og]; [now left|]. right. reflexivity.
Qed.

Lemma scrape_fields (W : World) (u : value) (dom : jstring) (p : Product.Product) :
  Product.scrapeProductDataFast W u dom = Some p ->
  (length (Product.id p) <= 16)%nat
  /\ (length (Product.title p) <= 100)%nat
  /\ (length (Product.description p) <= 200)%nat
  /\ (Product.image p = []
      \/ startsWith (lit "http") (Product.image p) = true).
Proof.
  unfold Product.scrapeProductDataFast. intros H.
  destruct (axiosGet W u) as [data|]; [|discriminate].
  destruct (trim _) as [|c t]; [discriminate|].
  destruct (base64 W u) as [b64|]; [|discriminate].
  injection H as <-.
  split; [apply (firstn_le_length 16)|].
  split; [apply (firstn_le_length 100)|].
  split; [apply (firstn_le_length 200)|].
  apply absolute_image.
Qed.

Lemma answer_products (W : World) (sources : list Product.ProductSource)
      (request : Request) (p : Product.Product) :
  In p (itemsOf (Product.GET W (Ok sources) request)) ->
  exists source u,
    In source sources
    /\ Product.scrapeProductDataFast W u (Product.sourceDomain source) = Some p.
Proof.
  cbn [Product.GET itemsOf items]. intros H. apply slice_incl in H.
  apply ProductFacts.allProducts_In in H as (source & Hs & H).
  apply ProductFacts.productsOf_In in H as (u & _ & H). eauto.
Qed.

(** Every product of an answer has an identifier of at most 16 code units,
    a title of at most 100 and a description of at most 200, and an image
    address that is empty or starts with [http]: a relative address found
    on the page is completed with the source's domain. *)
Theorem product_fields_are_bounded
        (W : World) (sources : list Product.ProductSource) (request : Request) :
  Forall (fun p =>
            (length (Product.id p) <= 16)%nat
            /\ (length (Product.title p) <= 100)%nat
            /\ (length (Product.description p) <= 200)%nat
            /\ (Product.image p = []
                \/ startsWith (lit "http") (Product.image p) = true))
         (itemsOf (Product.GET W (Ok sources) request)).
Proof.
  apply Forall_forall. intros p H.
  apply answer_products in H as (source & u & _ & H).
  now apply scrape_fields in H.
Qed.

(* ================================================================== *)
(** * The price: what the pattern cuts out                             *)
(* ================================================================== *)

Lemma priceChar_not_space (c : N) :
  Product.isPriceChar c = true -> isWhiteSpace c = false.
Proof.
  unfold Product.isPriceChar, isDigit, isWhiteSpace. intros H.
  apply orb_true_iff in H as [H|H].
  - apply andb_true_iff in H as [H1 H2]. apply N.leb_le in H1, H2.
    repeat match goal with
           | |- context [(?a <=? ?b)%N] => destruct (N.leb_spec a b)
           | |- context [(?a =? ?b)%N] => destruct (N.eqb_spec a b)
           end; simpl; auto; lia.
  - apply N.eqb_eq in H. subst c. reflexivity.
Qed.

Lemma matchAt_shape (marker s m : jstring) :
  Product.matchAt marker s = Some m ->
  exists ws ds after,
    s = marker ++ ws ++ ds ++ after /\ m = marker ++ ws ++ ds
    /\ forallb isWhiteSpace ws = true
    /\ ds <> [] /\ forallb Product.isPriceChar ds = true
    /\ match after with [] => True | c :: _ => Product.isPriceChar c = false end.
Proof.
  unfold Product.matchAt.
  destruct (startsWith marker s) eqn:Es; [|discriminate].
  set (r := skipn (length marker) s).
  destruct (takeWhile Product.isPriceChar (dropWhile isWhiteSpace r))
    as [|d ds] eqn:Ed; [discriminate|].
  intros H. injection H as <-.
  exists (takeWhile isWhiteSpace r), (d :: ds),
         (dropWhile Product.isPriceChar (dropWhile isWhiteSpace r)).
  split.
  - rewrite <- Ed, <- takeWhile_dropWhile, <- takeWhile_dropWhile.
    now apply startsWith_split.
  - split; [reflexivity|]. split; [apply takeWhile_all|].
    split; [discriminate|]. split; [rewrite <- Ed; apply takeWhile_all|].
    destruct (dropWhile Product.isPriceChar (dropWhile isWhiteSpace r))
      as [|c after] eqn:Ea; [exact I|].
    now apply dropWhile_head in Ea.
Qed.

Lemma matchAt_complete (marker ws rest : jstring) (d : N) :
  forallb isWhiteSpace ws = true -> Product.isPriceChar d = true ->
  Product.matchAt marker (marker ++ ws ++ d :: rest) <> None.
Proof.
  intros Hws Hd. unfold Product.matchAt. rewrite startsWith_app.
  rewrite skipn_app, skipn_all, Nat.sub_diag. cbn [skipn app].
  destruct (takeWhile_app_stop isWhiteSpace ws d rest Hws
              (priceChar_not_space d Hd)) as [_ ->].
  cbn [takeWhile]. rewrite Hd. discriminate.
Qed.

Lemma matchPrice_shape (s m : jstring) :
  Product.matchPrice s = Some m ->
  exists before marker ws ds after,
    s = before ++ marker ++ ws ++ ds ++ after
    /\ m = marker ++ ws ++ ds
    /\ (marker = Product.taka \/ marker = Product.Tk)
    /\ forallb isWhiteSpace ws = true
    /\ ds <> [] /\ forallb Product.isPriceChar ds = true
    /\ match after with
       | [] => True
       | c :: _ => Product.isPriceChar c = false
       end.
Proof.
  revert m. induction s as [|c s IH]; intros m; rewrite matchPrice_unfold.
  - destruct (Product.matchAt Product.taka []) eqn:E1.
    + intros H; injection H as <-.
      apply matchAt_shape in E1 as (ws & ds & after & E & Hm & Hrest).
      exists [], Product.taka, ws, ds, after. auto.
    + destruct (Product.matchAt Product.Tk []) eqn:E2; [|discriminate].
      intros H; injection H as <-.
      apply matchAt_shape in E2 as (ws & ds & after & E & Hm & Hrest).
      exists [], Product.Tk, ws, ds, after. auto.
  - destruct (Product.matchAt Product.taka (c :: s)) eqn:E1.
    + intros H; injection H as <-.
      apply matchAt_shape in E1 as (ws & ds & after & E & Hm & Hrest).
      exists [], Product.taka, ws, ds, after. auto.
    + destruct (Product.matchAt Product.Tk (c :: s)) eqn:E2.
      * intros H; injection H as <-.
        apply matchAt_shape in E2 as (ws & ds & after & E & Hm & Hrest).
        exists [], Product.Tk, ws, ds, after. auto.
      * intros H. apply IH in H
          as (before & marker & ws & ds & after & E & Hrest).
        exists (c :: before), marker, ws, ds, after.
        split; [simpl; now rewrite E|exact Hrest].
Qed.

(** The price pattern.  What it cuts out of a text is a piece of that
    text: the marker [৳] or [Tk], white space, and a run of digits and
    commas that is not empty and goes as far as it can.  It finds a match
    exactly when the text holds a marker followed, after white space only,
    by a digit or a comma. *)
Theorem price_pattern (s : jstring) :
  (forall m,
      Product.matchPrice s = Some m ->
      exists before marker ws ds after,
        s = before ++ marker ++ ws ++ ds ++ after
        /\ m = marker ++ ws ++ ds
        /\ (marker = Product.taka \/ marker = Product.Tk)
        /\ forallb isWhiteSpace ws = true
        /\ ds <> [] /\ forallb Product.isPriceChar ds = true
        /\ match after with
           | [] => True
           | c :: _ => Product.isPriceChar c = false
           end)
  /\ ((exists m, Product.matchPrice s = Some m)
      <-> exists before marker ws d rest,
            s = before ++ marker ++ ws ++ d :: rest
            /\ (marker = Product.taka \/ marker = Product.Tk)
            /\ forallb isWhiteSpace ws = true
            /\ Product.isPriceChar d = true).
Proof.
  split; [intros m; apply matchPrice_shape|]. split.
  - intros [m Hm].
    apply matchPrice_shape in Hm
      as (before & marker & ws & ds & after & E & _ & Hmark & Hws & Hne & Hds & _).
    destruct ds as [|d ds]; [congruence|].
    exists before, marker, ws, d, (ds ++ after).
    simpl in Hds. apply andb_true_iff in Hds as [Hd _]. auto.
  - intros (before & marker & ws & d & rest & -> & Hmark & Hws & Hd).
    induction before as [|c before IH]; rewrite matchPrice_unfold.
    + pose proof (matchAt_complete marker ws rest d Hws Hd) as Hc.
      cbn [app]. destruct Hmark as [-> | ->].
      * destruct (Product.matchAt Product.taka _); [eauto|congruence].
      * destruct (Product.matchAt Product.taka _); [eauto|].
        destruct (Product.matchAt Product.Tk _); [eauto|congruence].
    + cbn [app].
      destruct (Product.matchAt Product.taka _); [eauto|].
      destruct (Product.matchAt Product.Tk _); [eauto|]. exact IH.
Qed.

Lemma priceLoop_marked (d : Doc) (selectors : list jstring) :
  Product.priceLoop d selectors Product.priceNotAvailable
  = Product.priceNotAvailable
  \/ (includes Product.taka
               (Product.priceLoop d selectors Product.priceNotAvailable)
      || includes Product.Tk
                  (Product.priceLoop d selectors Product.priceNotAvailable))
     = true.
Proof.
  induction selectors as [|selector rest IH]; [now left|].
  simpl. destruct (Product.hasMarker _) eqn:Eh; [|exact IH]. right.
  rewrite orStr_matchPrice.
  destruct (Product.matchPrice _) as [m|] eqn:Em.
  - apply matchPrice_shape in Em
      as (before & marker & ws & ds & after & _ & -> & [-> | ->] & _).
    + now rewrite (startsWith_includes _ _ (startsWith_app _ _)).
    + rewrite (startsWith_includes _ _ (startsWith_app Product.Tk _)).
      apply orb_true_r.
  - unfold Product.hasMarker in Eh. now apply andb_true_iff in Eh as [_ Eh].
Qed.

Lemma includes_nonempty (p s : jstring) :
  p <> [] -> includes p s = true -> s <> [].
Proof. intros Hp H ->. destruct p; [congruence|discriminate H]. Qed.

(** The price of a product is never empty: it is the sentinel
    [Price not available], or a text that holds the marker [৳] or [Tk]. *)
Theorem price_is_sentinel_or_marked
        (W : World) (sources : list Product.ProductSource) (request : Request) :
  Forall (fun p =>
            Product.price p <> []
            /\ (Product.price p = lit "Price not available"
                \/ (includes (lit "৳") (Product.price p)
                    || includes (lit "Tk") (Product.price p)) = true))
         (itemsOf (Product.GET W (Ok sources) request)).
Proof.
  apply Forall_forall. intros p H.
  apply answer_products in H as (source & u & _ & H).
  apply ProductFacts.scrape_product in H as (data & _ & Hp & _).
  rewrite Hp, ProductFacts.extractPrice_chain.
  assert (Hs : lit "Price not available" <> []) by discriminate.
  destruct (chainOf (Product.sourceDomain source)) as [chain|]; [|auto].
  destruct (priceLoop_marked (cheerioLoad W data) chain) as [-> | Hm]; [auto|].
  split; [|now right].
  apply orb_true_iff in Hm as [Hm|Hm];
    eapply includes_nonempty; try exact Hm; discriminate.
Qed.

(* ================================================================== *)
(** * What sorting keeps                                               *)
(* ================================================================== *)

Lemma codeUnitOrder_refl (a : jstring) : MoreSamples.codeUnitOrder a a = 0.
Proof.
  induction a as [|c a IH]; [reflexivity|].
  simpl. now rewrite N.ltb_irrefl.
Qed.

Lemma codeUnitOrder_eq (a b : jstring) :
  MoreSamples.codeUnitOrder a b = 0 -> a = b.
Proof.
  revert b. induction a as [|c a IH]; intros [|d b]; simpl; try lia;
    [reflexivity|].
  destruct (N.ltb_spec c d), (N.ltb_spec d c); try lia.
  intros E. f_equal; [lia|now apply IH].
Qed.

Lemma codeUnitOrder_before (a b c : jstring) :
  MoreSamples.codeUnitOrder a b < 0 -> MoreSamples.codeUnitOrder b c < 0 ->
  MoreSamples.codeUnitOrder a c < 0.
Proof.
  revert b c. induction a as [|x a IH]; intros [|y b] [|z c]; simpl; try lia.
  destruct (N.ltb_spec x y), (N.ltb_spec y x), (N.ltb_spec y z),
           (N.ltb_spec z y), (N.ltb_spec x z), (N.ltb_spec z x);
    try lia.
  apply IH.
Qed.

Lemma codeUnitOrder_after (a b c : jstring) :
  0 < MoreSamples.codeUnitOrder a b -> 0 < MoreSamples.codeUnitOrder b c ->
  0 < MoreSamples.codeUnitOrder a c.
Proof.
  revert b c. induction a as [|x a IH]; intros [|y b] [|z c]; simpl; try lia.
  destruct (N.ltb_spec x y), (N.ltb_spec y x), (N.ltb_spec y z),
           (N.ltb_spec z y), (N.ltb_spec x z), (N.ltb_spec z x);
    try lia.
  apply IH.
Qed.

Lemma twoPages_collates : MoreTerms.collates MoreSamples.twoPages.
Proof.
  split; [|split; [|split; [|split]]]; cbn [localeCompare MoreSamples.twoPages].
  - apply codeUnitOrder_refl.
  - intros a b H. apply codeUnitOrder_eq in H as ->. apply codeUnitOrder_refl.
  - intros a b c H1 H2. apply codeUnitOrder_eq in H1 as ->. exact H2.
  - apply codeUnitOrder_before.
  - apply codeUnitOrder_after.
Qed.

(** Under a collation the comparator of the product handler is
    consistent, on whatever products. *)
Lemma byTitle_consistent (W : World) (l : list Product.Product) :
  MoreTerms.collates W -> consistentOn (Product.byTitle W) l = true.
Proof.
  intros (Hrefl & Hsym & Heq & Hlt & Hgt).
  apply SortFacts.consistentOn_intro; unfold sortCompare, Product.byTitle.
  - intros a _. apply Hrefl.
  - intros a b _ _. apply Hsym.
  - intros a b c _ _ _. apply Heq.
  - intros a b c _ _ _. apply Hlt.
  - intros a b c _ _ _. apply Hgt.
Qed.

Lemma allProducts_consistent (W : World) (sources : list Product.ProductSource) :
  MoreTerms.collates W ->
  Product.allProducts W sources
  = stableSort (Product.byTitle W) (concat (map (Product.productsOf W) sources)).
Proof.
  intros Hc. unfold Product.allProducts.
  apply SortFacts.sortTotal_consistent. now apply byTitle_consistent.
Qed.

(** Where the language fixes what the sort returns, sorting neither loses
    an item nor makes one up.  The news aggregate, when the sort returns,
    is a rearrangement of the feeds' dated items; under a collation the
    product aggregate is a rearrangement of the scraped products; and when
    every date of the channels' entries parses, the video sort returns a
    rearrangement of the entries, and the answer's [total] counts exactly
    them. *)
Theorem sorting_keeps_the_items (W : World) (request : Request) :
  (forall urls aggregate,
      newsAggregate W urls = Ok aggregate ->
      Permutation aggregate
                  (filter (fun it => truthy (News.pubDate it))
                          (concat (newsFeeds W urls))))
  /\ (forall sources,
         MoreTerms.collates W ->
         Permutation (Product.allProducts W sources)
                     (concat (map (Product.productsOf W) sources)))
  /\ (forall channelIds,
         Forall (fun v => MoreTerms.videoKey W v <> None)
                (concat (map (Videos.videosOf W) channelIds)) ->
         exists aggregate,
           Videos.sortedVideos W channelIds = Ok aggregate
           /\ Permutation aggregate
                          (concat (map (Videos.videosOf W) channelIds))
           /\ exists body,
                Videos.GET W (Ok channelIds) request = Json200 body
                /\ total body
                   = length (concat (map (Videos.videosOf W) channelIds))).
Proof.
  split; [|split].
  - intros urls aggregate E. unfold newsAggregate, News.allItems in E.
    rewrite (@DateFacts.guarded_sort News.NewsItem W News.pubDate
               (News.byDateDesc W) (fun a b => eq_refl)) in E.
    destruct (length _ <? 2)%nat; [now injection E as <-|].
    destruct (existsb _ _); [discriminate|]. injection E as <-.
    apply SortFacts.stableSort_perm.
  - intros sources Hc. rewrite (allProducts_consistent sources Hc).
    apply SortFacts.stableSort_perm.
  - intros channelIds Hall.
    destruct (@DateFacts.difference_sorted Videos.VideoItem W Videos.published
                (Videos.byPublishedDesc W) (fun a b => eq_refl) _ Hall)
      as (E & _).
    eexists. split; [exact E|]. split; [apply SortFacts.stableSort_perm|].
    unfold Videos.GET, Videos.sortedVideos. rewrite E.
    eexists. split; [reflexivity|]. cbn [total].
    apply Permutation_length, SortFacts.stableSort_perm.
Qed.

Lemma sorting_keeps_the_items_witness :
  (exists aggregate,
      newsAggregate twoFeeds twoUrls = Ok aggregate
      /\ Permutation aggregate
                     (filter (fun it => truthy (News.pubDate it))
                             (concat (newsFeeds twoFeeds twoUrls))))
  /\ (MoreTerms.collates MoreSamples.twoPages
      /\ Permutation (Product.allProducts MoreSamples.twoPages
                        [shop "shop.example"])
                     (concat (map (Product.productsOf MoreSamples.twoPages)
                                  [shop "shop.example"])))
  /\ Forall (fun v => MoreTerms.videoKey (videoWorld MoreSamples.datedPair) v
                      <> None)
            (concat (map (Videos.videosOf (videoWorld MoreSamples.datedPair))
                         [lit "UC1"]))
  /\ exists aggregate,
       Videos.sortedVideos (videoWorld MoreSamples.datedPair) [lit "UC1"]
       = Ok aggregate
       /\ length aggregate = 2%nat.
Proof.
  split; [|split; [|split]].
  - exists (tryCatch (newsAggregate twoFeeds twoUrls) []).
    assert (E : newsAggregate twoFeeds twoUrls
                = Ok (tryCatch (newsAggregate twoFeeds twoUrls) []))
      by (vm_compute; reflexivity).
    split; [exact E|].
    exact (proj1 (sorting_keeps_the_items twoFeeds noParams) twoUrls _ E).
  - split; [exact twoPages_collates|].
    exact (proj1 (proj2 (sorting_keeps_the_items MoreSamples.twoPages noParams))
             [shop "shop.example"] twoPages_collates).
  - vm_compute. repeat constructor; discriminate.
  - assert (Hall : Forall (fun v => MoreTerms.videoKey
                                      (videoWorld MoreSamples.datedPair) v
                                    <> None)
                          (concat (map (Videos.videosOf
                                          (videoWorld MoreSamples.datedPair))
                                       [lit "UC1"])))
      by (vm_compute; repeat constructor; discriminate).
    destruct (proj2 (proj2 (sorting_keeps_the_items
                              (videoWorld MoreSamples.datedPair) noParams))
                [lit "UC1"] Hall) as (aggregate & E & Hp & _).
    exists aggregate. split; [exact E|].
    now rewrite (Permutation_length Hp).
Defined.

(** The product list is in the order of the collation.  When
    [localeCompare] is a consistent comparator, the aggregate and every
    page of it are sorted by title, ascending, and products whose titles
    tie stay in the order in which the sources gave them. *)
Theorem product_order
        (W : World) (sources : list Product.ProductSource) (request : Request) :
  MoreTerms.collates W ->
  StronglySorted
    (fun a b => localeCompare W (Product.title a) (Product.title b) <= 0)
    (Product.allProducts W sources)
  /\ StronglySorted
       (fun a b => localeCompare W (Product.title a) (Product.title b) <= 0)
       (itemsOf (Product.GET W (Ok sources) request))
  /\ forall p,
       filter (tiedWith (Product.byTitle W) p) (Product.allProducts W sources)
       = filter (tiedWith (Product.byTitle W) p)
                (concat (map (Product.productsOf W) sources)).
Proof.
  intros Hc. pose proof (allProducts_consistent sources Hc) as E.
  assert (Hs : StronglySorted (notAfter (Product.byTitle W))
                              (Product.allProducts W sources)).
  { rewrite E.
    destruct (SortFacts.consistentOn_order _ _
                (byTitle_consistent
                   (concat (map (Product.productsOf W) sources)) Hc))
      as (_ & Htrans & Htotal).
    apply SortFacts.stableSort_sorted
      with (P := fun x => In x (concat (map (Product.productsOf W) sources)));
      auto.
    apply SortFacts.Forall_self. }
  split; [exact Hs|]. split.
  - cbn [Product.GET itemsOf items].
    destruct (slice_segment (Product.allProducts W sources)
                (Product.offsetOf request)
                (add (Product.offsetOf request) (Product.limitOf request)))
      as (before & after & Es).
    rewrite Es in Hs. now apply SortFacts.sorted_segment in Hs.
  - intros p. rewrite E. apply SortFacts.stableSort_ties. intros a b Ha Hb.
    destruct (SortFacts.consistentOn_order _ _
                (byTitle_consistent [p; a; b] Hc))
      as (Hrefl & Htrans & Htotal).
    apply SortFacts.tiedWith_tie
      with (P := fun x => In x [p; a; b]) (x := p); simpl; auto.
Qed.

Lemma product_order_witness :
  MoreTerms.collates MoreSamples.twoPages
  /\ map Product.title
         (itemsOf (Product.GET MoreSamples.twoPages
                     (Ok [shop "shop.example"]) noParams))
     = [lit "Camera"; lit "Phone"]
  /\ StronglySorted
       (fun a b => localeCompare MoreSamples.twoPages
                     (Product.title a) (Product.title b) <= 0)
       (itemsOf (Product.GET MoreSamples.twoPages
                   (Ok [shop "shop.example"]) noParams)).
Proof.
  split; [exact twoPages_collates|]. split; [vm_compute; reflexivity|].
  exact (proj1 (proj2 (@product_order MoreSamples.twoPages
                         [shop "shop.example"] noParams twoPages_collates))).
Defined.

(* ================================================================== *)
(** * News: where an item comes from                                   *)
(* ================================================================== *)

Lemma Forall2_In_r {A B} (R : A -> B -> Prop) (l : list A) (l' : list B) (b : B) :
  Forall2 R l l' -> In b l' -> exists a, In a l /\ R a b.
Proof.
  induction 1 as [|x y l l' Hxy _ IH]; [intros []|].
  intros [<-|Hb].
  - exists x. split; [now left|exact Hxy].
  - destruct (IH Hb) as (a & Ha & Hab). exists a. split; [now right|exact Hab].
Qed.

Lemma toNewsItem_domain (dom : jstring) (item : value) (it : News.NewsItem) :
  News.toNewsItem dom item = Ok it -> News.domain it = dom.
Proof.
  unfold News.toNewsItem, News.field. intros H.
  destruct (getProp (lit "title") item); simpl in H; [|discriminate].
  destruct (getProp (lit "link") item); simpl in H; [|discriminate].
  destruct (getProp (lit "pubDate") item); simpl in H; [|discriminate].
  destruct (getProp (lit "guid") item); simpl in H; [|discriminate].
  destruct (getProp (lit "content:encoded") item); simpl in H; [|discriminate].
  destruct (News.callTrim _); simpl in H; [|discriminate].
  destruct (getProp (lit "description") item); simpl in H; [|discriminate].
  destruct (getProp (lit "media:content") item); simpl in H; [|discriminate].
  injection H as <-. reflexivity.
Qed.

Lemma fetchRSSFeed_domain (W : World) (url : jstring) :
  Forall (fun it => hostname W url = Ok (News.domain it))
         (fst (News.fetchRSSFeed W url)).
Proof.
  unfold News.fetchRSSFeed. rewrite NewsFacts.fst_bind. simpl.
  destruct (fetch W url) as [|[|] xmlText]; simpl; try constructor.
  destruct (parseXML W xmlText) as [res|]; simpl; [|constructor].
  destruct (hostname W url) as [dom|]; simpl; [|constructor].
  destruct (asArray _) as [entries|]; simpl; [|constructor].
  destruct (rmap (News.toNewsItem dom) entries) as [newsItems|] eqn:E; simpl;
    [|constructor].
  apply Forall_forall. intros it Hin. apply filter_In in Hin as [Hin _].
  apply (rmap_Forall (News.toNewsItem dom) (fun it => News.domain it = dom))
    in E; [|apply toNewsItem_domain].
  now rewrite (proj1 (Forall_forall _ _) E it Hin).
Qed.

Lemma page_source (W : World) (urls : list jstring) (request : Request)
      (it : News.NewsItem) :
  In it (newsPage W urls request) ->
  exists url, In url urls /\ In it (fst (News.fetchRSSFeed W url)).
Proof.
  unfold newsPage. destruct (newsAggregate W urls) as [aggregate|] eqn:E;
    [|intros []].
  intros H. apply slice_incl in H.
  unfold newsAggregate, News.allItems, newsFeeds in E.
  apply (proj1 (SortFacts.sort_In _ _ _ it E)) in H.
  apply filter_In in H as [H _].
  apply in_concat in H as (feed & Hfeed & Hin).
  apply in_map_iff in Hfeed as (u & <- & Hu). eauto.
Qed.

Lemma answer_source (W : World) (urls : list jstring) (request : Request)
      (b : News.NewsItem) :
  In b (itemsOf (fst (News.GET W (Ok urls) request))) ->
  exists a, In a (newsPage W urls request) /\ enrichesTo W a b.
Proof.
  rewrite NewsFacts.GET_items.
  apply Forall2_In_r, NewsFacts.enrich_spec, NewsFacts.page_links.
Qed.

(** The [domain] of every item of an answer is the host name of one of
    the configured feed addresses: the one the item was read from. *)
Theorem news_domain_is_the_feed_host
        (W : World) (urls : list jstring) (request : Request) :
  Forall (fun it => exists url,
              In url urls /\ hostname W url = Ok (News.domain it))
         (itemsOf (fst (News.GET W (Ok urls) request))).
Proof.
  apply Forall_forall. intros b Hb.
  apply answer_source in Hb as (a & Ha & Hab).
  apply enrichesTo_same in Hab. destruct Hab as (_ & _ & _ & _ & _ & ->).
  apply page_source in Ha as (url & Hurl & Ha).
  exists url. split; [exact Hurl|].
  exact (proj1 (Forall_forall _ _) (fetchRSSFeed_domain W url) a Ha).
Qed.

(* ================================================================== *)
(** * The Open Graph image: what the pattern cuts out                  *)
(* ================================================================== *)

Lemma literal_split (p s rest : jstring) :
  News.literal p s = Some rest ->
  exists m, s = m ++ rest /\ map News.upper m = map News.upper p.
Proof.
  revert s. induction p as [|c p IH]; intros s.
  - destruct s; simpl; intros H; injection H as <-; exists []; auto.
  - destruct s as [|d s]; simpl; [discriminate|].
    destruct (N.eqb_spec (News.upper c) (News.upper d)) as [E|_]; [|discriminate].
    intros H. apply IH in H as (m & -> & Hm).
    exists (d :: m). simpl. rewrite Hm, E. auto.
Qed.

Lemma upper_gt (c : N) : News.upper c = 62%N -> c = 62%N.
Proof.
  unfold News.upper.
  destruct (N.leb_spec 97 c), (N.leb_spec c 122); simpl; lia.
Qed.

Lemma folded_no_gt (p m : jstring) :
  map News.upper m = map News.upper p ->
  forallb (fun c => negb (c =? 62)%N) p = true ->
  forallb (fun c => negb (c =? 62)%N) m = true.
Proof.
  revert p. induction m as [|d m IH]; intros [|c p]; simpl; try discriminate;
    [reflexivity|].
  intros H Hp. injection H as Hd Hm.
  apply andb_true_iff in Hp as [Hc Hp]. rewrite (IH p Hm Hp), andb_true_r.
  destruct (N.eqb_spec d 62) as [->|_]; [|reflexivity].
  symmetry in Hd. apply upper_gt in Hd. subst c. discriminate Hc.
Qed.

Lemma quote_no_gt (q : N) : News.isQuote q = true -> negb (q =? 62)%N = true.
Proof.
  unfold News.isQuote. intros H. apply orb_true_iff in H as [H|H];
    apply N.eqb_eq in H; subst q; reflexivity.
Qed.

Lemma andThen_split {R} (m : option jstring) (k : jstring -> option R) (r : R) :
  News.andThen m k = Some r -> exists s, m = Some s /\ k s = Some r.
Proof. destruct m as [s|]; simpl; [eauto|discriminate]. Qed.

Lemma quote_split {R} (k : jstring -> option R) (s : jstring) (r : R) :
  News.quote k s = Some r ->
  exists q rest, s = q :: rest /\ News.isQuote q = true /\ k rest = Some r.
Proof.
  destruct s as [|q rest]; simpl; [discriminate|].
  destruct (News.isQuote q) eqn:E; [eauto|discriminate].
Qed.

Lemma notGtPlus_split {R} (k : jstring -> option R) (s : jstring) (r : R) :
  News.notGtPlus k s = Some r ->
  exists taken rest,
    s = taken ++ rest /\ taken <> [] /\ forallb (fun c => negb (c =? 62)%N) taken = true
    /\ k rest = Some r.
Proof.
  induction s as [|c s IH]; simpl; [discriminate|].
  destruct (c =? 62)%N eqn:Ec; [discriminate|].
  destruct (News.notGtPlus k s) as [r'|] eqn:E.
  - intros H. injection H as <-.
    destruct (IH eq_refl) as (taken & rest & -> & _ & Ht & Hk).
    exists (c :: taken), rest. simpl. rewrite Ec.
    repeat split; auto; discriminate.
  - intros Hk. exists [c], s. simpl. rewrite Ec.
    repeat split; auto; discriminate.
Qed.

Lemma group_shape (s g : jstring) :
  News.group s = Some g ->
  g <> [] /\ forallb (fun c => negb (News.isQuote c)) g = true
  /\ exists q rest, s = g ++ q :: rest /\ News.isQuote q = true.
Proof.
  unfold News.group.
  pose proof (takeWhile_all (fun c => negb (News.isQuote c)) s) as Hall.
  pose proof (takeWhile_dropWhile (fun c => negb (News.isQuote c)) s) as Hs.
  destruct (takeWhile (fun c => negb (News.isQuote c)) s) as [|c g'];
    [discriminate|].
  destruct (dropWhile (fun c => negb (News.isQuote c)) s) as [|q rest] eqn:Ed;
    [discriminate|].
  intros H. injection H as <-.
  split; [discriminate|]. split; [exact Hall|].
  exists q, rest. split; [exact Hs|].
  apply dropWhile_head in Ed. now apply negb_false_iff in Ed.
Qed.

Lemma matchOgImageAt_shape (s g : jstring) :
  News.matchOgImageAt s = Some g ->
  g <> [] /\ forallb (fun c => negb (News.isQuote c)) g = true
  /\ exists opening inside q0 q1 after,
       s = opening ++ inside ++ q0 :: g ++ q1 :: after
       /\ map News.upper opening = map News.upper (lit "<meta")
       /\ forallb (fun c => negb (c =? 62)%N) inside = true
       /\ News.isQuote q0 = true /\ News.isQuote q1 = true.
Proof.
  unfold News.matchOgImageAt. intros H.
  apply andThen_split in H as (s0 & H0 & H).
  apply literal_split in H0 as (m0 & -> & Hm0).
  apply notGtPlus_split in H as (t1 & s1 & -> & _ & Ht1 & H).
  apply andThen_split in H as (s2 & H2 & H).
  apply literal_split in H2 as (m2 & -> & Hm2).
  apply quote_split in H as (qa & s3 & -> & Hqa & H).
  apply andThen_split in H as (s4 & H4 & H).
  apply literal_split in H4 as (m4 & -> & Hm4).
  apply quote_split in H as (qb & s5 & -> & Hqb & H).
  apply notGtPlus_split in H as (t6 & s6 & -> & _ & Ht6 & H).
  apply andThen_split in H as (s7 & H7 & H).
  apply literal_split in H7 as (m7 & -> & Hm7).
  apply quote_split in H as (q0 & s8 & -> & Hq0 & H).
  apply group_shape in H as (Hne & Hg & q1 & after & -> & Hq1).
  split; [exact Hne|]. split; [exact Hg|].
  exists m0, (t1 ++ m2 ++ qa :: m4 ++ qb :: t6 ++ m7), q0, q1, after.
  split; [|split; [exact Hm0|split; [|auto]]].
  - repeat (rewrite <- app_assoc; cbn [app]). reflexivity.
  - apply folded_no_gt in Hm2, Hm4, Hm7; try reflexivity.
    apply quote_no_gt in Hqa, Hqb.
    rewrite !forallb_app. cbn [forallb]. rewrite !forallb_app.
    cbn [forallb]. rewrite !forallb_app.
    now rewrite Ht1, Hm2, Hqa, Hm4, Hqb, Ht6, Hm7.
Qed.

(** A match of the whole page is a match at one of its positions. *)
Lemma matchOgImage_found (html g : jstring) :
  News.matchOgImage html = Some g ->
  exists before here,
    html = before ++ here /\ News.matchOgImageAt here = Some g.
Proof.
  assert (Hunfold : forall h,
             News.matchOgImage h
             = match News.matchOgImageAt h with
               | Some g => Some g
               | None => match h with
                         | [] => None
                         | _ :: h' => News.matchOgImage h'
                         end
               end) by (intros []; reflexivity).
  induction html as [|c html IH]; rewrite Hunfold.
  - destruct (News.matchOgImageAt []) eqn:E; [|discriminate].
    intros H; injection H as <-. exists [], []. auto.
  - destruct (News.matchOgImageAt (c :: html)) eqn:E.
    + intros H; injection H as <-. exists [], (c :: html). auto.
    + intros H. apply IH in H as (before & here & -> & H).
      exists (c :: before), here. auto.
Qed.

Lemma matchOgImage_nonempty (html g : jstring) :
  News.matchOgImage html = Some g -> g <> [].
Proof.
  intros H. apply matchOgImage_found in H as (before & here & _ & H).
  now apply matchOgImageAt_shape in H as (Hne & _).
Qed.

(** The image the enrichment pass finds is a piece of the page: a run of
    code units that is not empty and holds no quote, standing between two
    quotes, inside one tag that opens with [<meta] in any case (nothing
    between the opening and the value is a [>]). *)
Theorem og_image_is_cut_from_a_meta_tag (html g : jstring) :
  News.matchOgImage html = Some g ->
  g <> [] /\ forallb (fun c => negb (News.isQuote c)) g = true
  /\ exists before opening inside q0 q1 after,
       html = before ++ opening ++ inside ++ q0 :: g ++ q1 :: after
       /\ map News.upper opening = map News.upper (lit "<meta")
       /\ forallb (fun c => negb (c =? 62)%N) inside = true
       /\ News.isQuote q0 = true /\ News.isQuote q1 = true.
Proof.
  intros H. apply matchOgImage_found in H as (before & here & -> & H).
  apply matchOgImageAt_shape in H
    as (Hne & Hg & opening & inside & q0 & q1 & after & -> & Hrest).
  split; [exact Hne|]. split; [exact Hg|].
  exists before, opening, inside, q0, q1, after. auto.
Qed.

Lemma og_image_is_cut_from_a_meta_tag_witness :
  News.matchOgImage pageHtml = Some (lit "https://news.example/1.jpg")
  /\ forallb (fun c => negb (News.isQuote c)) (lit "https://news.example/1.jpg")
     = true.
Proof.
  assert (H : News.matchOgImage pageHtml = Some (lit "https://news.example/1.jpg"))
    by (vm_compute; reflexivity).
  split; [exact H|].
  exact (proj1 (proj2 (og_image_is_cut_from_a_meta_tag pageHtml H))).
Defined.

(** An item comes back without an image only when nothing gave one: its
    feed had no media address for it, and its own page did not answer,
    answered with a failure, or held no Open Graph image tag. *)
Theorem no_image_only_when_none_was_found
        (W : World) (urls : list jstring) (request : Request) :
  Forall (fun b =>
            truthy (News.image b) = false ->
            exists a,
              In a (newsPage W urls request) /\ sameButImage a b
              /\ truthy (News.image a) = false
              /\ noOgImage W (News.link a))
         (itemsOf (fst (News.GET W (Ok urls) request))).
Proof.
  apply Forall_forall. intros b Hb Himg.
  apply answer_source in Hb as (a & Ha & Hab).
  exists a. split; [exact Ha|]. split; [now apply enrichesTo_same in Hab|].
  pose proof (NewsFacts.page_items W urls request a Ha) as (Htl & _ & Hn).
  apply andb_true_iff in Htl as [_ Hl].
  unfold enrichesTo, flagged in Hab. rewrite Hn, Hl, andb_true_r in Hab.
  destruct (truthy (News.image a)) eqn:Ea; cbn [negb] in Hab.
  - subst b. congruence.
  - split; [reflexivity|]. destruct Hab as (_ & _ & _ & Hsome).
    unfold noOgImage.
    destruct (pageOf W (News.link a)) as [|[|] html] eqn:Ef; auto.
    destruct (News.matchOgImage html) as [[|c g]|] eqn:Em; auto.
    + now apply matchOgImage_nonempty in Em.
    + rewrite (Hsome html c g eq_refl Em) in Himg. discriminate Himg.
Qed.

(* ================================================================== *)
(** * News: one entry can cost the whole feed                          *)
(* ================================================================== *)

Lemma rmap_throw {A B} (f : A -> result B) (l : list A) (x : A) :
  In x l -> f x = Throw -> rmap f l = Throw.
Proof.
  intros Hin Hx. induction l as [|y l IH]; [destruct Hin|].
  simpl. destruct Hin as [->|Hin].
  - now rewrite Hx.
  - destruct (f y); [|reflexivity]. simpl. now rewrite (IH Hin).
Qed.

Lemma toNewsItem_not_a_string (dom : jstring) (item x : value) :
  News.field "content:encoded" item = Ok x -> MoreTerms.notString x = true ->
  News.toNewsItem dom item = Throw.
Proof.
  unfold News.toNewsItem, News.field. intros Hx Hn.
  destruct item; try discriminate Hx;
    cbn [getProp rbind] in *; injection Hx as <-;
    (destruct (optFirst _); try discriminate Hn; reflexivity).
Qed.

Lemma fetchRSSFeed_entries (W : World) (url xmlText : jstring) (tree : value)
      (entries : list value) :
  fetch W url = Response true xmlText ->
  parseXML W xmlText = Ok tree ->
  MoreTerms.rssItems tree = VArr entries ->
  fst (News.fetchRSSFeed W url)
  = tryCatch
      (domain <- hostname W url ;;
       newsItems <- rmap (News.toNewsItem domain) entries ;;
       Ok (filter News.hasTitleAndLink newsItems))%result
      [].
Proof.
  intros Hf Hp Hi. unfold News.fetchRSSFeed. rewrite NewsFacts.fst_bind.
  cbn [News.httpFetch fst News.ret]. rewrite Hf, Hp. cbn [rbind].
  unfold MoreTerms.rssItems in Hi. rewrite Hi.
  destruct (hostname W url); reflexivity.
Qed.

(** One entry can cost the whole feed.  When the [content:encoded] of an
    item is not a string (the parser gives an object for an element that
    carries an attribute), calling [trim] on it throws, the exception is
    caught around the feed, and the feed gives no item at all, the other
    entries included. *)
Theorem encoded_content_that_is_no_string_drops_the_feed
        (W : World) (url xmlText : jstring) (tree : value)
        (entries : list value) (entry x : value) :
  fetch W url = Response true xmlText ->
  parseXML W xmlText = Ok tree ->
  MoreTerms.rssItems tree = VArr entries ->
  In entry entries ->
  News.field "content:encoded" entry = Ok x ->
  MoreTerms.notString x = true ->
  fst (News.fetchRSSFeed W url) = [].
Proof.
  intros Hf Hp Hi Hin Hx Hn.
  rewrite (fetchRSSFeed_entries W url Hf Hp Hi).
  destruct (hostname W url) as [dom|]; [|reflexivity]. cbn [rbind].
  rewrite (rmap_throw (News.toNewsItem dom) entries entry Hin
             (toNewsItem_not_a_string dom entry Hx Hn)).
  reflexivity.
Qed.

Lemma encoded_content_that_is_no_string_drops_the_feed_witness :
  In (parsed MoreSamples.encodedItem)
     (map parsed
          [ item "Short" "https://c.example/1" "Mon, 01 Jan 2024 00:00:00 GMT";
            MoreSamples.encodedItem ])
  /\ fst (News.fetchRSSFeed MoreSamples.encodedWorld (lit "https://c.example/rss"))
     = []
  /\ length (NewsPlain.fetchRSSFeed MoreSamples.encodedWorld
               (lit "https://c.example/rss")) = 2%nat.
Proof.
  assert (Hin : In (parsed MoreSamples.encodedItem)
                   (map parsed
                        [ item "Short" "https://c.example/1"
                               "Mon, 01 Jan 2024 00:00:00 GMT";
                          MoreSamples.encodedItem ]))
    by (right; left; reflexivity).
  split; [exact Hin|]. split; [|vm_compute; reflexivity].
  refine (@encoded_content_that_is_no_string_drops_the_feed
            MoreSamples.encodedWorld (lit "https://c.example/rss")
            (lit (source MoreSamples.feedC))
            (parsed MoreSamples.feedC)
            (map parsed
                 [ item "Short" "https://c.example/1"
                        "Mon, 01 Jan 2024 00:00:00 GMT";
                   MoreSamples.encodedItem ])
            (parsed MoreSamples.encodedItem)
            (VObj [(lit "_", VStr (lit "Body"));
                   (lit "$", VObj [(lit "type", VStr (lit "html"))])])
            _ _ _ Hin _ _);
    vm_compute; reflexivity.
Defined.

(* ================================================================== *)
(** * News: the handler without the enrichment pass                    *)
(* ================================================================== *)

Lemma toNewsItem_both (dom : jstring) (item : value) (a : News.NewsItem) :
  News.toNewsItem dom item = Ok a ->
  exists b, NewsPlain.toNewsItem dom item = Ok b /\ MoreTerms.sameCore a b.
Proof.
  unfold News.toNewsItem, NewsPlain.toNewsItem, News.field. intros H.
  destruct (getProp (lit "title") item); simpl in H; [|discriminate].
  destruct (getProp (lit "link") item); simpl in H; [|discriminate].
  destruct (getProp (lit "pubDate") item); simpl in H; [|discriminate].
  destruct (getProp (lit "guid") item); simpl in H; [|discriminate].
  destruct (getProp (lit "content:encoded") item); simpl in H; [|discriminate].
  destruct (News.callTrim _); simpl in H; [|discriminate].
  destruct (getProp (lit "description") item); simpl in H; [|discriminate].
  destruct (getProp (lit "media:content") item); simpl in H; [|discriminate].
  injection H as <-. simpl. eexists. split; [reflexivity|].
  repeat split.
Qed.

Lemma rmap_both (dom : jstring) (entries : list value) (l : list News.NewsItem) :
  rmap (News.toNewsItem dom) entries = Ok l ->
  exists l', rmap (NewsPlain.toNewsItem dom) entries = Ok l'
             /\ Forall2 MoreTerms.sameCore l l'.
Proof.
  revert l. induction entries as [|e entries IH]; simpl; intros l H.
  - injection H as <-. exists []. split; [reflexivity|constructor].
  - destruct (News.toNewsItem dom e) as [a|] eqn:Ea; simpl in H; [|discriminate].
    destruct (rmap (News.toNewsItem dom) entries) as [l0|]; simpl in H;
      [|discriminate].
    injection H as <-.
    destruct (toNewsItem_both dom e Ea) as (b & -> & Hab).
    destruct (IH l0 eq_refl) as (l' & -> & Hl).
    exists (b :: l'). split; [reflexivity|now constructor].
Qed.

Lemma filter_both (l : list News.NewsItem) (l' : list NewsPlain.NewsItem) :
  Forall2 MoreTerms.sameCore l l' ->
  Forall2 MoreTerms.sameCore (filter News.hasTitleAndLink l)
          (filter NewsPlain.hasTitleAndLink l').
Proof.
  induction 1 as [|a b l l' Hab _ IH]; [constructor|].
  simpl. unfold News.hasTitleAndLink at 1, NewsPlain.hasTitleAndLink at 1.
  destruct Hab as (Ht & Hl & Hrest). rewrite Ht, Hl.
  destruct (truthy (News.title a) && truthy (News.link a)); [|exact IH].
  constructor; [|exact IH]. repeat split; tauto.
Qed.

(** The two RSS handlers read a feed alike.  Unless the enriching one
    loses the feed to an exception, both give the same items in the same
    order, equal in title, link, date, guid, image and domain: they differ
    in the description and in the flag only.  The plain one never gives
    fewer. *)
Theorem plain_and_enriching_feeds_agree (W : World) (url : jstring) :
  (fst (News.fetchRSSFeed W url) = []
   \/ Forall2 MoreTerms.sameCore (fst (News.fetchRSSFeed W url))
              (NewsPlain.fetchRSSFeed W url))
  /\ (length (fst (News.fetchRSSFeed W url))
      <= length (NewsPlain.fetchRSSFeed W url))%nat.
Proof.
  assert (H : fst (News.fetchRSSFeed W url) = []
              \/ Forall2 MoreTerms.sameCore (fst (News.fetchRSSFeed W url))
                         (NewsPlain.fetchRSSFeed W url)).
  { unfold News.fetchRSSFeed, NewsPlain.fetchRSSFeed.
    rewrite NewsFacts.fst_bind. cbn [News.httpFetch fst News.ret].
    destruct (fetch W url) as [|[|] xmlText]; try (now left).
    destruct (parseXML W xmlText) as [res|]; cbn [rbind tryCatch]; [|now left].
    destruct (hostname W url) as [dom|]; cbn [rbind tryCatch]; [|now left].
    destruct (asArray _) as [entries|]; cbn [rbind tryCatch]; [|now left].
    destruct (rmap (News.toNewsItem dom) entries) as [l|] eqn:E;
      cbn [rbind tryCatch]; [|now left].
    destruct (rmap_both dom entries E) as (l' & -> & Hl).
    right. cbn [rbind tryCatch]. now apply filter_both. }
  split; [exact H|].
  destruct H as [-> | H]; [simpl; lia|].
  apply Forall2_length in H. lia.
Qed.

Lemma plainItems_sorted (W : World) (urls : list jstring)
      (all : list NewsPlain.NewsItem) :
  NewsPlain.allItems W urls = Ok all ->
  StronglySorted
    (fun a b => newestFirst (MoreTerms.plainKey W a) (MoreTerms.plainKey W b))
    all
  /\ forall k,
       filter (fun it => sameKey k (MoreTerms.plainKey W it)) all
       = filter (fun it => sameKey k (MoreTerms.plainKey W it))
                (filter (fun it => truthy (NewsPlain.pubDate it))
                        (concat (map (NewsPlain.fetchRSSFeed W) urls))).
Proof.
  intros E.
  exact (@DateFacts.guarded_sorted NewsPlain.NewsItem W NewsPlain.pubDate
           (NewsPlain.byDateDesc W) (fun a b => eq_refl) _ all E).
Qed.

(** The plain handler returns the slice itself.  Where its sort returns,
    for a valid offset [o] and limit [n] its page is the aggregate sliced
    at [[o, o + n)], with [total] the length of the aggregate and
    [hasMore] equal to [o + n < total]; where the sort throws, on a date
    that cannot be read, the answer is the error body. *)
Theorem plain_handler_returns_the_slice
        (W : World) (urls : list jstring) (request : Request) :
  (forall all o n,
      NewsPlain.allItems W urls = Ok all ->
      News.offsetOf request = ofZ (Z.of_nat o) ->
      News.limitOf request = ofZ (Z.of_nat n) ->
      NewsPlain.GET W (Ok urls) request
      = Json200 {| items := firstn n (skipn o all);
                   hasMore := (o + n <? length all)%nat;
                   total := length all |})
  /\ (NewsPlain.allItems W urls = Throw ->
      NewsPlain.GET W (Ok urls) request
      = Json500 (lit "Failed to fetch RSS feeds")).
Proof.
  split.
  - intros all o n E Ho Hn. unfold NewsPlain.GET.
    rewrite E, Ho, Hn, slice_window, ltb_window. reflexivity.
  - intros E. unfold NewsPlain.GET. now rewrite E.
Qed.

Lemma plain_handler_returns_the_slice_witness :
  (exists all,
      NewsPlain.allItems twoFeeds twoUrls = Ok all
      /\ News.offsetOf (params "3" "3") = ofZ (Z.of_nat 3)
      /\ News.limitOf (params "3" "3") = ofZ (Z.of_nat 3)
      /\ NewsPlain.GET twoFeeds (Ok twoUrls) (params "3" "3")
         = Json200 {| items := firstn 3 (skipn 3 all);
                      hasMore := (3 + 3 <? length all)%nat;
                      total := length all |}
      /\ map NewsPlain.title (firstn 3 (skipn 3 all))
         = [VStr (lit "B2"); VStr (lit "A1")])
  /\ NewsPlain.allItems MoreSamples.stampedWorld [lit "https://d.example/rss"]
     = Throw
  /\ NewsPlain.GET MoreSamples.stampedWorld (Ok [lit "https://d.example/rss"])
       noParams
     = Json500 (lit "Failed to fetch RSS feeds").
Proof.
  split.
  - exists (tryCatch (NewsPlain.allItems twoFeeds twoUrls) []).
    assert (E : NewsPlain.allItems twoFeeds twoUrls
                = Ok (tryCatch (NewsPlain.allItems twoFeeds twoUrls) []))
      by (vm_compute; reflexivity).
    split; [exact E|]. split; [reflexivity|]. split; [reflexivity|].
    split; [|vm_compute; reflexivity].
    exact (proj1 (plain_handler_returns_the_slice twoFeeds twoUrls
                    (params "3" "3")) _ 3%nat 3%nat E eq_refl eq_refl).
  - assert (E : NewsPlain.allItems MoreSamples.stampedWorld
                  [lit "https://d.example/rss"] = Throw)
      by (vm_compute; reflexivity).
    split; [exact E|].
    exact (proj2 (plain_handler_returns_the_slice MoreSamples.stampedWorld
                    [lit "https://d.example/rss"] noParams) E).
Defined.

(** The plain handler's list is in order: every page of it, and the
    aggregate the handler answers from, run from the latest date to the
    earliest, the items whose date does not parse after all the others,
    and the items of one date (and those without a valid date) in the
    order in which the feeds gave them. *)
Theorem plain_news_order (W : World) (urls : list jstring) (request : Request) :
  StronglySorted
    (fun a b => newestFirst (MoreTerms.plainKey W a) (MoreTerms.plainKey W b))
    (itemsOf (NewsPlain.GET W (Ok urls) request))
  /\ forall all,
       NewsPlain.allItems W urls = Ok all ->
       StronglySorted
         (fun a b => newestFirst (MoreTerms.plainKey W a)
                                 (MoreTerms.plainKey W b))
         all
       /\ forall k,
            filter (fun it => sameKey k (MoreTerms.plainKey W it)) all
            = filter (fun it => sameKey k (MoreTerms.plainKey W it))
                     (filter (fun it => truthy (NewsPlain.pubDate it))
                             (concat (map (NewsPlain.fetchRSSFeed W) urls))).
Proof.
  split; [|apply plainItems_sorted].
  unfold NewsPlain.GET.
  destruct (NewsPlain.allItems W urls) as [all|] eqn:E; [|constructor].
  cbn [itemsOf items].
  destruct (plainItems_sorted W urls E) as [Hs _].
  destruct (slice_segment all (News.offsetOf request)
              (add (News.offsetOf request) (News.limitOf request)))
    as (before & after & Es).
  rewrite Es in Hs. now apply SortFacts.sorted_segment in Hs.
Qed.

Lemma plain_news_order_witness :
  exists all,
    NewsPlain.allItems twoFeeds twoUrls = Ok all
    /\ map NewsPlain.title all
       = [VStr (lit "A5"); VStr (lit "B4"); VStr (lit "A3"); VStr (lit "B2");
          VStr (lit "A1")]
    /\ StronglySorted
         (fun a b => newestFirst (MoreTerms.plainKey twoFeeds a)
                                 (MoreTerms.plainKey twoFeeds b))
         all.
Proof.
  exists (tryCatch (NewsPlain.allItems twoFeeds twoUrls) []).
  assert (E : NewsPlain.allItems twoFeeds twoUrls
              = Ok (tryCatch (NewsPlain.allItems twoFeeds twoUrls) []))
    by (vm_compute; reflexivity).
  split; [exact E|]. split; [vm_compute; reflexivity|].
  exact (proj1 (proj2 (plain_news_order twoFeeds twoUrls noParams) _ E)).
Defined.

(* ================================================================== *)
(** * From the page to the handler: the numbers in the request         *)
(* ================================================================== *)

Lemma digitValue_digit (c : N) :
  isDigit c = true ->
  digitValue c = Some (Z.of_N (c - 48)) /\ isRadixDigit 10 c = true.
Proof.
  unfold isRadixDigit, digitValue, isDigit. intros H. rewrite H.
  split; [reflexivity|].
  apply andb_true_iff in H as [H1 H2]. apply N.leb_le in H1, H2.
  apply Z.ltb_lt. lia.
Qed.

Lemma digitsValue_snoc (ds : jstring) (c : N) :
  isDigit c = true ->
  digitsValue 10 (ds ++ [c]) = digitsValue 10 ds * 10 + Z.of_N (c - 48).
Proof.
  intros Hc. unfold digitsValue. rewrite fold_left_app. simpl.
  now rewrite (proj1 (@digitValue_digit c Hc)).
Qed.

Lemma isDigit_offset (n : N) : (n < 10)%N -> isDigit (48 + n) = true.
Proof.
  intros H. unfold isDigit. apply andb_true_iff.
  split; apply N.leb_le; lia.
Qed.

Lemma decimalDigits_spec (fuel : nat) (n : N) :
  (N.to_nat n < fuel)%nat ->
  Text.decimalDigits fuel n <> []
  /\ forallb isDigit (Text.decimalDigits fuel n) = true
  /\ digitsValue 10 (Text.decimalDigits fuel n) = Z.of_N n.
Proof.
  revert n. induction fuel as [|fuel IH]; intros n Hn; [lia|].
  cbn [Text.decimalDigits]. destruct (N.ltb_spec n 10) as [Hlt|Hge].
  - split; [discriminate|]. split.
    + cbn [forallb]. now rewrite isDigit_offset.
    + unfold digitsValue. cbn [fold_left].
      rewrite (proj1 (@digitValue_digit _ (@isDigit_offset n Hlt))). lia.
  - assert (Hdiv : (N.to_nat (n / 10) < fuel)%nat).
    { assert (n / 10 < n)%N by (apply N.div_lt; lia). lia. }
    destruct (IH _ Hdiv) as (Hne & Hall & Hval).
    assert (Hmod : (n mod 10 < 10)%N) by (apply N.mod_lt; lia).
    split; [intros E; now apply app_eq_nil in E as [_ E]|]. split.
    + rewrite forallb_app, Hall. cbn [forallb]. now rewrite isDigit_offset.
    + rewrite digitsValue_snoc by now apply isDigit_offset.
      rewrite Hval.
      assert (Hn10 : n = (10 * (n / 10) + n mod 10)%N)
        by (apply N.div_mod; discriminate).
      generalize dependent (n / 10)%N. generalize dependent (n mod 10)%N.
      intros r Hr q. intros. lia.
Qed.

Lemma decimal_spec (n : nat) :
  Text.decimal n <> []
  /\ forallb isDigit (Text.decimal n) = true
  /\ digitsValue 10 (Text.decimal n) = Z.of_nat n.
Proof.
  unfold Text.decimal.
  destruct (@decimalDigits_spec (S n) (N.of_nat n)) as (H1 & H2 & H3); [lia|].
  split; [exact H1|]. split; [exact H2|]. rewrite H3. lia.
Qed.

Lemma digit_not_space (c : N) : isDigit c = true -> isWhiteSpace c = false.
Proof.
  intros H. apply priceChar_not_space. unfold Product.isPriceChar.
  now rewrite H.
Qed.

Lemma takeWhile_digits (ds rest : jstring) :
  forallb isDigit ds = true -> MoreTerms.endsNumber rest = true ->
  takeWhile (isRadixDigit 10) (ds ++ rest) = ds.
Proof.
  intros Hds Hrest. induction ds as [|c ds IH]; simpl.
  - destruct rest as [|c rest]; [reflexivity|]. simpl.
    destruct (isRadixDigit 10 c) eqn:E; [|reflexivity].
    apply isRadixDigit_decimal in E. simpl in Hrest. rewrite E in Hrest.
    discriminate Hrest.
  - simpl in Hds. apply andb_true_iff in Hds as [Hc Hds].
    rewrite (proj2 (@digitValue_digit c Hc)). now rewrite IH.
Qed.

(** [parseInt] reads the leading digits and stops there; below [2^53]
    the integer they print is the Number it gives. *)
Lemma parseInt_decimal (n : nat) (rest : jstring) :
  Z.of_nat n < 2 ^ 53 ->
  MoreTerms.endsNumber rest = true ->
  parseInt (Text.decimal n ++ rest) = ofZ (Z.of_nat n).
Proof.
  intros Hsafe Hrest. destruct (decimal_spec n) as (Hne & Hall & Hval).
  destruct (Text.decimal n) as [|c ds] eqn:Ed; [congruence|].
  pose proof Hall as Hall'. simpl in Hall'.
  apply andb_true_iff in Hall' as [Hc Hds].
  unfold parseInt, trimStart. cbn [app dropWhile].
  rewrite (@digit_not_space c Hc).
  assert (Hsign : stripSign (c :: ds ++ rest) = (false, c :: ds ++ rest)).
  { unfold stripSign, isDigit in *.
    apply andb_true_iff in Hc as [H1 _]. apply N.leb_le in H1.
    destruct (N.eqb_spec c 45); [lia|]. destruct (N.eqb_spec c 43); [lia|].
    reflexivity. }
  rewrite Hsign.
  assert (Hhex : stripHexPrefix (c :: ds ++ rest) = (10, c :: ds ++ rest)).
  { unfold stripHexPrefix.
    destruct (ds ++ rest) as [|c1 r] eqn:E; [reflexivity|].
    assert (Hx : ((c1 =? 120) || (c1 =? 88))%N = false).
    { destruct ds as [|d ds'].
      - simpl in E. subst rest. simpl in Hrest.
        apply negb_true_iff in Hrest.
        apply orb_false_iff in Hrest as [Hrest Hx2].
        apply orb_false_iff in Hrest as [_ Hx1]. now rewrite Hx1, Hx2.
      - simpl in E. injection E as <- _. simpl in Hds.
        apply andb_true_iff in Hds as [Hd _]. unfold isDigit in Hd.
        apply andb_true_iff in Hd as [_ Hd]. apply N.leb_le in Hd.
        destruct (N.eqb_spec d 120); [lia|]. destruct (N.eqb_spec d 88); [lia|].
        reflexivity. }
    now rewrite Hx, andb_false_r. }
  rewrite Hhex.
  change (c :: ds ++ rest) with ((c :: ds) ++ rest).
  rewrite (@takeWhile_digits (c :: ds) rest Hall Hrest).
  rewrite Hval. rewrite numberOf_safe by lia. f_equal. f_equal. lia.
Qed.

Lemma paramOr_decimal (n : nat) (rest dflt : jstring) :
  paramOr (Some (Text.decimal n ++ rest)) dflt = Text.decimal n ++ rest.
Proof.
  destruct (decimal_spec n) as (Hne & _).
  destruct (Text.decimal n); [congruence|reflexivity].
Qed.

(** A printed number, given as a parameter, is parsed back. *)
Lemma param_read_back (n : nat) (dflt : jstring) :
  Z.of_nat n < 2 ^ 53 ->
  parseInt (paramOr (Some (Text.decimal n)) dflt) = ofZ (Z.of_nat n).
Proof.
  intros H. rewrite <- (app_nil_r (Text.decimal n)).
  now rewrite paramOr_decimal, parseInt_decimal.
Qed.

(** What a page asks for is what the handler reads, as long as the
    numbers are below [2^53], from where on a Number no longer holds
    every integer: the offset and the limit that a page prints into its
    request come out of the news and of the product handler's [parseInt]
    as the same numbers. *)
Theorem page_request_is_read_back (offset limit : nat) :
  Z.of_nat offset < 2 ^ 53 -> Z.of_nat limit < 2 ^ 53 ->
  News.offsetOf (Pages.query offset limit) = ofZ (Z.of_nat offset)
  /\ News.limitOf (Pages.query offset limit) = ofZ (Z.of_nat limit)
  /\ Product.offsetOf (Pages.query offset limit) = ofZ (Z.of_nat offset)
  /\ Product.limitOf (Pages.query offset limit) = ofZ (Z.of_nat limit).
Proof.
  intros Ho Hl.
  unfold News.offsetOf, News.limitOf, Product.offsetOf, Product.limitOf,
    Pages.query. cbn [offsetParam limitParam].
  rewrite !(@param_read_back offset _ Ho), !(@param_read_back limit _ Hl).
  auto.
Qed.

Lemma page_request_is_read_back_witness :
  Pages.query 30 10 = params "30" "10"
  /\ News.offsetOf (Pages.query 30 10) = ofZ 30
  /\ News.limitOf (Pages.query 30 10) = ofZ 10.
Proof.
  split; [reflexivity|].
  assert (Ho : Z.of_nat 30 < 2 ^ 53) by (vm_compute; reflexivity).
  assert (Hl : Z.of_nat 10 < 2 ^ 53) by (vm_compute; reflexivity).
  destruct (page_request_is_read_back 30 10 Ho Hl) as (H1 & H2 & _).
  split; [exact H1|exact H2].
Defined.

(** Text after the digits is ignored.  An [offset] or [limit] that starts
    with a non-negative integer below [2^53] and goes on with anything
    that is neither a digit nor an [x] is read by the news and the product
    handler as that integer. *)
Theorem text_after_the_digits_is_ignored
        (n : nat) (rest : jstring) (other : option jstring) :
  Z.of_nat n < 2 ^ 53 ->
  MoreTerms.endsNumber rest = true ->
  News.offsetOf {| offsetParam := Some (Text.decimal n ++ rest);
                   limitParam := other |} = ofZ (Z.of_nat n)
  /\ News.limitOf {| offsetParam := other;
                     limitParam := Some (Text.decimal n ++ rest) |}
     = ofZ (Z.of_nat n)
  /\ Product.offsetOf {| offsetParam := Some (Text.decimal n ++ rest);
                         limitParam := other |} = ofZ (Z.of_nat n)
  /\ Product.limitOf {| offsetParam := other;
                        limitParam := Some (Text.decimal n ++ rest) |}
     = ofZ (Z.of_nat n).
Proof.
  intros Hn H.
  unfold News.offsetOf, News.limitOf, Product.offsetOf, Product.limitOf.
  cbn [offsetParam limitParam].
  rewrite !paramOr_decimal, !(@parseInt_decimal n rest Hn H). auto.
Qed.

Lemma text_after_the_digits_is_ignored_witness :
  Z.of_nat 12 < 2 ^ 53
  /\ MoreTerms.endsNumber (lit "abc") = true
  /\ Text.decimal 12 ++ lit "abc" = lit "12abc"
  /\ News.offsetOf {| offsetParam := Some (Text.decimal 12 ++ lit "abc");
                      limitParam := None |} = ofZ (Z.of_nat 12).
Proof.
  assert (Hn : Z.of_nat 12 < 2 ^ 53) by (vm_compute; reflexivity).
  split; [exact Hn|]. split; [reflexivity|]. split; [reflexivity|].
  exact (proj1 (text_after_the_digits_is_ignored 12 (lit "abc") None Hn eq_refl)).
Defined.

(** From [2^53] on the digits are read as the nearest Number, not as the
    integer they print. *)
Example digits_beyond_the_safe_integers :
  News.offsetOf {| offsetParam := Some (lit "9007199254740993abc");
                   limitParam := None |}
  = ofZ 9007199254740992.
Proof. vm_compute. reflexivity. Qed.

(* ================================================================== *)
(** * The pages: loading on scroll                                     *)
(* ================================================================== *)

Lemma firstn_add {A} (m n : nat) (l : list A) :
  firstn (m + n) l = firstn m l ++ firstn n (skipn m l).
Proof.
  revert l. induction m as [|m IH]; intros l; [reflexivity|].
  destruct l as [|x l]; [now rewrite skipn_nil, !firstn_nil|].
  cbn [Nat.add firstn skipn app]. now rewrite IH.
Qed.

Lemma firstn_past {A} (m n : nat) (l : list A) :
  (length l <= m)%nat -> firstn (m + n) l = firstn m l.
Proof. intros H. rewrite !firstn_all2 by lia. reflexivity. Qed.

Section Scrolling.
Variable I : Type.
Variable fetchPage : nat -> nat -> result (Body I).
Variable firstSize moreSize : nat.
Variable failure : jstring.

(** The handler serves the slices of one list [all], each item passed
    through [f] on its way out. *)
Variable all : list I.
Variable f : list I -> list I.
Hypothesis f_app : forall l1 l2, f (l1 ++ l2) = f l1 ++ f l2.
Hypothesis f_length : forall l, length (f l) = length l.
Hypothesis served :
  forall o n,
    (o <= length all)%nat -> n = firstSize \/ n = moreSize ->
    fetchPage o n
    = Ok {| items := f (firstn n (skipn o all));
            hasMore := (o + n <? length all)%nat;
            total := length all |}.

Lemma scroll_prefix (k : nat) (s0 : Pages.State I) :
  Pages.loadingMore s0 = false ->
  Pages.shown (Pages.scroll fetchPage moreSize k
                 (Pages.loadInitial fetchPage firstSize failure s0))
  = f (firstn (firstSize + k * moreSize) all)
  /\ Pages.hasMore (Pages.scroll fetchPage moreSize k
                      (Pages.loadInitial fetchPage firstSize failure s0))
     = (firstSize + k * moreSize <? length all)%nat
  /\ Pages.loading (Pages.scroll fetchPage moreSize k
                      (Pages.loadInitial fetchPage firstSize failure s0)) = false
  /\ Pages.loadingMore (Pages.scroll fetchPage moreSize k
                          (Pages.loadInitial fetchPage firstSize failure s0)) = false
  /\ Pages.error (Pages.scroll fetchPage moreSize k
                    (Pages.loadInitial fetchPage firstSize failure s0)) = None.
Proof.
  intros H0. induction k as [|k IH].
  - cbn [Pages.scroll]. unfold Pages.loadInitial.
    rewrite served by (auto; lia).
    cbn. rewrite Nat.add_0_r. auto.
  - cbn [Pages.scroll].
    set (s := Pages.scroll fetchPage moreSize k
                (Pages.loadInitial fetchPage firstSize failure s0)) in *.
    destruct IH as (Hshown & Hmore & Hloading & HloadingMore & Herror).
    replace (firstSize + S k * moreSize)%nat
      with ((firstSize + k * moreSize) + moreSize)%nat by lia.
    set (m := (firstSize + k * moreSize)%nat) in *.
    unfold Pages.loadMore. rewrite Hmore, HloadingMore.
    destruct (Nat.ltb_spec m (length all)) as [Hlt|Hge]; cbn [negb orb].
    + assert (Hlen : length (Pages.shown s) = m).
      { rewrite Hshown, f_length, length_firstn. lia. }
      cbn [Pages.setLoadingMore Pages.shown]. rewrite Hlen.
      rewrite served by (auto; lia).
      cbn. rewrite Hshown, <- f_app, <- firstn_add. auto.
    + rewrite (firstn_past moreSize all Hge).
      destruct (Nat.ltb_spec (m + moreSize) (length all)); [lia|]. auto.
Qed.
End Scrolling.

Section Failing.
Variable I : Type.
Variable fetchPage : nat -> nat -> result (Body I).
Variable firstSize moreSize : nat.
Variable failure : jstring.
Hypothesis fails : forall o n, fetchPage o n = Throw.

Lemma loadMore_fails (s : Pages.State I) :
  Pages.loadingMore s = false -> Pages.loadMore fetchPage moreSize s = s.
Proof.
  intros H. unfold Pages.loadMore.
  destruct (negb (Pages.hasMore s) || Pages.loadingMore s); [reflexivity|].
  rewrite fails. destruct s. cbn in *. now subst.
Qed.

Lemma scroll_fails (k : nat) (s : Pages.State I) :
  Pages.loadingMore s = false -> Pages.scroll fetchPage moreSize k s = s.
Proof.
  intros H. induction k as [|k IH]; [reflexivity|].
  cbn [Pages.scroll]. rewrite IH. now apply loadMore_fails.
Qed.
End Failing.

Lemma enrich_app (W : World) (l1 l2 : list News.NewsItem) :
  fst (News.enrichItemsWithImages W (l1 ++ l2))
  = fst (News.enrichItemsWithImages W l1) ++ fst (News.enrichItemsWithImages W l2).
Proof.
  unfold News.enrichItemsWithImages.
  now rewrite !NewsFacts.fst_mapT, map_app.
Qed.

Lemma enrich_length (W : World) (l : list News.NewsItem) :
  length (fst (News.enrichItemsWithImages W l)) = length l.
Proof.
  unfold News.enrichItemsWithImages.
  now rewrite NewsFacts.fst_mapT, length_map.
Qed.

Lemma fetchNews_serves (W : World) (urls : list jstring)
      (aggregate : list News.NewsItem) (o n : nat) :
  newsAggregate W urls = Ok aggregate ->
  Z.of_nat o < 2 ^ 53 -> Z.of_nat n < 2 ^ 53 ->
  Pages.fetchNews W (Ok urls) o n
  = Ok {| items := fst (News.enrichItemsWithImages W
                          (firstn n (skipn o aggregate)));
          hasMore := (o + n <? length aggregate)%nat;
          total := length aggregate |}.
Proof.
  intros E Ho Hn. unfold Pages.fetchNews.
  rewrite (@NewsFacts.GET_answer W urls _ aggregate E).
  unfold newsPage. rewrite E.
  unfold News.offsetOf, News.limitOf, Pages.query.
  cbn [offsetParam limitParam].
  rewrite !(@param_read_back o _ Ho), !(@param_read_back n _ Hn).
  rewrite slice_window, ltb_window. reflexivity.
Qed.

Lemma fetchNewsPlain_serves (W : World) (urls : list jstring)
      (all : list NewsPlain.NewsItem) (o n : nat) :
  NewsPlain.allItems W urls = Ok all ->
  Z.of_nat o < 2 ^ 53 -> Z.of_nat n < 2 ^ 53 ->
  Pages.fetchNewsPlain W (Ok urls) o n
  = Ok {| items := firstn n (skipn o all);
          hasMore := (o + n <? length all)%nat;
          total := length all |}.
Proof.
  intros E Ho Hn.
  unfold Pages.fetchNewsPlain, NewsPlain.GET, News.offsetOf, News.limitOf,
    Pages.query. cbn [offsetParam limitParam].
  rewrite E, !(@param_read_back o _ Ho), !(@param_read_back n _ Hn).
  rewrite slice_window, ltb_window. reflexivity.
Qed.

Lemma fetchProducts_serves
      (W : World) (sources : list Product.ProductSource) (o n : nat) :
  Z.of_nat o < 2 ^ 53 -> Z.of_nat n < 2 ^ 53 ->
  Pages.fetchProducts W (Ok sources) o n
  = Ok {| items := firstn n (skipn o (Product.allProducts W sources));
          hasMore := (o + n <? length (Product.allProducts W sources))%nat;
          total := length (Product.allProducts W sources) |}.
Proof.
  intros Ho Hn.
  unfold Pages.fetchProducts, Product.GET, Product.offsetOf, Product.limitOf,
    Pages.query. cbn [offsetParam limitParam].
  rewrite !(@param_read_back o _ Ho), !(@param_read_back n _ Hn).
  rewrite slice_window, ltb_window. reflexivity.
Qed.

Lemma fetchVideos_serves (W : World) (channelIds : list jstring)
      (all : list Videos.VideoItem) (o n : nat) :
  MoreTerms.readsDecimals W ->
  Videos.sortedVideos W channelIds = Ok all ->
  Z.of_nat o < 2 ^ 53 -> Z.of_nat n < 2 ^ 53 ->
  Pages.fetchVideos W (Ok channelIds) o n
  = Ok {| items := firstn n (skipn o all);
          hasMore := (o + n <? length all)%nat;
          total := length all |}.
Proof.
  intros HW E Ho Hn.
  assert (Hnum : forall k d,
             Z.of_nat k < 2 ^ 53 ->
             Videos.numberOr W (Some (Text.decimal k)) d = ofZ (Z.of_nat k)).
  { intros k d Hk. unfold Videos.numberOr. rewrite <- (HW k Hk).
    destruct (decimal_spec k) as (Hne & _).
    destruct (Text.decimal k); [congruence|reflexivity]. }
  unfold Pages.fetchVideos, Videos.GET, Videos.offsetOf, Videos.limitOf,
    Pages.query. cbn [offsetParam limitParam].
  rewrite E, (Hnum o 0 Ho), (Hnum n 30 Hn), slice_window, ltb_window.
  reflexivity.
Qed.

Lemma digits_reads_decimals (feed : Sample.Document) :
  MoreTerms.readsDecimals (videoWorld feed).
Proof.
  intros n Hn. cbn [stringToNumber videoWorld]. unfold digits.
  destruct (decimal_spec n) as (_ & Hall & _). rewrite Hall.
  rewrite <- (app_nil_r (Text.decimal n)). now apply parseInt_decimal.
Qed.

(** Scrolling the news page shows a prefix of the aggregate.  Where the
    handler's sort returns (the list it returns being of a length below
    [2^53], as the length of every array is), from any state that is not
    loading more, after the initial load and [k] further loads against
    feeds that do not change, the page shows the first [30 + 10 k] items
    of the handler's sorted list, without a gap and without a repetition,
    each passed through the enrichment; it offers to load more exactly
    when items are left, it is not loading, and it shows no error.  With
    the handler that has no enrichment pass the items are those of its
    list as they are. *)
Theorem news_scrolling_shows_a_prefix
        (W : World) (urls : list jstring) (k : nat) :
  (forall aggregate (s : Pages.State News.NewsItem),
      newsAggregate W urls = Ok aggregate ->
      Z.of_nat (length aggregate) < 2 ^ 53 ->
      Pages.loadingMore s = false ->
      Pages.shown (Pages.scroll (Pages.fetchNews W (Ok urls)) 10 k
                     (Pages.loadInitialNews W (Ok urls) s))
      = fst (News.enrichItemsWithImages W (firstn (30 + k * 10) aggregate))
      /\ Pages.hasMore (Pages.scroll (Pages.fetchNews W (Ok urls)) 10 k
                          (Pages.loadInitialNews W (Ok urls) s))
         = (30 + k * 10 <? length aggregate)%nat
      /\ Pages.loading (Pages.scroll (Pages.fetchNews W (Ok urls)) 10 k
                          (Pages.loadInitialNews W (Ok urls) s)) = false
      /\ Pages.loadingMore (Pages.scroll (Pages.fetchNews W (Ok urls)) 10 k
                              (Pages.loadInitialNews W (Ok urls) s)) = false
      /\ Pages.error (Pages.scroll (Pages.fetchNews W (Ok urls)) 10 k
                        (Pages.loadInitialNews W (Ok urls) s)) = None)
  /\ (forall all (s : Pages.State NewsPlain.NewsItem),
         NewsPlain.allItems W urls = Ok all ->
         Z.of_nat (length all) < 2 ^ 53 ->
         Pages.loadingMore s = false ->
         Pages.shown (Pages.scroll (Pages.fetchNewsPlain W (Ok urls)) 10 k
                        (Pages.loadInitial (Pages.fetchNewsPlain W (Ok urls)) 30
                           (lit "Failed to load news. Please try again.") s))
         = firstn (30 + k * 10) all
         /\ Pages.hasMore
              (Pages.scroll (Pages.fetchNewsPlain W (Ok urls)) 10 k
                 (Pages.loadInitial (Pages.fetchNewsPlain W (Ok urls)) 30
                    (lit "Failed to load news. Please try again.") s))
            = (30 + k * 10 <? length all)%nat).
Proof.
  split.
  - intros aggregate s E Hlen Hs.
    apply (@scroll_prefix _ (Pages.fetchNews W (Ok urls)) 30 10
             (lit "Failed to load news. Please try again.")
             aggregate
             (fun l => fst (News.enrichItemsWithImages W l))).
    + apply enrich_app.
    + apply enrich_length.
    + intros o n Ho Hn. apply fetchNews_serves; [exact E|lia|].
      destruct Hn as [-> | ->]; vm_compute; reflexivity.
    + exact Hs.
  - intros all s E Hlen Hs.
    assert (Hserved : forall o n,
               (o <= length all)%nat -> n = 30%nat \/ n = 10%nat ->
               Pages.fetchNewsPlain W (Ok urls) o n
               = Ok {| items := firstn n (skipn o all);
                       hasMore := (o + n <? length all)%nat;
                       total := length all |}).
    { intros o n Ho Hn. apply fetchNewsPlain_serves; [exact E|lia|].
      destruct Hn as [-> | ->]; vm_compute; reflexivity. }
    destruct (@scroll_prefix _ (Pages.fetchNewsPlain W (Ok urls)) 30 10
                (lit "Failed to load news. Please try again.")
                all (fun l => l)
                (fun _ _ => eq_refl) (fun _ => eq_refl)
                Hserved k s Hs) as (H1 & H2 & _).
    split; assumption.
Qed.

Lemma news_scrolling_shows_a_prefix_witness :
  exists aggregate,
    newsAggregate MoreSamples.longWorld [lit "https://f.example/rss"]
    = Ok aggregate
    /\ length aggregate = 35%nat
    /\ Pages.loadingMore (Pages.mounted News.NewsItem) = false
    /\ length (Pages.shown
                 (Pages.loadInitialNews MoreSamples.longWorld
                    (Ok [lit "https://f.example/rss"])
                    (Pages.mounted News.NewsItem))) = 30%nat
    /\ Pages.hasMore
         (Pages.loadInitialNews MoreSamples.longWorld
            (Ok [lit "https://f.example/rss"]) (Pages.mounted News.NewsItem))
       = true
    /\ Pages.shown
         (Pages.scroll (Pages.fetchNews MoreSamples.longWorld
                          (Ok [lit "https://f.example/rss"])) 10 1
            (Pages.loadInitialNews MoreSamples.longWorld
               (Ok [lit "https://f.example/rss"]) (Pages.mounted News.NewsItem)))
       = fst (News.enrichItemsWithImages MoreSamples.longWorld
                (firstn (30 + 1 * 10) aggregate))
    /\ length (Pages.shown
                 (Pages.scroll (Pages.fetchNews MoreSamples.longWorld
                                  (Ok [lit "https://f.example/rss"])) 10 1
                    (Pages.loadInitialNews MoreSamples.longWorld
                       (Ok [lit "https://f.example/rss"])
                       (Pages.mounted News.NewsItem)))) = 35%nat.
Proof.
  set (W := MoreSamples.longWorld). set (urls := [lit "https://f.example/rss"]).
  set (kept := filter (fun it => truthy (News.pubDate it))
                      (concat (newsFeeds W urls))).
  exists (stableSort (valuesOf (News.byDateDesc W)) kept).
  assert (E : newsAggregate W urls
              = Ok (stableSort (valuesOf (News.byDateDesc W)) kept)).
  { unfold newsAggregate, News.allItems. fold kept.
    rewrite (@DateFacts.guarded_sort News.NewsItem W News.pubDate
               (News.byDateDesc W) (fun a b => eq_refl)).
    vm_compute. reflexivity. }
  assert (Hcount : length (stableSort (valuesOf (News.byDateDesc W)) kept)
                   = 35%nat)
    by (vm_compute; reflexivity).
  assert (Hlen : Z.of_nat (length (stableSort (valuesOf (News.byDateDesc W))
                                     kept)) < 2 ^ 53)
    by (rewrite Hcount; vm_compute; reflexivity).
  destruct (proj1 (news_scrolling_shows_a_prefix W urls 0)
              _ (Pages.mounted News.NewsItem) E Hlen eq_refl)
    as (Hshown0 & Hmore0 & _).
  destruct (proj1 (news_scrolling_shows_a_prefix W urls 1)
              _ (Pages.mounted News.NewsItem) E Hlen eq_refl)
    as (Hshown1 & _).
  cbn [Pages.scroll] in Hshown0, Hmore0.
  split; [exact E|]. split; [exact Hcount|]. split; [reflexivity|].
  split; [rewrite Hshown0, enrich_length, length_firstn, Hcount; reflexivity|].
  split; [rewrite Hmore0, Hcount; reflexivity|].
  split; [exact Hshown1|].
  rewrite Hshown1, enrich_length, length_firstn, Hcount. reflexivity.
Defined.

(** Scrolling the product page shows a prefix of the sorted products
    (their number being below [2^53], as the length of every array is):
    after the initial load and [k] further loads the first [12 + 12 k] of
    them, and the offer to load more exactly when some are left. *)
Theorem product_scrolling_shows_a_prefix
        (W : World) (sources : list Product.ProductSource) (k : nat)
        (s : Pages.State Product.Product) :
  Z.of_nat (length (Product.allProducts W sources)) < 2 ^ 53 ->
  Pages.loadingMore s = false ->
  Pages.shown (Pages.scroll (Pages.fetchProducts W (Ok sources)) 12 k
                 (Pages.loadInitialProducts W (Ok sources) s))
  = firstn (12 + k * 12) (Product.allProducts W sources)
  /\ Pages.hasMore (Pages.scroll (Pages.fetchProducts W (Ok sources)) 12 k
                      (Pages.loadInitialProducts W (Ok sources) s))
     = (12 + k * 12 <? length (Product.allProducts W sources))%nat
  /\ Pages.loading (Pages.scroll (Pages.fetchProducts W (Ok sources)) 12 k
                      (Pages.loadInitialProducts W (Ok sources) s)) = false
  /\ Pages.loadingMore (Pages.scroll (Pages.fetchProducts W (Ok sources)) 12 k
                          (Pages.loadInitialProducts W (Ok sources) s)) = false
  /\ Pages.error (Pages.scroll (Pages.fetchProducts W (Ok sources)) 12 k
                    (Pages.loadInitialProducts W (Ok sources) s)) = None.
Proof.
  intros Hlen Hs.
  assert (Hserved : forall o n,
             (o <= length (Product.allProducts W sources))%nat ->
             n = 12%nat \/ n = 12%nat ->
             Pages.fetchProducts W (Ok sources) o n
             = Ok {| items := firstn n (skipn o (Product.allProducts W sources));
                     hasMore := (o + n <? length (Product.allProducts W sources))%nat;
                     total := length (Product.allProducts W sources) |}).
  { intros o n Ho Hn. apply fetchProducts_serves; [lia|].
    destruct Hn as [-> | ->]; vm_compute; reflexivity. }
  exact (@scroll_prefix _ (Pages.fetchProducts W (Ok sources)) 12 12
           (lit "Failed to load products. Please try again.")
           (Product.allProducts W sources) (fun l => l)
           (fun _ _ => eq_refl) (fun _ => eq_refl)
           Hserved k s Hs).
Qed.

Lemma product_scrolling_shows_a_prefix_witness :
  Z.of_nat (length (Product.allProducts MoreSamples.shelfWorld
                      [shop "shop.example"])) < 2 ^ 53
  /\ length (Product.allProducts MoreSamples.shelfWorld [shop "shop.example"])
     = 15%nat
  /\ Pages.loadingMore (Pages.mounted Product.Product) = false
  /\ length (Pages.shown
               (Pages.loadInitialProducts MoreSamples.shelfWorld
                  (Ok [shop "shop.example"]) (Pages.mounted Product.Product)))
     = 12%nat
  /\ Pages.hasMore
       (Pages.loadInitialProducts MoreSamples.shelfWorld
          (Ok [shop "shop.example"]) (Pages.mounted Product.Product))
     = true
  /\ Pages.shown (Pages.scroll (Pages.fetchProducts MoreSamples.shelfWorld
                                  (Ok [shop "shop.example"])) 12 1
                    (Pages.loadInitialProducts MoreSamples.shelfWorld
                       (Ok [shop "shop.example"])
                       (Pages.mounted Product.Product)))
     = firstn (12 + 1 * 12)
              (Product.allProducts MoreSamples.shelfWorld [shop "shop.example"])
  /\ map Product.title
         (Pages.shown (Pages.scroll (Pages.fetchProducts MoreSamples.shelfWorld
                                       (Ok [shop "shop.example"])) 12 1
                         (Pages.loadInitialProducts MoreSamples.shelfWorld
                            (Ok [shop "shop.example"])
                            (Pages.mounted Product.Product))))
     = map lit ["p01"; "p02"; "p03"; "p04"; "p05"; "p06"; "p07"; "p08"; "p09";
                "p10"; "p11"; "p12"; "p13"; "p14"; "p15"]%string.
Proof.
  assert (Hlen : Z.of_nat (length (Product.allProducts MoreSamples.shelfWorld
                                     [shop "shop.example"])) < 2 ^ 53)
    by (vm_compute; reflexivity).
  split; [exact Hlen|]. split; [vm_compute; reflexivity|].
  split; [reflexivity|]. split; [vm_compute; reflexivity|].
  split; [vm_compute; reflexivity|]. split.
  - exact (proj1 (@product_scrolling_shows_a_prefix MoreSamples.shelfWorld
                    [shop "shop.example"] 1 (Pages.mounted Product.Product)
                    Hlen eq_refl)).
  - vm_compute. reflexivity.
Defined.

(** Scrolling the videos page shows a prefix of the sorted videos, where
    [Number] reads a printed offset back and the handler's sort returns
    (a list of a length below [2^53], as the length of every array is):
    after the initial load and [k] further loads the first [30 + 10 k] of
    them, and the offer to load more exactly when some are left. *)
Theorem video_scrolling_shows_a_prefix
        (W : World) (channelIds : list jstring) (k : nat)
        (all : list Videos.VideoItem) (s : Pages.State Videos.VideoItem) :
  MoreTerms.readsDecimals W ->
  Videos.sortedVideos W channelIds = Ok all ->
  Z.of_nat (length all) < 2 ^ 53 ->
  Pages.loadingMore s = false ->
  Pages.shown (Pages.scroll (Pages.fetchVideos W (Ok channelIds)) 10 k
                 (Pages.loadInitialVideos W (Ok channelIds) s))
  = firstn (30 + k * 10) all
  /\ Pages.hasMore (Pages.scroll (Pages.fetchVideos W (Ok channelIds)) 10 k
                      (Pages.loadInitialVideos W (Ok channelIds) s))
     = (30 + k * 10 <? length all)%nat
  /\ Pages.loading (Pages.scroll (Pages.fetchVideos W (Ok channelIds)) 10 k
                      (Pages.loadInitialVideos W (Ok channelIds) s)) = false
  /\ Pages.loadingMore (Pages.scroll (Pages.fetchVideos W (Ok channelIds)) 10 k
                          (Pages.loadInitialVideos W (Ok channelIds) s)) = false
  /\ Pages.error (Pages.scroll (Pages.fetchVideos W (Ok channelIds)) 10 k
                    (Pages.loadInitialVideos W (Ok channelIds) s)) = None.
Proof.
  intros HW E Hlen Hs.
  assert (Hserved : forall o n,
             (o <= length all)%nat -> n = 30%nat \/ n = 10%nat ->
             Pages.fetchVideos W (Ok channelIds) o n
             = Ok {| items := firstn n (skipn o all);
                     hasMore := (o + n <? length all)%nat;
                     total := length all |}).
  { intros o n Ho Hn. apply fetchVideos_serves; [exact HW|exact E|lia|].
    destruct Hn as [-> | ->]; vm_compute; reflexivity. }
  exact (@scroll_prefix _ (Pages.fetchVideos W (Ok channelIds)) 30 10
           (lit "Failed to load videos. Please try again.")
           all (fun l => l)
           (fun _ _ => eq_refl) (fun _ => eq_refl)
           Hserved k s Hs).
Qed.

Lemma video_scrolling_shows_a_prefix_witness :
  exists all,
    MoreTerms.readsDecimals (videoWorld MoreSamples.longVideos)
    /\ Videos.sortedVideos (videoWorld MoreSamples.longVideos) [lit "UC1"]
       = Ok all
    /\ length all = 35%nat
    /\ Pages.loadingMore (Pages.mounted Videos.VideoItem) = false
    /\ length (Pages.shown
                 (Pages.loadInitialVideos (videoWorld MoreSamples.longVideos)
                    (Ok [lit "UC1"]) (Pages.mounted Videos.VideoItem)))
       = 30%nat
    /\ Pages.hasMore
         (Pages.loadInitialVideos (videoWorld MoreSamples.longVideos)
            (Ok [lit "UC1"]) (Pages.mounted Videos.VideoItem))
       = true
    /\ Pages.shown
         (Pages.scroll (Pages.fetchVideos (videoWorld MoreSamples.longVideos)
                          (Ok [lit "UC1"])) 10 1
            (Pages.loadInitialVideos (videoWorld MoreSamples.longVideos)
               (Ok [lit "UC1"]) (Pages.mounted Videos.VideoItem)))
       = firstn (30 + 1 * 10) all
    /\ length (Pages.shown
                 (Pages.scroll
                    (Pages.fetchVideos (videoWorld MoreSamples.longVideos)
                       (Ok [lit "UC1"])) 10 1
                    (Pages.loadInitialVideos (videoWorld MoreSamples.longVideos)
                       (Ok [lit "UC1"]) (Pages.mounted Videos.VideoItem))))
       = 35%nat.
Proof.
  set (W := videoWorld MoreSamples.longVideos).
  set (mapped := concat (map (Videos.videosOf W) [lit "UC1"])).
  assert (Hall : Forall (fun v => tryCatch (timeOf (getTime W)
                                              (Videos.published v)) None
                                  <> None) mapped)
    by (vm_compute; repeat constructor; discriminate).
  destruct (@DateFacts.difference_sorted Videos.VideoItem W Videos.published
              (Videos.byPublishedDesc W) (fun a b => eq_refl) mapped Hall)
    as (E & _).
  exists (stableSort (valuesOf (Videos.byPublishedDesc W)) mapped).
  assert (Hcount : length (stableSort (valuesOf (Videos.byPublishedDesc W))
                             mapped) = 35%nat)
    by (vm_compute; reflexivity).
  assert (Hlen : Z.of_nat (length (stableSort
                                     (valuesOf (Videos.byPublishedDesc W))
                                     mapped)) < 2 ^ 53)
    by (rewrite Hcount; vm_compute; reflexivity).
  destruct (@video_scrolling_shows_a_prefix W [lit "UC1"] 0 _
              (Pages.mounted Videos.VideoItem)
              (digits_reads_decimals MoreSamples.longVideos) E Hlen eq_refl)
    as (Hshown0 & Hmore0 & _).
  destruct (@video_scrolling_shows_a_prefix W [lit "UC1"] 1 _
              (Pages.mounted Videos.VideoItem)
              (digits_reads_decimals MoreSamples.longVideos) E Hlen eq_refl)
    as (Hshown1 & _).
  cbn [Pages.scroll] in Hshown0, Hmore0.
  split; [apply digits_reads_decimals|]. split; [exact E|].
  split; [exact Hcount|]. split; [reflexivity|].
  split; [rewrite Hshown0, length_firstn, Hcount; reflexivity|].
  split; [rewrite Hmore0, Hcount; reflexivity|].
  split; [exact Hshown1|].
  rewrite Hshown1, length_firstn, Hcount. reflexivity.
Defined.

(** A failed load keeps what the page shows.  While every request fails,
    loading more, any number of times, changes nothing at all: the list,
    the offer to load more and the absence of an error message stay; the
    initial load changes the message only, and ends not loading. *)
Theorem a_failed_load_keeps_the_list
        (I : Type) (fetchPage : nat -> nat -> result (Body I))
        (firstSize moreSize : nat) (failure : jstring) (k : nat)
        (s : Pages.State I) :
  (forall o n, fetchPage o n = Throw) ->
  Pages.loadingMore s = false ->
  Pages.scroll fetchPage moreSize k s = s
  /\ Pages.loadInitial fetchPage firstSize failure s
     = {| Pages.shown := Pages.shown s;
          Pages.loading := false;
          Pages.loadingMore := false;
          Pages.hasMore := Pages.hasMore s;
          Pages.error := Some failure |}.
Proof.
  intros Hf Hs. split.
  - now apply scroll_fails.
  - unfold Pages.loadInitial. rewrite Hf. destruct s. cbn in *. now subst.
Qed.

Lemma a_failed_load_keeps_the_list_witness :
  (forall o n, Pages.fetchNews newsWorld Throw o n = Throw)
  /\ Pages.loadingMore (Pages.mounted News.NewsItem) = false
  /\ Pages.scroll (Pages.fetchNews newsWorld Throw) 10 3
                  (Pages.mounted News.NewsItem)
     = Pages.mounted News.NewsItem.
Proof.
  split; [reflexivity|]. split; [reflexivity|].
  exact (proj1 (@a_failed_load_keeps_the_list News.NewsItem
                  (Pages.fetchNews newsWorld Throw) 30 10
                  (lit "Failed to load news. Please try again.") 3
                  (Pages.mounted News.NewsItem)
                  (fun _ _ => eq_refl) eq_refl)).
Defined.

(* ================================================================== *)
(** * Videos: order, ties, and what an item holds                      *)
(* ================================================================== *)

Lemma sortedVideos_dated (W : World) (channelIds : list jstring) :
  Forall (fun v => MoreTerms.videoKey W v <> None)
         (concat (map (Videos.videosOf W) channelIds)) ->
  exists all,
    Videos.sortedVideos W channelIds = Ok all
    /\ StronglySorted
         (fun a b => newestFirst (MoreTerms.videoKey W a)
                                 (MoreTerms.videoKey W b))
         all
    /\ forall k,
         filter (fun v => sameKey k (MoreTerms.videoKey W v)) all
         = filter (fun v => sameKey k (MoreTerms.videoKey W v))
                  (concat (map (Videos.videosOf W) channelIds)).
Proof.
  intros HP.
  destruct (@DateFacts.difference_sorted Videos.VideoItem W Videos.published
              (Videos.byPublishedDesc W) (fun a b => eq_refl) _ HP)
    as (E & Hs & Hties).
  eexists. split; [exact E|]. split; [exact Hs|exact Hties].
Qed.

(** Videos come newest first when every date parses.  If the publication
    date of every entry the channels gave parses, the sort returns, and
    the sorted list and every page of it run from the latest date to the
    earliest. *)
Theorem video_order_when_every_date_parses
        (W : World) (channelIds : list jstring) (request : Request) :
  Forall (fun v => MoreTerms.videoKey W v <> None)
         (concat (map (Videos.videosOf W) channelIds)) ->
  (exists all,
      Videos.sortedVideos W channelIds = Ok all
      /\ StronglySorted
           (fun a b => newestFirst (MoreTerms.videoKey W a)
                                   (MoreTerms.videoKey W b))
           all)
  /\ StronglySorted
       (fun a b => newestFirst (MoreTerms.videoKey W a) (MoreTerms.videoKey W b))
       (itemsOf (Videos.GET W (Ok channelIds) request)).
Proof.
  intros HP.
  destruct (sortedVideos_dated W channelIds HP) as (all & E & Hs & _).
  split; [eauto|].
  unfold Videos.GET. rewrite E. cbn [itemsOf items].
  destruct (slice_segment all (Videos.offsetOf W request)
              (add (Videos.offsetOf W request) (Videos.limitOf W request)))
    as (before & after & Es).
  rewrite Es in Hs. now apply SortFacts.sorted_segment in Hs.
Qed.

Lemma video_order_when_every_date_parses_witness :
  Forall (fun v => MoreTerms.videoKey (videoWorld MoreSamples.datedPair) v <> None)
         (concat (map (Videos.videosOf (videoWorld MoreSamples.datedPair))
                      [lit "UC1"]))
  /\ map Videos.title
         (itemsOf (Videos.GET (videoWorld MoreSamples.datedPair)
                     (Ok [lit "UC1"]) noParams))
     = [VStr (lit "Newer"); VStr (lit "Older")]
  /\ StronglySorted
       (fun a b => newestFirst
                     (MoreTerms.videoKey (videoWorld MoreSamples.datedPair) a)
                     (MoreTerms.videoKey (videoWorld MoreSamples.datedPair) b))
       (itemsOf (Videos.GET (videoWorld MoreSamples.datedPair)
                   (Ok [lit "UC1"]) noParams)).
Proof.
  assert (H : Forall (fun v => MoreTerms.videoKey
                                 (videoWorld MoreSamples.datedPair) v <> None)
                     (concat (map (Videos.videosOf
                                     (videoWorld MoreSamples.datedPair))
                                  [lit "UC1"]))).
  { vm_compute. repeat constructor; discriminate. }
  split; [exact H|]. split; [vm_compute; reflexivity|].
  exact (proj2 (@video_order_when_every_date_parses
                  (videoWorld MoreSamples.datedPair) [lit "UC1"] noParams H)).
Defined.

(** Videos of one date keep the order of the channels, when every date
    parses: the comparator is then consistent, and the sort, which is
    stable, never moves a video past another of the same publication
    time.  The videos of one time stand in the sorted list in the order of
    the channel list and, inside a channel, of its feed. *)
Theorem videos_of_one_date_keep_their_order
        (W : World) (channelIds : list jstring) (k : option Z) :
  Forall (fun v => MoreTerms.videoKey W v <> None)
         (concat (map (Videos.videosOf W) channelIds)) ->
  exists all,
    Videos.sortedVideos W channelIds = Ok all
    /\ filter (fun v => sameKey k (MoreTerms.videoKey W v)) all
       = filter (fun v => sameKey k (MoreTerms.videoKey W v))
                (concat (map (Videos.videosOf W) channelIds)).
Proof.
  intros HP.
  destruct (sortedVideos_dated W channelIds HP) as (all & E & _ & Hties).
  exists all. split; [exact E|apply Hties].
Qed.

Lemma videos_of_one_date_keep_their_order_witness :
  Forall (fun v => MoreTerms.videoKey (videoWorld MoreSamples.tiedVideos) v
                   <> None)
         (concat (map (Videos.videosOf (videoWorld MoreSamples.tiedVideos))
                      [lit "UC1"]))
  /\ map Videos.title
         (concat (map (Videos.videosOf (videoWorld MoreSamples.tiedVideos))
                      [lit "UC1"]))
     = [VStr (lit "Older"); VStr (lit "First"); VStr (lit "Second")]
  /\ exists all,
       Videos.sortedVideos (videoWorld MoreSamples.tiedVideos) [lit "UC1"]
       = Ok all
       /\ map Videos.title all
          = [VStr (lit "First"); VStr (lit "Second"); VStr (lit "Older")]
       /\ map Videos.title
              (filter (fun v => sameKey (Some 1704153600000)
                                  (MoreTerms.videoKey
                                     (videoWorld MoreSamples.tiedVideos) v))
                      all)
          = [VStr (lit "First"); VStr (lit "Second")].
Proof.
  assert (H : Forall (fun v => MoreTerms.videoKey
                                 (videoWorld MoreSamples.tiedVideos) v <> None)
                     (concat (map (Videos.videosOf
                                     (videoWorld MoreSamples.tiedVideos))
                                  [lit "UC1"]))).
  { vm_compute. repeat constructor; discriminate. }
  split; [exact H|]. split; [vm_compute; reflexivity|].
  destruct (@videos_of_one_date_keep_their_order
              (videoWorld MoreSamples.tiedVideos) [lit "UC1"]
              (Some 1704153600000) H) as (all & E & Hties).
  exists all. split; [exact E|]. split.
  - vm_compute in E. injection E as <-. vm_compute. reflexivity.
  - rewrite Hties. vm_compute. reflexivity.
Defined.

(** Where a date does not parse, the comparator is not consistent and
    the order is the engine's.  An engine that sorts by binary insertion
    moves a video past another of the same date: of seven entries, three
    of them undated, the last comes to stand before the last but one. *)
Example ties_move_where_a_date_does_not_parse :
  map Videos.title
      (concat (map (Videos.videosOf (videoWorld MoreSamples.mixedVideos))
                   [lit "UC1"]))
  = map (fun t => VStr (lit t))
        ["U0"; "U1"; "Jan2-a"; "Jan1"; "U4"; "Jan2-b"; "Jan2-c"]%string
  /\ map Videos.title
         (itemsOf (Videos.GET
                     (MoreSamples.withEngine MoreSamples.binaryInsertion
                        (videoWorld MoreSamples.mixedVideos))
                     (Ok [lit "UC1"]) noParams))
     = map (fun t => VStr (lit t))
           ["U0"; "U1"; "Jan2-a"; "Jan2-c"; "Jan1"; "U4"; "Jan2-b"]%string.
Proof. split; vm_compute; reflexivity. Qed.

Lemma toVideoItem_views (entry : value) (v : Videos.VideoItem) :
  Videos.toVideoItem entry = Ok v -> truthy (Videos.views v) = true.
Proof.
  unfold Videos.toVideoItem. intros H.
  destruct (Videos.at0 "id" entry); simpl in H; [|discriminate].
  destruct (Videos.at0 "yt:videoId" entry) as [vid|]; simpl in H;
    [|discriminate].
  destruct (Videos.at0 "title" entry); simpl in H; [|discriminate].
  destruct (toStr vid); simpl in H; [|discriminate].
  destruct (Videos.at0 "author" entry) as [author|]; simpl in H; [|discriminate].
  destruct (Videos.at0 "name" author); simpl in H; [|discriminate].
  destruct (Videos.at0 "published" entry); simpl in H; [|discriminate].
  destruct (Videos.at0 "media:group" entry) as [group|]; simpl in H;
    [|discriminate].
  destruct (Videos.at0 "media:community" group) as [community|]; simpl in H;
    [|discriminate].
  destruct (Videos.at0 "media:statistics" community) as [stats|]; simpl in H;
    [|discriminate].
  destruct (Videos.viewsOf stats) as [x|]; simpl in H; [|discriminate].
  injection H as <-. cbn [Videos.views]. unfold orElse.
  destruct (truthy x) eqn:E; [exact E|reflexivity].
Qed.

Lemma videosOf_entries (W : World) (channelId : jstring) (v : Videos.VideoItem) :
  In v (Videos.videosOf W channelId) ->
  exists entry, Videos.toVideoItem entry = Ok v.
Proof.
  unfold Videos.videosOf.
  destruct (fetch W (Videos.feedUrl channelId)) as [|[|] xmlText];
    try (intros []).
  destruct (parseXML W xmlText) as [tree|]; [|intros []]. cbn [rbind].
  destruct (getProp (lit "feed") tree) as [feed|]; [|intros []]. cbn [rbind].
  destruct (getProp (lit "entry") feed) as [entry|]; [|intros []]. cbn [rbind].
  destruct (asArray (orElse entry (VArr []))) as [entries|]; [|intros []].
  cbn [rbind].
  destruct (rmap Videos.toVideoItem entries) as [l|] eqn:E; [|intros []].
  cbn [tryCatch]. intros Hin. apply rmap_Forall2 in E.
  induction E as [|e y entries l He _ IH]; [destruct Hin|].
  destruct Hin as [<-|Hin]; eauto.
Qed.

(** What a listed video holds.  In every answer of the video handler
    every item has the thumbnail address built from its own video
    identifier, which has a string form, and a view count that is there:
    the count of the feed or, for want of one, the text 0, never an absent
    or an empty value. *)
Theorem listed_videos_have_thumbnail_and_views
        (W : World) (channelIds : list jstring) (request : Request) :
  Forall (fun v =>
            (exists inThumbnail,
                toStr (Videos.videoId v) = Ok inThumbnail
                /\ Videos.thumbnail v
                   = lit "https://i.ytimg.com/vi/" ++ inThumbnail
                       ++ lit "/mqdefault.jpg")
            /\ truthy (Videos.views v) = true)
         (itemsOf (Videos.GET W (Ok channelIds) request)).
Proof.
  apply Forall_forall. intros v Hv. unfold Videos.GET in Hv.
  destruct (Videos.sortedVideos W channelIds) as [all|] eqn:E; [|destruct Hv].
  cbn [itemsOf items] in Hv. apply slice_incl in Hv.
  unfold Videos.sortedVideos in E.
  apply (proj1 (SortFacts.sort_In _ _ _ v E)) in Hv.
  apply in_concat in Hv as (l & Hl & Hv).
  apply in_map_iff in Hl as (channelId & <- & _).
  apply videosOf_entries in Hv as (entry & He). split.
  - exact (proj2 (VideosFacts.toVideoItem_thumbnail entry He)).
  - exact (toVideoItem_views entry He).
Qed.

(** One entry can cost the whole channel.  When the feed of a channel
    answers and parses, and the normalizer throws at one of its entries,
    the channel gives no video at all: the entries that would have passed
    are lost with it. *)
Theorem one_bad_entry_drops_the_channel
        (W : World) (channelId xmlText : jstring) (tree : value)
        (entries : list value) (entry : value) :
  fetch W (Videos.feedUrl channelId) = Response true xmlText ->
  parseXML W xmlText = Ok tree ->
  MoreTerms.atomEntries tree = Ok (VArr entries) ->
  In entry entries ->
  Videos.toVideoItem entry = Throw ->
  Videos.videosOf W channelId = [].
Proof.
  intros Hf Hp He Hin Ht. unfold Videos.videosOf. rewrite Hf, Hp.
  cbn [rbind]. unfold MoreTerms.atomEntries in He.
  destruct (getProp (lit "feed") tree) as [feed|]; [|reflexivity].
  cbn [rbind] in *.
  destruct (getProp (lit "entry") feed) as [e|]; [|reflexivity].
  cbn [rbind] in *. injection He as ->. cbn [asArray rbind].
  now rewrite (rmap_throw Videos.toVideoItem entries entry Hin Ht).
Qed.

Lemma one_bad_entry_drops_the_channel_witness :
  In (parsed (entry "v2" "Uncounted" "2024-01-01T00:00:00+00:00" ratingOnly))
     (map parsed
          [ entry "v1" "Counted" "2024-01-02T00:00:00+00:00" (statistics "5");
            entry "v2" "Uncounted" "2024-01-01T00:00:00+00:00" ratingOnly ])
  /\ Videos.toVideoItem
       (parsed (entry "v2" "Uncounted" "2024-01-01T00:00:00+00:00" ratingOnly))
     = Throw
  /\ Videos.videosOf (videoWorld noStatistics) (lit "UC1") = [].
Proof.
  assert (Hin : In (parsed (entry "v2" "Uncounted" "2024-01-01T00:00:00+00:00"
                                  ratingOnly))
                   (map parsed
                        [ entry "v1" "Counted" "2024-01-02T00:00:00+00:00"
                                (statistics "5");
                          entry "v2" "Uncounted" "2024-01-01T00:00:00+00:00"
                                ratingOnly ]))
    by (right; left; reflexivity).
  split; [exact Hin|]. split; [vm_compute; reflexivity|].
  refine (@one_bad_entry_drops_the_channel
            (videoWorld noStatistics) (lit "UC1")
            (lit (source noStatistics)) (parsed noStatistics)
            (map parsed
                 [ entry "v1" "Counted" "2024-01-02T00:00:00+00:00"
                         (statistics "5");
                   entry "v2" "Uncounted" "2024-01-01T00:00:00+00:00"
                         ratingOnly ])
            (parsed (entry "v2" "Uncounted" "2024-01-01T00:00:00+00:00"
                           ratingOnly))
            _ _ _ Hin _);
    vm_compute; reflexivity.
Defined.

(* ================================================================== *)
(** * A negative offset                                                *)
(* ================================================================== *)

Lemma slice_from_the_end {A} (l : list A) (k n : nat) :
  (0 < k <= length l)%nat ->
  slice l (ofZ (- Z.of_nat k)) (add (ofZ (- Z.of_nat k)) (ofZ (Z.of_nat n)))
  = firstn (if (n <? k)%nat then n else (n - length l)%nat)
           (skipn (length l - k) l).
Proof.
  intros Hk. unfold slice. rewrite toInteger_ofZ, toInteger_add_ofZ.
  cbn [relIndex].
  destruct (Z.ltb_spec (- Z.of_nat k) 0) as [_|?]; [|lia].
  rewrite (Z.max_l (Z.of_nat (length l) + - Z.of_nat k)) by lia.
  replace (Z.to_nat (Z.of_nat (length l) + - Z.of_nat k))
    with (length l - k)%nat by lia.
  destruct (Nat.ltb_spec n k) as [Hn|Hn].
  - destruct (Z.ltb_spec (- Z.of_nat k + Z.of_nat n) 0) as [_|?]; [|lia].
    f_equal. lia.
  - destruct (Z.ltb_spec (- Z.of_nat k + Z.of_nat n) 0) as [?|_]; [lia|].
    destruct (Z.le_gt_cases (- Z.of_nat k + Z.of_nat n) (Z.of_nat (length l)))
      as [Hle|Hgt].
    + rewrite Z.min_l by lia. f_equal. lia.
    + rewrite Z.min_r by lia.
      rewrite !firstn_all2; [reflexivity| |]; rewrite length_skipn; lia.
Qed.

(** A negative offset counts from the end.  For an offset [-k] that
    reaches no further back than the list is long, the product handler
    starts [k] products before the end; the end of the page, [-k + limit],
    is counted from the end too while it is negative, and from the start
    once it is not, which leaves the page empty unless the limit exceeds
    the length of the list.  [hasMore] compares [-k + limit] with the
    length, so it is true for every limit below [k + total]. *)
Theorem negative_offset_counts_from_the_end
        (W : World) (sources : list Product.ProductSource) (request : Request)
        (k n : nat) :
  Product.offsetOf request = ofZ (- Z.of_nat k) ->
  Product.limitOf request = ofZ (Z.of_nat n) ->
  (0 < k <= length (Product.allProducts W sources))%nat ->
  Product.GET W (Ok sources) request
  = Json200
      {| items :=
           firstn (if (n <? k)%nat then n
                   else (n - length (Product.allProducts W sources))%nat)
                  (skipn (length (Product.allProducts W sources) - k)
                         (Product.allProducts W sources));
         hasMore := (n <? k + length (Product.allProducts W sources))%nat;
         total := length (Product.allProducts W sources) |}.
Proof.
  intros Ho Hn Hk. unfold Product.GET.
  rewrite Ho, Hn, (slice_from_the_end _ n Hk), ltb_add_ofZ.
  do 2 f_equal.
  destruct (Z.ltb_spec (- Z.of_nat k + Z.of_nat n)
                       (Z.of_nat (length (Product.allProducts W sources)))),
           (Nat.ltb_spec n (k + length (Product.allProducts W sources)));
    try reflexivity; exfalso; lia.
Qed.

Lemma negative_offset_counts_from_the_end_witness :
  Product.offsetOf (params "-1" "2") = ofZ (- Z.of_nat 1)
  /\ Product.limitOf (params "-1" "2") = ofZ (Z.of_nat 2)
  /\ (0 < 1 <= length (Product.allProducts MoreSamples.twoPages
                         [shop "shop.example"]))%nat
  /\ Product.GET MoreSamples.twoPages (Ok [shop "shop.example"])
                 (params "-1" "2")
     = Json200 {| items := []; hasMore := true; total := 2 |}.
Proof.
  assert (Hk : (0 < 1 <= length (Product.allProducts MoreSamples.twoPages
                                   [shop "shop.example"]))%nat)
    by (vm_compute; split; repeat constructor).
  split; [reflexivity|]. split; [reflexivity|]. split; [exact Hk|].
  rewrite (@negative_offset_counts_from_the_end MoreSamples.twoPages
             [shop "shop.example"] (params "-1" "2") 1 2
             eq_refl eq_refl Hk).
  vm_compute. reflexivity.
Defined.

(* ================================================================== *)
(** * The news card: the text it shows                                 *)
(* ================================================================== *)

Lemma stripTagsFrom_gt (inTag : bool) (s : jstring) :
  existsb (N.eqb 62) (Card.stripTagsFrom inTag s) = true ->
  existsb (N.eqb 62) s = true.
Proof.
  revert inTag. induction s as [|c s IH]; intros inTag; [destruct inTag; auto|].
  cbn [Card.stripTagsFrom existsb]. destruct inTag.
  - intros H. apply IH in H. rewrite H. apply orb_true_r.
  - destruct ((c =? 60)%N && existsb (N.eqb 62) s) eqn:E.
    + intros H. apply IH in H. rewrite H. apply orb_true_r.
    + cbn [existsb]. intros H. apply orb_true_iff in H as [H|H].
      * now rewrite H.
      * apply IH in H. rewrite H. apply orb_true_r.
Qed.

Lemma stripTagsFrom_closed (inTag : bool) (s : jstring) :
  MoreTerms.opensTag (Card.stripTagsFrom inTag s) = false.
Proof.
  revert inTag. induction s as [|c s IH]; intros inTag; [destruct inTag; auto|].
  cbn [Card.stripTagsFrom]. destruct inTag; [apply IH|].
  destruct ((c =? 60)%N && existsb (N.eqb 62) s) eqn:E; [apply IH|].
  cbn [MoreTerms.opensTag]. rewrite IH, orb_false_r.
  destruct (c =? 60)%N; [|reflexivity]. cbn [andb] in *.
  destruct (existsb (N.eqb 62) (Card.stripTagsFrom false s)) eqn:E';
    [|reflexivity].
  apply stripTagsFrom_gt in E'. congruence.
Qed.

Lemma stripTags_plain (s : jstring) :
  MoreTerms.opensTag s = false -> Card.stripTags s = s.
Proof.
  unfold Card.stripTags. induction s as [|c s IH]; [reflexivity|].
  cbn [MoreTerms.opensTag Card.stripTagsFrom]. intros H.
  apply orb_false_iff in H as [H1 H2]. rewrite H1, (IH H2). reflexivity.
Qed.

(** Stripping leaves no tag.  In what [cleanDescription] keeps of a text
    after its first step, no opening angle bracket is followed by a
    closing one, so stripping once more changes nothing. *)
Theorem stripped_text_holds_no_tag (html : jstring) :
  MoreTerms.opensTag (Card.stripTags html) = false
  /\ Card.stripTags (Card.stripTags html) = Card.stripTags html.
Proof.
  assert (H : MoreTerms.opensTag (Card.stripTags html) = false)
    by apply stripTagsFrom_closed.
  split; [exact H|]. now apply stripTags_plain.
Qed.

Lemma splitOn_cons (sep : N) (s : jstring) :
  exists l ls, Text.splitOn sep s = l :: ls.
Proof.
  destruct s as [|c s]; cbn [Text.splitOn]; [eauto|].
  destruct (c =? sep)%N; [eauto|].
  destruct (Text.splitOn sep s); eauto.
Qed.

Lemma join_splitOn (sep : N) (s : jstring) :
  Text.join [sep] (Text.splitOn sep s) = s.
Proof.
  induction s as [|c s IH]; [reflexivity|].
  cbn [Text.splitOn]. destruct (splitOn_cons sep s) as (l & ls & E).
  rewrite E in *. destruct (N.eqb_spec c sep) as [->|_].
  - change (Text.join [sep] ([] :: l :: ls))
      with ([] ++ [sep] ++ Text.join [sep] (l :: ls)).
    now rewrite IH.
  - destruct ls; rewrite <- IH; reflexivity.
Qed.

Lemma length_splitOn (s : jstring) :
  length (Text.splitOn 10 s) = S (MoreTerms.lineBreaks s).
Proof.
  unfold MoreTerms.lineBreaks. induction s as [|c s IH]; [reflexivity|].
  cbn [Text.splitOn filter]. unfold MoreTerms.isNewline at 1.
  destruct (splitOn_cons 10 s) as (l & ls & E). rewrite E in *.
  destruct (c =? 10)%N; cbn [length] in *; now rewrite IH.
Qed.

Lemma splitOn_pieces (s : jstring) :
  Forall (fun l => MoreTerms.lineBreaks l = 0%nat) (Text.splitOn 10 s).
Proof.
  induction s as [|c s IH]; [repeat constructor|].
  cbn [Text.splitOn]. destruct (splitOn_cons 10 s) as (l & ls & E).
  rewrite E in *. destruct (c =? 10)%N eqn:Ec.
  - constructor; [reflexivity|exact IH].
  - apply Forall_cons_iff in IH as [Hl Hls]. constructor; [|exact Hls].
    unfold MoreTerms.lineBreaks in *. cbn [filter].
    unfold MoreTerms.isNewline at 1. now rewrite Ec.
Qed.

Lemma join_firstn (sep : jstring) (k : nat) (ls : list jstring) :
  Text.join sep ls
  = Text.join sep (firstn (S k) ls)
      ++ match skipn (S k) ls with
         | [] => []
         | _ :: _ => sep ++ Text.join sep (skipn (S k) ls)
         end.
Proof.
  revert k. induction ls as [|l ls IH]; intros k; [reflexivity|].
  cbn [firstn skipn]. destruct k as [|k].
  - cbn [firstn Text.join]. destruct ls; [now rewrite app_nil_r|reflexivity].
  - destruct ls as [|l' ls]; [cbn; now rewrite app_nil_r|].
    specialize (IH k). cbn [firstn] in IH |- *.
    cbn [Text.join] in IH |- *.
    change (match ls with
            | [] => l'
            | _ :: _ => l' ++ sep ++ Text.join sep ls
            end) with (Text.join sep (l' :: ls)).
    change (match firstn k ls with
            | [] => l'
            | _ :: _ => l' ++ sep ++ Text.join sep (firstn k ls)
            end) with (Text.join sep (l' :: firstn k ls)).
    change (l' :: firstn k ls) with (firstn (S k) (l' :: ls)).
    rewrite IH at 1. now rewrite <- !app_assoc.
Qed.

Lemma lineBreaks_app (a b : jstring) :
  MoreTerms.lineBreaks (a ++ b)
  = (MoreTerms.lineBreaks a + MoreTerms.lineBreaks b)%nat.
Proof. unfold MoreTerms.lineBreaks. now rewrite filter_app, length_app. Qed.

Lemma lineBreaks_join (ls : list jstring) :
  Forall (fun l => MoreTerms.lineBreaks l = 0%nat) ls ->
  MoreTerms.lineBreaks (Text.join [10%N] ls) = (length ls - 1)%nat.
Proof.
  induction 1 as [|l ls Hl Hls IH]; [reflexivity|].
  cbn [Text.join]. destruct ls as [|l' ls]; [now rewrite Hl|].
  rewrite !lineBreaks_app, Hl, IH. cbn. lia.
Qed.

(** The short description is the first three lines.  The card cuts the
    cleaned description before its third line break: the short text is a
    prefix of the description, what it leaves out is nothing or starts
    with a line break, it holds two line breaks or as many as the
    description if that has fewer, and the card offers to read more
    exactly when the description has a third line break. *)
Theorem short_description_is_the_first_three_lines (description : jstring) :
  (exists rest,
      description = Card.shortDescription description ++ rest
      /\ (rest = [] \/ exists rest', rest = 10%N :: rest'))
  /\ MoreTerms.lineBreaks (Card.shortDescription description)
     = Nat.min 2 (MoreTerms.lineBreaks description)
  /\ Card.shouldShowReadMore description
     = (2 <? MoreTerms.lineBreaks description)%nat.
Proof.
  unfold Card.shouldShowReadMore, Card.shortDescription.
  pose proof (join_splitOn 10 description) as Hjoin.
  pose proof (length_splitOn description) as Hlen.
  pose proof (splitOn_pieces description) as Hpieces.
  set (pieces := Text.splitOn 10 description) in *.
  pose proof (join_firstn [10%N] 2 pieces) as Hcut. rewrite Hjoin in Hcut.
  assert (Hskip : length (skipn 3 pieces)
                  = (MoreTerms.lineBreaks description - 2)%nat)
    by (rewrite length_skipn; lia).
  split; [|split].
  - eexists. split; [exact Hcut|].
    destruct (skipn 3 pieces); [now left|right]. cbn [app]. eauto.
  - rewrite lineBreaks_join.
    + rewrite length_firstn. lia.
    + apply Forall_forall. intros l Hl.
      apply (proj1 (Forall_forall _ _) Hpieces).
      rewrite <- (firstn_skipn 3 pieces). apply in_or_app. now left.
  - pose proof (f_equal (@length N) Hcut) as Hl. rewrite length_app in Hl.
    destruct (skipn 3 pieces) as [|p ps] eqn:E; cbn [app length] in Hskip, Hl.
    + destruct (Nat.ltb_spec 2 (MoreTerms.lineBreaks description)); [lia|].
      apply Nat.ltb_ge. lia.
    + destruct (Nat.ltb_spec 2 (MoreTerms.lineBreaks description)); [|lia].
      apply Nat.ltb_lt. lia.
Qed.

Lemma splitOn_first (sep : N) (name rest : jstring) :
  existsb (N.eqb sep) name = false ->
  Text.splitOn sep (name ++ sep :: rest) = name :: Text.splitOn sep rest.
Proof.
  induction name as [|c name IH]; cbn [existsb app Text.splitOn]; intros H.
  - now rewrite N.eqb_refl.
  - apply orb_false_iff in H as [Hc H]. rewrite N.eqb_sym in Hc.
    rewrite Hc, (IH H). reflexivity.
Qed.

Lemma splitOn_only (sep : N) (name : jstring) :
  existsb (N.eqb sep) name = false -> Text.splitOn sep name = [name].
Proof.
  induction name as [|c name IH]; cbn [existsb Text.splitOn]; intros H;
    [reflexivity|].
  apply orb_false_iff in H as [Hc H]. rewrite N.eqb_sym in Hc.
  rewrite Hc, (IH H). reflexivity.
Qed.

Lemma splitOn_head (sep : N) (s : jstring) :
  existsb (N.eqb sep) (hd [] (Text.splitOn sep s)) = false.
Proof.
  induction s as [|c s IH]; [reflexivity|].
  cbn [Text.splitOn]. destruct (c =? sep)%N eqn:Ec; [reflexivity|].
  destruct (Text.splitOn sep s) as [|l ls]; cbn [hd existsb] in *.
  - now rewrite N.eqb_sym, Ec.
  - now rewrite N.eqb_sym, Ec, IH.
Qed.

Lemma replaceFirst_eq (pat rep s : jstring) :
  Text.replaceFirst pat rep s
  = if startsWith pat s then rep ++ skipn (length pat) s
    else match s with
         | [] => []
         | c :: s' => c :: Text.replaceFirst pat rep s'
         end.
Proof. destruct s; reflexivity. Qed.

Lemma replaceFirst_prefix (pat rep s : jstring) :
  Text.replaceFirst pat rep (pat ++ s) = rep ++ s.
Proof.
  rewrite replaceFirst_eq, startsWith_app, skipn_app, skipn_all, Nat.sub_diag.
  reflexivity.
Qed.

Lemma replaceFirst_absent (pat rep s : jstring) :
  includes pat s = false -> Text.replaceFirst pat rep s = s.
Proof.
  induction s as [|c s IH]; rewrite replaceFirst_eq; cbn [includes]; intros H;
    apply orb_false_iff in H as [H1 H2]; rewrite H1; [reflexivity|].
  now rewrite (IH H2).
Qed.

(** The website name is the first label of the host name.  The name the
    card prints never holds a full stop.  For a host name that starts with
    [www.], it is what stands between that and the next full stop, or all
    the rest if there is none; for a host name that holds no [www.], it is
    what stands before the first full stop. *)
Theorem website_name_is_the_first_label (domain name rest : jstring) :
  MoreTerms.hasDot name = false ->
  MoreTerms.hasDot (Card.getWebsiteName domain) = false
  /\ Card.getWebsiteName (lit "www." ++ name ++ 46%N :: rest) = name
  /\ Card.getWebsiteName (lit "www." ++ name) = name
  /\ (includes (lit "www.") (name ++ 46%N :: rest) = false ->
      Card.getWebsiteName (name ++ 46%N :: rest) = name).
Proof.
  unfold MoreTerms.hasDot, Card.getWebsiteName. intros H.
  split; [apply splitOn_head|]. split; [|split].
  - rewrite replaceFirst_prefix, app_nil_l.
    now rewrite (@splitOn_first 46 name rest H).
  - rewrite replaceFirst_prefix, app_nil_l.
    now rewrite (@splitOn_only 46 name H).
  - intros Hw.
    now rewrite (@replaceFirst_absent (lit "www.") [] _ Hw),
      (@splitOn_first 46 name rest H).
Qed.

Lemma website_name_is_the_first_label_witness :
  MoreTerms.hasDot (lit "prothomalo") = false
  /\ lit "www." ++ lit "prothomalo" ++ 46%N :: lit "com" = lit "www.prothomalo.com"
  /\ Card.getWebsiteName (lit "www." ++ lit "prothomalo" ++ 46%N :: lit "com")
     = lit "prothomalo".
Proof.
  split; [reflexivity|]. split; [reflexivity|].
  exact (proj1 (proj2 (@website_name_is_the_first_label
                         [] (lit "prothomalo") (lit "com") eq_refl))).
Defined.
